(** * Key Store driver (m55m1x/StdDriver/src/ks.c): shallow embedding

    The driver talks to the Key Store controller through memory-mapped
    registers and polls its status register.  The embedding keeps

    - the register block as a history-dependent oracle: the value returned
      by a register read may depend on every read and write performed so
      far, so no assumption is made on how the controller behaves;
    - the trace of register accesses performed by the driver, which is what
      the properties below talk about;
    - the caller's key buffer [au32Key] as a list of 32-bit words, an access
      outside of it being an error of its own (it is undefined in C);
    - the early [return]s of the C functions as an outcome of the monad;
    - [uint32_t] and [int32_t] values as integers with the wrap-around and
      the conversions written out;
    - the polling and chunk loops as recursion on a bound computed from the
      loop's own counter, running out of which is an error of its own that
      is proved not to happen. *)

From Stdlib Require Import ZArith List Lia Bool.
From stdpp Require Import base numbers list.
Import ListNotations.

#[local] Open Scope Z_scope.

(** ** 32-bit arithmetic *)

Definition u32 (x : Z) : Z := x mod 2 ^ 32.

Definition s32 (x : Z) : Z :=
  let y := u32 x in if y <? 2 ^ 31 then y else y - 2 ^ 32.

Definition shl32 (x n : Z) : Z := u32 (Z.shiftl x n).

(** ** Constants of the register header

    [ks.c] takes its constants from [NuMicro.h] (the [KS_*] macros and the
    [KS_MEM_Type] enumeration).  The driver is written against their names
    only, and so is the embedding: they are the fields of [Config]. *)

Class Config := {
  KS_TIMEOUT : Z;
  (* return codes *)
  KS_OK : Z;
  KS_ERR_FAIL : Z;
  KS_ERR_TIMEOUT : Z;
  KS_ERR_BUSY : Z;
  KS_ERR_PARAMETER : Z;
  (* status register *)
  KS_STS_IF_Msk : Z;
  KS_STS_EIF_Msk : Z;
  KS_STS_BUSY_Msk : Z;
  KS_STS_INITDONE_Msk : Z;
  KS_STS_RAMINV_Msk : Z;
  (* control register *)
  KS_CTL_START_Msk : Z;
  KS_CTL_CONT_Msk : Z;
  KS_CTL_INIT_Msk : Z;
  KS_CTL_SILENT_Msk : Z;
  KS_CTL_SCMB_Msk : Z;
  KS_OP_READ : Z;
  KS_OP_WRITE : Z;
  KS_OP_ERASE : Z;
  KS_OP_ERASE_ALL : Z;
  KS_OP_REVOKE : Z;
  KS_OP_REMAN : Z;
  KS_OP_LOCK : Z;
  (* metadata register *)
  KS_METADATA_DST_Pos : Z;
  KS_METADATA_SIZE_Pos : Z;
  KS_METADATA_SIZE_Msk : Z;
  KS_META_256 : Z;
  KS_TOMETAKEY : Z -> Z;
  KS_TOKEYIDX : Z -> Z;
  (* KS_MEM_Type *)
  KS_SRAM : Z;
  KS_FLASH : Z;
  KS_OTP : Z
}.

(** ** Registers, events and state *)

Inductive reg : Type :=
| CTL
| METADATA
| STS
| KEY (i : Z).

Inductive event : Type :=
| EvRead (r : reg) (v : Z)
| EvWrite (r : reg) (v : Z).

(** The controller: what a read of register [r] returns after the accesses
    [h] (oldest first). *)
Definition Hardware : Type := list event -> reg -> Z.

(** ** Outcomes and the monad of driver code *)

Inductive abort : Type :=
| OutOfBounds   (* array access outside of its bounds *)
| OutOfFuel.    (* a loop ran longer than the bound given to it *)

Inductive outcome (A : Type) : Type :=
| Next (a : A)        (* the statement completed *)
| Return (code : Z)   (* the function executed [return code] *)
| Abort (e : abort).

Arguments Next {A} a.
Arguments Return {A} code.
Arguments Abort {A} e.

(** What running a piece of code yields: how it ended, the register
    accesses it performed (oldest first) and the key buffer it leaves. *)
Record Effect (R : Type) : Type := mkEffect {
  res : R;
  events : list event;
  keybuf : list Z
}.

Arguments mkEffect {R} res events keybuf.
Arguments res {R} e.
Arguments events {R} e.
Arguments keybuf {R} e.

(** Code runs after a history [h] of register accesses, on the caller's
    buffer [au32Key]. *)
Definition M (A : Type) : Type := list event -> list Z -> Effect (outcome A).

Definition ret {A} (a : A) : M A := fun _ au32Key => mkEffect (Next a) [] au32Key.

Definition return_ {A} (code : Z) : M A :=
  fun _ au32Key => mkEffect (Return code) [] au32Key.

Definition fail {A} (e : abort) : M A :=
  fun _ au32Key => mkEffect (Abort e) [] au32Key.

Definition bind {A B} (m : M A) (k : A -> M B) : M B :=
  fun h au32Key =>
    match m h au32Key with
    | mkEffect (Next a) d1 b1 =>
        match k a (h ++ d1) b1 with
        | mkEffect r d2 b2 => mkEffect r (d1 ++ d2) b2
        end
    | mkEffect (Return c) d1 b1 => mkEffect (Return c) d1 b1
    | mkEffect (Abort e) d1 b1 => mkEffect (Abort e) d1 b1
    end.

Notation "x <- m ;; k" := (bind m (fun x => k))
  (at level 100, m at next level, right associativity).
Notation "m ;; k" := (bind m (fun _ => k))
  (at level 100, right associativity).

(** [if (c) return code;] *)
Definition return_if (c : bool) (code : Z) : M unit :=
  if c then return_ code else ret tt.

Definition lift {A} (o : option A) : M A :=
  match o with
  | Some a => ret a
  | None => fail OutOfBounds
  end.

(** [for (i = i0; ...; i++) body], [n] iterations. *)
Fixpoint for_loop (n : nat) (i : Z) (body : Z -> M unit) : M unit :=
  match n with
  | O => ret tt
  | S n' => body i ;; for_loop n' (i + 1) body
  end.

(** What a function call yields to its caller. *)
Inductive result : Type :=
| Done (code : Z)
| Crashed (e : abort).

Definition call (body : M Z) (h : list event) (au32Key : list Z)
  : Effect result :=
  match body h au32Key with
  | mkEffect (Next c) d b => mkEffect (Done c) d b
  | mkEffect (Return c) d b => mkEffect (Done c) d b
  | mkEffect (Abort e) d b => mkEffect (Crashed e) d b
  end.

(** Arrays: [a[i]] is undefined outside of [a]. *)
Definition array_get (a : list Z) (i : Z) : option Z :=
  if i <? 0 then None else a !! Z.to_nat i.

Definition bit_set (v mask : Z) : bool := negb (Z.land v mask =? 0).

(** ** The driver *)

Section Driver.
Context {cfg : Config}.
Variable hw : Hardware.

(** [KS->r] as an rvalue. *)
Definition rd (r : reg) : M Z :=
  fun h au32Key =>
    let v := u32 (hw h r) in mkEffect (Next v) [EvRead r v] au32Key.

(** [KS->r = v]. *)
Definition wr (r : reg) (v : Z) : M unit :=
  fun _ au32Key => mkEffect (Next tt) [EvWrite r v] au32Key.

(** [au32Key[i]] as an rvalue. *)
Definition load (i : Z) : M Z :=
  fun h au32Key => lift (array_get au32Key i) h au32Key.

(** [au32Key[i] = v]. *)
Definition store (i v : Z) : M unit :=
  fun _ au32Key =>
    if (0 <=? i) && (i <? Z.of_nat (length au32Key))
    then mkEffect (Next tt) [] (<[Z.to_nat i := v]> au32Key)
    else mkEffect (Abort OutOfBounds) [] au32Key.

(** [while (cond(KS->STS)) { if (--u32TimeOutCount == 0) return KS_ERR_TIMEOUT; }] *)
Fixpoint wait_while (fuel : nat) (cond : Z -> bool) (u32TimeOutCount : Z)
  : M unit :=
  match fuel with
  | O => fail OutOfFuel
  | S fuel' =>
      sts <- rd STS ;;
      if cond sts then
        let u32TimeOutCount := u32 (u32TimeOutCount - 1) in
        if u32TimeOutCount =? 0 then return_ KS_ERR_TIMEOUT
        else wait_while fuel' cond u32TimeOutCount
      else ret tt
  end.

(** The countdown reaches zero after [t] decrements, after [2^32] of them
    when it starts from zero. *)
Definition poll_budget (t : Z) : nat :=
  Z.to_nat (if t =? 0 then 2 ^ 32 else t).

(** [u32TimeOutCount = KS_TIMEOUT;] followed by the polling loop. *)
Definition wait_on (cond : Z -> bool) : M unit :=
  let u32TimeOutCount := u32 KS_TIMEOUT in
  wait_while (poll_budget u32TimeOutCount) cond u32TimeOutCount.

Definition is_busy (sts : Z) : bool := bit_set sts KS_STS_BUSY_Msk.
Definition init_pending (sts : Z) : bool := Z.land sts KS_STS_INITDONE_Msk =? 0.

Definition wait_busy : M unit := wait_on is_busy.

Definition KS_Open : M Z :=
  sts <- rd STS ;;
  (if Z.land sts KS_STS_INITDONE_Msk =? 0 then
     wait_busy ;;
     wr CTL (Z.lor KS_CTL_INIT_Msk KS_CTL_START_Msk) ;;
     wait_on init_pending
   else ret tt) ;;
  wait_busy ;;
  ret KS_OK.

(** Iterations of [do { ...; i32Cnt -= 8; } while (i32Cnt > 0);]. *)
Definition chunk_count (i32Cnt : Z) : Z :=
  let rest := s32 (i32Cnt - 8) in
  1 + (if rest >? 0 then (rest + 7) / 8 else 0).

Definition ctl_keep (ctl : Z) : Z :=
  Z.land ctl (Z.lor KS_CTL_SILENT_Msk KS_CTL_SCMB_Msk).

(** [for (i = 0; i < cnt; i++) au32Key[offset + i] = KS->KEY[i];] *)
Definition copy_out (offset cnt : Z) : M unit :=
  for_loop (Z.to_nat cnt) 0
    (fun i => v <- rd (KEY i) ;; store (s32 (offset + i)) v).

(** [for (i = 0; i < cnt; i++) KS->KEY[i] = au32Key[offset + i];] *)
Definition copy_in (offset cnt : Z) : M unit :=
  for_loop (Z.to_nat cnt) 0
    (fun i => v <- load (s32 (offset + i)) ;; wr (KEY i) v).

(** The body of the [do ... while] of [KS_Read], up to the copy. *)
Definition read_chunk (u32Cont i32Cnt offset : Z) : M unit :=
  wr STS (Z.lor KS_STS_EIF_Msk KS_STS_IF_Msk) ;;
  ctl <- rd CTL ;;
  wr CTL (Z.lor (Z.lor (Z.lor u32Cont KS_OP_READ) KS_CTL_START_Msk)
                (ctl_keep ctl)) ;;
  wait_busy ;;
  let cnt := if i32Cnt >? 8 then 8 else i32Cnt in
  copy_out offset cnt.

Fixpoint read_chunks (fuel : nat) (u32Cont i32Cnt offset : Z) : M unit :=
  match fuel with
  | O => fail OutOfFuel
  | S fuel' =>
      read_chunk u32Cont i32Cnt offset ;;
      let u32Cont := KS_CTL_CONT_Msk in
      let i32Cnt := s32 (i32Cnt - 8) in
      let offset := s32 (offset + 8) in
      if i32Cnt >? 0 then read_chunks fuel' u32Cont i32Cnt offset
      else ret tt
  end.

Definition KS_Read (eMemType i32KeyIdx u32WordCnt : Z) : M Z :=
  sts <- rd STS ;;
  return_if (is_busy sts) KS_ERR_BUSY ;;
  wr METADATA (Z.lor (shl32 eMemType KS_METADATA_DST_Pos)
                     (KS_TOMETAKEY i32KeyIdx)) ;;
  let i32Cnt := s32 u32WordCnt in
  read_chunks (Z.to_nat (chunk_count i32Cnt)) 0 i32Cnt 0 ;;
  sts <- rd STS ;;
  return_if (bit_set sts KS_STS_EIF_Msk) KS_ERR_FAIL ;;
  ret KS_OK.

Definition au8CntTbl : list Z :=
  [4; 6; 6; 7; 8; 8; 8; 9; 12; 13; 16; 17; 18; 0; 0; 0; 32; 48; 64; 96; 128].

Definition size_field (u32Meta : Z) : Z :=
  Z.shiftr (Z.land u32Meta KS_METADATA_SIZE_Msk) KS_METADATA_SIZE_Pos.

Definition KS_GetKeyWordCnt (u32Meta : Z) : option Z :=
  array_get au8CntTbl (size_field u32Meta).

(** The body of the [do ... while] of [KS_Write]; the loop variables are
    updated between the strobe and the wait, which neither reads them. *)
Definition write_chunk (u32Cont i32Cnt offset : Z) : M unit :=
  let cnt := if i32Cnt >? 8 then 8 else i32Cnt in
  copy_in offset cnt ;;
  wr STS (Z.lor KS_STS_EIF_Msk KS_STS_IF_Msk) ;;
  ctl <- rd CTL ;;
  wr CTL (Z.lor (Z.lor (Z.lor u32Cont KS_OP_WRITE) KS_CTL_START_Msk)
                (ctl_keep ctl)) ;;
  wait_busy.

Fixpoint write_chunks (fuel : nat) (u32Cont i32Cnt offset : Z) : M unit :=
  match fuel with
  | O => fail OutOfFuel
  | S fuel' =>
      write_chunk u32Cont i32Cnt offset ;;
      let u32Cont := KS_CTL_CONT_Msk in
      let i32Cnt := s32 (i32Cnt - 8) in
      let offset := s32 (offset + 8) in
      if i32Cnt >? 0 then write_chunks fuel' u32Cont i32Cnt offset
      else ret tt
  end.

Definition KS_Write (eMemType u32Meta : Z) : M Z :=
  sts <- rd STS ;;
  return_if (is_busy sts) KS_ERR_BUSY ;;
  wr METADATA (Z.lor (shl32 eMemType KS_METADATA_DST_Pos) u32Meta) ;;
  i32Cnt <- lift (KS_GetKeyWordCnt u32Meta) ;;
  return_if (i32Cnt =? 0) KS_ERR_PARAMETER ;;
  return_if ((eMemType =? KS_OTP) && (i32Cnt >? 8)) KS_ERR_PARAMETER ;;
  write_chunks (Z.to_nat (chunk_count i32Cnt)) 0 i32Cnt 0 ;;
  sts <- rd STS ;;
  return_if (bit_set sts KS_STS_EIF_Msk) KS_ERR_FAIL ;;
  meta <- rd METADATA ;;
  ret (s32 (KS_TOKEYIDX meta)).

Definition KS_EraseKey (i32KeyIdx : Z) : M Z :=
  sts <- rd STS ;;
  return_if (is_busy sts) KS_ERR_BUSY ;;
  wr METADATA (Z.lor (shl32 KS_SRAM KS_METADATA_DST_Pos)
                     (KS_TOMETAKEY i32KeyIdx)) ;;
  wr STS (Z.lor KS_STS_EIF_Msk KS_STS_IF_Msk) ;;
  ctl <- rd CTL ;;
  wr CTL (Z.lor (Z.lor KS_OP_ERASE KS_CTL_START_Msk) (ctl_keep ctl)) ;;
  wait_busy ;;
  sts <- rd STS ;;
  return_if (bit_set sts KS_STS_EIF_Msk) KS_ERR_FAIL ;;
  ret KS_OK.

Definition KS_EraseOTPKey (i32KeyIdx : Z) : M Z :=
  sts <- rd STS ;;
  return_if (is_busy sts) KS_ERR_BUSY ;;
  wr METADATA (Z.lor (shl32 KS_OTP KS_METADATA_DST_Pos)
                     (KS_TOMETAKEY i32KeyIdx)) ;;
  wr STS (Z.lor KS_STS_EIF_Msk KS_STS_IF_Msk) ;;
  wr CTL (Z.lor KS_OP_ERASE KS_CTL_START_Msk) ;;
  wait_busy ;;
  sts <- rd STS ;;
  return_if (bit_set sts KS_STS_EIF_Msk) KS_ERR_FAIL ;;
  ret KS_OK.

Definition KS_LockOTPKey (i32KeyIdx : Z) : M Z :=
  sts <- rd STS ;;
  return_if (is_busy sts) KS_ERR_BUSY ;;
  wr METADATA (Z.lor (shl32 KS_OTP KS_METADATA_DST_Pos)
                     (KS_TOMETAKEY i32KeyIdx)) ;;
  wr STS (Z.lor KS_STS_EIF_Msk KS_STS_IF_Msk) ;;
  wr CTL (Z.lor KS_OP_LOCK KS_CTL_START_Msk) ;;
  wait_busy ;;
  sts <- rd STS ;;
  return_if (bit_set sts KS_STS_EIF_Msk) KS_ERR_FAIL ;;
  ret KS_OK.

Definition KS_EraseAll (eMemType : Z) : M Z :=
  sts <- rd STS ;;
  return_if (is_busy sts) KS_ERR_BUSY ;;
  wr METADATA (shl32 eMemType KS_METADATA_DST_Pos) ;;
  wr STS (Z.lor KS_STS_EIF_Msk KS_STS_IF_Msk) ;;
  ctl <- rd CTL ;;
  wr CTL (Z.lor (Z.lor KS_OP_ERASE_ALL KS_CTL_START_Msk) (ctl_keep ctl)) ;;
  wait_busy ;;
  sts <- rd STS ;;
  return_if (bit_set sts KS_STS_EIF_Msk) KS_ERR_FAIL ;;
  ret KS_OK.

Definition KS_RevokeKey (eMemType i32KeyIdx : Z) : M Z :=
  sts <- rd STS ;;
  return_if (is_busy sts) KS_ERR_BUSY ;;
  wr METADATA (Z.lor (shl32 eMemType KS_METADATA_DST_Pos)
                     (KS_TOMETAKEY i32KeyIdx)) ;;
  wr STS (Z.lor KS_STS_EIF_Msk KS_STS_IF_Msk) ;;
  ctl <- rd CTL ;;
  wr CTL (Z.lor (Z.lor KS_OP_REVOKE KS_CTL_START_Msk) (ctl_keep ctl)) ;;
  wait_busy ;;
  sts <- rd STS ;;
  return_if (bit_set sts KS_STS_EIF_Msk) KS_ERR_FAIL ;;
  ret KS_OK.

Definition au8CntTblOTP : list Z := [4; 6; 6; 7; 8; 8; 8].

Definition KS_WriteOTP (i32KeyIdx u32Meta : Z) : M Z :=
  sts <- rd STS ;;
  return_if (is_busy sts) KS_ERR_BUSY ;;
  wr METADATA (Z.lor (Z.lor (shl32 KS_OTP KS_METADATA_DST_Pos) u32Meta)
                     (KS_TOMETAKEY i32KeyIdx)) ;;
  let sidx := s32 (size_field u32Meta) in
  return_if (sidx >? Z.shiftr KS_META_256 KS_METADATA_SIZE_Pos)
            KS_ERR_PARAMETER ;;
  i32Cnt <- lift (array_get au8CntTblOTP sidx) ;;
  let offset := 0 in
  let cnt := i32Cnt in
  copy_in offset cnt ;;
  wr STS (Z.lor KS_STS_EIF_Msk KS_STS_IF_Msk) ;;
  ctl <- rd CTL ;;
  wr CTL (Z.lor (Z.lor KS_OP_WRITE KS_CTL_START_Msk) (ctl_keep ctl)) ;;
  wait_busy ;;
  sts <- rd STS ;;
  return_if (bit_set sts KS_STS_EIF_Msk) KS_ERR_FAIL ;;
  ret i32KeyIdx.

Definition KS_ToggleSRAM : M Z :=
  sts <- rd STS ;;
  return_if (is_busy sts) KS_ERR_BUSY ;;
  wr METADATA (shl32 KS_SRAM KS_METADATA_DST_Pos) ;;
  wr STS (Z.lor KS_STS_EIF_Msk KS_STS_IF_Msk) ;;
  ctl <- rd CTL ;;
  wr CTL (Z.lor (Z.lor KS_OP_REMAN KS_CTL_START_Msk) (ctl_keep ctl)) ;;
  wait_busy ;;
  sts <- rd STS ;;
  return_if (bit_set sts KS_STS_EIF_Msk) KS_ERR_FAIL ;;
  sts <- rd STS ;;
  ret (if Z.land sts KS_STS_RAMINV_Msk >? 0 then 1 else 0).

End Driver.

Arguments wait_on : simpl never.
Arguments wait_busy : simpl never.
Arguments is_busy : simpl never.
Arguments bit_set : simpl never.
Arguments u32 : simpl never.
Arguments s32 : simpl never.
Arguments shl32 : simpl never.
Arguments KS_GetKeyWordCnt : simpl never.
Arguments size_field : simpl never.
Arguments copy_in : simpl never.
Arguments copy_out : simpl never.
Arguments read_chunk : simpl never.
Arguments write_chunk : simpl never.

(** ** The operations as one family *)

Inductive ks_op : Type :=
| Op_Open
| Op_Read (eMemType i32KeyIdx u32WordCnt : Z)
| Op_Write (eMemType u32Meta : Z)
| Op_EraseKey (i32KeyIdx : Z)
| Op_EraseOTPKey (i32KeyIdx : Z)
| Op_LockOTPKey (i32KeyIdx : Z)
| Op_EraseAll (eMemType : Z)
| Op_RevokeKey (eMemType i32KeyIdx : Z)
| Op_WriteOTP (i32KeyIdx u32Meta : Z)
| Op_ToggleSRAM.

Definition body {cfg : Config} (hw : Hardware) (op : ks_op) : M Z :=
  match op with
  | Op_Open => KS_Open hw
  | Op_Read eMemType i32KeyIdx u32WordCnt =>
      KS_Read hw eMemType i32KeyIdx u32WordCnt
  | Op_Write eMemType u32Meta => KS_Write hw eMemType u32Meta
  | Op_EraseKey i32KeyIdx => KS_EraseKey hw i32KeyIdx
  | Op_EraseOTPKey i32KeyIdx => KS_EraseOTPKey hw i32KeyIdx
  | Op_LockOTPKey i32KeyIdx => KS_LockOTPKey hw i32KeyIdx
  | Op_EraseAll eMemType => KS_EraseAll hw eMemType
  | Op_RevokeKey eMemType i32KeyIdx => KS_RevokeKey hw eMemType i32KeyIdx
  | Op_WriteOTP i32KeyIdx u32Meta => KS_WriteOTP hw i32KeyIdx u32Meta
  | Op_ToggleSRAM => KS_ToggleSRAM hw
  end.

(** The operations that start with the busy check, that is all but
    [KS_Open]. *)
Definition checks_busy (op : ks_op) : bool :=
  match op with
  | Op_Open => false
  | _ => true
  end.

(** ** Reasoning about runs

    [wp m h b Q]: running [m] after history [h] on buffer [b] ends in an
    outcome, a list of new events and a buffer that satisfy [Q]. *)
Definition wp {A} (m : M A) (h : list event) (b : list Z)
           (Q : outcome A -> list event -> list Z -> Prop) : Prop :=
  match m h b with
  | mkEffect r d b' => Q r d b'
  end.

Definition to_result (r : outcome Z) : result :=
  match r with
  | Next c => Done c
  | Return c => Done c
  | Abort e => Crashed e
  end.

(** ** Observations on histories *)

(** The status register as the driver reads it after history [h]. *)
Definition sts_after (hw : Hardware) (h : list event) : Z := u32 (hw h STS).

(** The status values [vs] are what successive polls return after [h]. *)
Fixpoint polled (hw : Hardware) (h : list event) (vs : list Z) : Prop :=
  match vs with
  | [] => True
  | v :: vs' => v = sts_after hw h /\ polled hw (h ++ [EvRead STS v]) vs'
  end.

(** The two ways a polling loop with a budget of [n] polls ends. *)
Inductive wait_outcome {cfg : Config} (hw : Hardware) (cond : Z -> bool)
          (n : nat) (h : list event) (b : list Z)
  : Effect (outcome unit) -> Prop :=
| wait_cleared vs v :
    Forall (fun x => cond x = true) vs -> cond v = false ->
    (length vs < n)%nat -> polled hw h (vs ++ [v]) ->
    wait_outcome hw cond n h b
      (mkEffect (Next tt) (map (EvRead STS) (vs ++ [v])) b)
| wait_expired vs :
    Forall (fun x => cond x = true) vs -> length vs = n -> polled hw h vs ->
    wait_outcome hw cond n h b
      (mkEffect (Return KS_ERR_TIMEOUT) (map (EvRead STS) vs) b).

(** Number of reads of the status register. *)
Fixpoint polls (d : list event) : nat :=
  match d with
  | [] => 0
  | EvRead STS _ :: d' => S (polls d')
  | _ :: d' => polls d'
  end.

(** The values written to the control register, oldest first. *)
Fixpoint ctl_writes (d : list event) : list Z :=
  match d with
  | [] => []
  | EvWrite CTL v :: d' => v :: ctl_writes d'
  | _ :: d' => ctl_writes d'
  end.

(** The reads of the key window from index [i] on that return [ws]. *)
Fixpoint key_reads (i : Z) (ws : list Z) : list event :=
  match ws with
  | [] => []
  | w :: ws' => EvRead (KEY i) w :: key_reads (i + 1) ws'
  end.

(** What [n] successive reads of the key window return, from index [i] on
    and after history [h]. *)
Fixpoint window (hw : Hardware) (h : list event) (i : Z) (n : nat) : list Z :=
  match n with
  | O => []
  | S n' =>
      let v := u32 (hw h (KEY i)) in
      v :: window hw (h ++ [EvRead (KEY i) v]) (i + 1) n'
  end.

(** The number of consecutive reads of the status register at the end of a
    history. *)
Fixpoint leading_polls (d : list event) : nat :=
  match d with
  | EvRead STS _ :: d' => S (leading_polls d')
  | _ => 0
  end.

Definition trailing_polls (d : list event) : nat := leading_polls (rev d).

(** The value [v] written to the control register has the silent and
    scramble bits of the value [c] read from it. *)
Definition same_modes {cfg : Config} (c v : Z) : Prop :=
  Z.land v KS_CTL_SILENT_Msk = Z.land c KS_CTL_SILENT_Msk /\
  Z.land v KS_CTL_SCMB_Msk = Z.land c KS_CTL_SCMB_Msk.

(** Every write of the control register comes right after a read of it and
    has the mode bits of the value read.  [prev] is the value read by the
    event just before [d], when that event is a read of the control
    register. *)
Fixpoint modes_kept_from {cfg : Config} (prev : option Z) (d : list event)
  : Prop :=
  match d with
  | [] => True
  | EvRead CTL c :: d' => modes_kept_from (Some c) d'
  | EvWrite CTL v :: d' =>
      match prev with
      | Some c => same_modes c v
      | None => False
      end /\ modes_kept_from None d'
  | _ :: d' => modes_kept_from None d'
  end.

Definition modes_kept {cfg : Config} (d : list event) : Prop :=
  modes_kept_from None d.

Definition Kept {cfg : Config} {A} (m : M A) : Prop :=
  forall h b, wp m h b (fun _ d _ => modes_kept d).

(** The operations whose command strobe carries the mode bits over. *)
Definition preserves_modes (op : ks_op) : bool :=
  match op with
  | Op_Open | Op_EraseOTPKey _ | Op_LockOTPKey _ => false
  | _ => true
  end.

(** The start and continue bits and the opcodes lie outside of the mode
    bits. *)
Definition ctl_layout {cfg : Config} : Prop :=
  Forall (fun x => ctl_keep x = 0)
         [KS_CTL_START_Msk; KS_CTL_CONT_Msk; KS_OP_READ; KS_OP_WRITE;
          KS_OP_ERASE; KS_OP_ERASE_ALL; KS_OP_REVOKE; KS_OP_REMAN].

(** The reads of the key window in [d], oldest first, each with the number
    of writes of the control register made before it (counted from [k]),
    the index in the window and the value read. *)
Fixpoint window_reads (k : nat) (d : list event) : list (nat * Z * Z) :=
  match d with
  | [] => []
  | EvWrite CTL _ :: d' => window_reads (S k) d'
  | EvRead (KEY i) v :: d' => (k, i, v) :: window_reads k d'
  | _ :: d' => window_reads k d'
  end.

(** The words [ws] as read from the key window from index [i] on, after
    [k] writes of the control register. *)
Fixpoint tagged (k : nat) (i : Z) (ws : list Z) : list (nat * Z * Z) :=
  match ws with
  | [] => []
  | w :: ws' => (k, i, w) :: tagged k (i + 1) ws'
  end.

(** What the loop of [KS_Read] does when every wait ends in time, started
    with [u32Cont], [i32Cnt] and [offset] on buffer [b] after [k] writes of
    the control register: it completes; it writes the control register once
    for each chunk, the continue bit being that of [u32Cont] in the first
    write and set in the others; the [j]-th word it reads comes from index
    [j mod 8] of the key window, after [j / 8 + 1] writes of the control
    register; and the words read replace those of [b] from [offset] on. *)
Definition read_run {cfg : Config} (k : nat) (u32Cont i32Cnt offset : Z)
           (b : list Z) : outcome unit -> list event -> list Z -> Prop :=
  fun r d b' =>
    r = Next tt /\
    length (ctl_writes d) = Z.to_nat (chunk_count i32Cnt) /\
    (exists first rest,
        ctl_writes d = first :: rest /\
        Z.land first KS_CTL_CONT_Msk = Z.land u32Cont KS_CTL_CONT_Msk /\
        Forall (fun v => Z.land v KS_CTL_CONT_Msk = KS_CTL_CONT_Msk) rest) /\
    map fst (window_reads k d)
      = map (fun j => ((S k + Z.to_nat (j / 8))%nat, j mod 8)) (seqZ 0 i32Cnt) /\
    b' = take (Z.to_nat offset) b ++ map snd (window_reads k d)
           ++ drop (Z.to_nat (offset + i32Cnt)) b.

(** The opcode of a read, the start bit and the mode bits lie outside of
    the continue bit. *)
Definition read_layout {cfg : Config} : Prop :=
  Z.land (Z.lor (Z.lor KS_OP_READ KS_CTL_START_Msk)
                (Z.lor KS_CTL_SILENT_Msk KS_CTL_SCMB_Msk))
         KS_CTL_CONT_Msk = 0.

(** The run did not exhaust a loop bound and polled the status register at
    most [bound] times. *)
Definition quiet {A} (bound : nat)
  : outcome A -> list event -> list Z -> Prop :=
  fun r d _ => r <> Abort OutOfFuel /\ (polls d <= bound)%nat.

Definition Quiet {A} (m : M A) (n : nat) : Prop :=
  forall h b, wp m h b (quiet n).

(** The key words written to the key window from index [i] on. *)
Fixpoint key_writes (i : Z) (ws : list Z) : list event :=
  match ws with
  | [] => []
  | w :: ws' => EvWrite (KEY i) w :: key_writes (i + 1) ws'
  end.

(** The number of polling loops that [op] runs at most: three in
    [KS_Open], one for each chunk in [KS_Read] and [KS_Write], one in the
    other operations. *)
Definition waits {cfg : Config} (op : ks_op) : Z :=
  match op with
  | Op_Open => 3
  | Op_Read _ _ u32WordCnt => chunk_count (s32 u32WordCnt)
  | Op_Write _ u32Meta =>
      match KS_GetKeyWordCnt u32Meta with
      | Some w => chunk_count w
      | None => 0
      end
  | _ => 1
  end.

(** The documented word count of each size-class code: 4, 6, 6, 7, 8, 8, 8,
    9, 12, 13, 16, 17 and 18 words for codes 0 to 12, 32, 48, 64, 96 and 128
    words for codes 16 to 20, and 0 for the reserved codes in between. *)
Definition documented_word_count (code : Z) : Z :=
  match code with
  | 0 => 4 | 1 => 6 | 2 => 6 | 3 => 7 | 4 => 8 | 5 => 8 | 6 => 8
  | 7 => 9 | 8 => 12 | 9 => 13 | 10 => 16 | 11 => 17 | 12 => 18
  | 16 => 32 | 17 => 48 | 18 => 64 | 19 => 96 | 20 => 128
  | _ => 0
  end.

(** ** A register header

    An instance of the header, with one bit per flag, a five-bit size field
    in the metadata word and a time-out of 220 000 000 polls.  It serves to
    run the driver on concrete inputs; no property below depends on it. *)

Definition ks_header : Config := {|
  KS_TIMEOUT := 220000000;
  KS_OK := 0;
  KS_ERR_FAIL := -1;
  KS_ERR_TIMEOUT := -2;
  KS_ERR_BUSY := -4;
  KS_ERR_PARAMETER := -5;
  KS_STS_IF_Msk := 1;
  KS_STS_EIF_Msk := 2;
  KS_STS_BUSY_Msk := 4;
  KS_STS_INITDONE_Msk := 128;
  KS_STS_RAMINV_Msk := 256;
  KS_CTL_START_Msk := 1;
  KS_CTL_CONT_Msk := 128;
  KS_CTL_INIT_Msk := 256;
  KS_CTL_SILENT_Msk := 1024;
  KS_CTL_SCMB_Msk := 2048;
  KS_OP_READ := 0;
  KS_OP_WRITE := 2;
  KS_OP_ERASE := 4;
  KS_OP_ERASE_ALL := 6;
  KS_OP_REVOKE := 8;
  KS_OP_REMAN := 10;
  KS_OP_LOCK := 14;
  KS_METADATA_DST_Pos := 30;
  KS_METADATA_SIZE_Pos := 8;
  KS_METADATA_SIZE_Msk := 7936;
  KS_META_256 := 1536;
  KS_TOMETAKEY := fun x => Z.land (Z.shiftl (u32 x) 20) 66060288;
  KS_TOKEYIDX := fun x => Z.shiftr (Z.land x 66060288) 20;
  KS_SRAM := 0;
  KS_FLASH := 1;
  KS_OTP := 2
|}.

(** Controllers to run the driver against.  [hw_idle] is initialised, never
    busy and never reports an error; its key window holds [100 + i] at
    [KEY i] plus the number of accesses made so far. *)
Definition hw_idle : Hardware :=
  fun h r =>
    match r with
    | STS => 128
    | KEY i => 100 + i + Z.of_nat (length h)
    | _ => 0
    end.

(** Busy during the first three accesses of a history, idle afterwards. *)
Definition hw_busy_then_idle : Hardware :=
  fun h r =>
    match r with
    | STS => if (length h <? 3)%nat then 132 else 128
    | _ => 0
    end.

(** Idle when the operation begins and busy from the first access on. *)
Definition hw_stuck : Hardware :=
  fun h r =>
    match r with
    | STS => match h with [] => 128 | _ => 134 end
    | _ => 0
    end.

(** Never busy, with both mode bits of the control register set;
    initialisation is done once the control register has been written. *)
Definition hw_modes : Hardware :=
  fun h r =>
    match r with
    | STS => match ctl_writes h with [] => 0 | _ => 128 end
    | CTL => 3072
    | _ => 0
    end.

(** Never busy, with the error flag and both mode bits of the control
    register set. *)
Definition hw_error : Hardware :=
  fun h r =>
    match r with
    | STS => 130
    | CTL => 3072
    | _ => 0
    end.

(** Idle and without error until a command is started.  From then on the
    error flag is latched, and the controller is busy for the first two of
    any run of polls.  The key window is that of [hw_idle]. *)
Definition hw_faulty : Hardware :=
  fun h r =>
    match r with
    | STS =>
        match ctl_writes h with
        | [] => 128
        | _ => if (trailing_polls h <? 2)%nat then 134 else 130
        end
    | KEY i => 100 + i + Z.of_nat (length h)
    | _ => 0
    end.

(** ** The capacity counters

    [KS_GetRemainSize] and [KS_GetRemainKeyCount] read one of two further
    registers of the controller and start no command.  Their fields come
    from the register header as well. *)

Inductive counter : Type :=
| REMAIN
| REMKCNT.

Class Counters := {
  KS_REMAIN_RRMNG_Msk : Z;
  KS_REMAIN_RRMNG_Pos : Z;
  KS_REMAIN_FRMNG_Msk : Z;
  KS_REMAIN_FRMNG_Pos : Z;
  KS_REMKCNT_RRMKCNT_Msk : Z;
  KS_REMKCNT_RRMKCNT_Pos : Z;
  KS_REMKCNT_FRMKCNT_Msk : Z;
  KS_REMKCNT_FRMKCNT_Pos : Z
}.

Section Capacity.
Context {cfg : Config} {cnt : Counters}.

(** What the two registers hold. *)
Variable ks : counter -> Z.

(** [(KS->r & msk) >> pos] *)
Definition field (r : counter) (msk pos : Z) : Z :=
  Z.shiftr (Z.land (u32 (ks r)) msk) pos.

(** Each function yields the value it returns and the registers it read,
    oldest first. *)
Definition KS_GetRemainSize (eMemType : Z) : Z * list counter :=
  if eMemType =? KS_SRAM then
    (field REMAIN KS_REMAIN_RRMNG_Msk KS_REMAIN_RRMNG_Pos, [REMAIN])
  else if eMemType =? KS_FLASH then
    (field REMAIN KS_REMAIN_FRMNG_Msk KS_REMAIN_FRMNG_Pos, [REMAIN])
  else
    (u32 KS_ERR_PARAMETER, []).

Definition KS_GetRemainKeyCount (eMemType : Z) : Z * list counter :=
  if eMemType =? KS_SRAM then
    (field REMKCNT KS_REMKCNT_RRMKCNT_Msk KS_REMKCNT_RRMKCNT_Pos, [REMKCNT])
  else if eMemType =? KS_FLASH then
    (field REMKCNT KS_REMKCNT_FRMKCNT_Msk KS_REMKCNT_FRMKCNT_Pos, [REMKCNT])
  else
    (u32 KS_ERR_PARAMETER, []).

End Capacity.

(** ** Further observations *)

(** [m] leaves the caller's buffer as it found it. *)
Definition Frame {A} (m : M A) : Prop :=
  forall h b, wp m h b (fun _ _ b' => b' = b).

(** Every code that [m] returns early satisfies [P]. *)
Definition Early {A} (P : Z -> Prop) (m : M A) : Prop :=
  forall h b,
    wp m h b (fun r _ _ => match r with Return c => P c | _ => True end).

(** Every code that the function body [m] returns satisfies [P]. *)
Definition Yields (P : Z -> Prop) (m : M Z) : Prop :=
  forall h b,
    wp m h b (fun r _ _ =>
                match r with Next c | Return c => P c | Abort _ => True end).

(** The operations that move no key word into the caller's buffer, that is
    all but [KS_Read]. *)
Definition keeps_buffer (op : ks_op) : bool :=
  match op with
  | Op_Read _ _ _ => false
  | _ => true
  end.

(** The codes that each operation can return. *)
Definition may_return {cfg : Config} (op : ks_op) (c : Z) : Prop :=
  match op with
  | Op_Open => In c [KS_ERR_TIMEOUT; KS_OK]
  | Op_Write _ _ =>
      In c [KS_ERR_BUSY; KS_ERR_PARAMETER; KS_ERR_TIMEOUT; KS_ERR_FAIL] \/
      exists meta, c = s32 (KS_TOKEYIDX meta)
  | Op_WriteOTP i32KeyIdx _ =>
      In c [KS_ERR_BUSY; KS_ERR_PARAMETER; KS_ERR_TIMEOUT; KS_ERR_FAIL;
            i32KeyIdx]
  | Op_ToggleSRAM => In c [KS_ERR_BUSY; KS_ERR_TIMEOUT; KS_ERR_FAIL; 0; 1]
  | _ => In c [KS_ERR_BUSY; KS_ERR_TIMEOUT; KS_ERR_FAIL; KS_OK]
  end.

(** ** Disciplines on the register accesses

    A discipline follows a state along a trace ([track]) and says which
    accesses it accepts in which state ([allow]). *)
Record discipline (S : Type) : Type := mkDiscipline {
  track : S -> event -> S;
  allow : S -> event -> Prop
}.

Arguments mkDiscipline {S} track allow.
Arguments track {S} D s e : rename.
Arguments allow {S} D s e : rename.

(** The state after the trace [d], started in [s]. *)
Definition run {S} (D : discipline S) (s : S) (d : list event) : S :=
  fold_left (track D) d s.

(** Every access of [d] is accepted in the state in which it comes. *)
Fixpoint obeys {S} (D : discipline S) (s : S) (d : list event) : Prop :=
  match d with
  | [] => True
  | e :: d' => allow D s e /\ obeys D (track D s e) d'
  end.

(** Running [m] from state [s]: its trace obeys [D], and its outcome and
    the state it leaves satisfy [Q]. *)
Definition wpo {S A} (D : discipline S) (m : M A) (h : list event)
           (b : list Z) (s : S) (Q : outcome A -> S -> Prop) : Prop :=
  wp m h b (fun r d _ => obeys D s d /\ Q r (run D s d)).

(** A command is started only when the controller was seen idle: the state
    says whether the status register was read since the last write of the
    control register, the latest of these reads showing the busy flag
    clear. *)
Definition idle_track {cfg : Config} (idle : bool) (e : event) : bool :=
  match e with
  | EvRead STS v => negb (is_busy v)
  | EvWrite CTL _ => false
  | _ => idle
  end.

Definition idle_allow (idle : bool) (e : event) : Prop :=
  match e with
  | EvWrite CTL _ => idle = true
  | _ => True
  end.

Definition idle_discipline {cfg : Config} : discipline bool :=
  mkDiscipline idle_track idle_allow.

Definition seen_idle {cfg : Config} (d : list event) : bool :=
  fold_left idle_track d false.

(** The flags are cleared right before a command is started: the state
    says whether the status register was written and nothing but reads of
    the control register came since; the status register is written with
    the error and completion flags only. *)
Definition clear_track (cleared : bool) (e : event) : bool :=
  match e with
  | EvWrite STS _ => true
  | EvRead CTL _ => cleared
  | _ => false
  end.

Definition clear_allow {cfg : Config} (cleared : bool) (e : event) : Prop :=
  match e with
  | EvWrite STS v => v = Z.lor KS_STS_EIF_Msk KS_STS_IF_Msk
  | EvWrite CTL _ => cleared = true
  | _ => True
  end.

Definition clear_discipline {cfg : Config} : discipline bool :=
  mkDiscipline clear_track clear_allow.

Definition just_cleared (d : list event) : bool :=
  fold_left clear_track d false.

(** The metadata register is the first register written, and it is written
    once: the state says whether a register was written. *)
Definition address_track (written : bool) (e : event) : bool :=
  match e with
  | EvWrite _ _ => true
  | EvRead _ _ => written
  end.

Definition address_allow (written : bool) (e : event) : Prop :=
  match e with
  | EvWrite METADATA _ => written = false
  | EvWrite _ _ => written = true
  | EvRead _ _ => True
  end.

Definition address_discipline : discipline bool :=
  mkDiscipline address_track address_allow.

Definition written (d : list event) : bool :=
  fold_left address_track d false.

(** The key buffer [b] holds the words that [op] moves: the word count of
    a read, without the counts that overflow the loop counter; the word
    count of the size class in a write that passes the parameter checks, the
    size class being one of the table. *)
Definition holds_key {cfg : Config} (op : ks_op) (b : list Z) : Prop :=
  match op with
  | Op_Read _ _ u32WordCnt =>
      - 2 ^ 31 + 8 <= s32 u32WordCnt <= Z.of_nat (length b)
  | Op_Write eMemType u32Meta =>
      exists w, KS_GetKeyWordCnt u32Meta = Some w /\
                (w = 0 \/ (eMemType = KS_OTP /\ 8 < w) \/
                 w <= Z.of_nat (length b))
  | Op_WriteOTP _ u32Meta =>
      Z.shiftr KS_META_256 KS_METADATA_SIZE_Pos < s32 (size_field u32Meta) \/
      exists w, array_get au8CntTblOTP (s32 (size_field u32Meta)) = Some w /\
                w <= Z.of_nat (length b)
  | _ => True
  end.

(** ** Commands of a single transaction *)

(** How a command that was started ends, [d] being the accesses made after
    the write of the control register and [c] the code returned: either
    every poll of the time-out budget shows the busy flag set and the code is
    [KS_ERR_TIMEOUT]; or a poll shows the flag clear, the status register is
    read once more, and the code is [KS_ERR_FAIL] when that read shows the
    error flag and [ok] when it does not. *)
Inductive completion {cfg : Config} (ok : Z) : list event -> Z -> Prop :=
| completion_expired vs :
    Forall (fun x => is_busy x = true) vs ->
    length vs = poll_budget (u32 KS_TIMEOUT) ->
    completion ok (map (EvRead STS) vs) KS_ERR_TIMEOUT
| completion_checked vs v s :
    Forall (fun x => is_busy x = true) vs -> is_busy v = false ->
    (length vs < poll_budget (u32 KS_TIMEOUT))%nat ->
    completion ok (map (EvRead STS) (vs ++ [v]) ++ [EvRead STS s])
               (if bit_set s KS_STS_EIF_Msk then KS_ERR_FAIL else ok).

(** The commands that move no key word: the metadata word that addresses
    the key or the memory, the command word, and whether the mode bits of
    the control register are carried over into the command. *)
Definition single_shot {cfg : Config} (op : ks_op) : option (Z * Z * bool) :=
  match op with
  | Op_EraseKey i32KeyIdx =>
      Some (Z.lor (shl32 KS_SRAM KS_METADATA_DST_Pos) (KS_TOMETAKEY i32KeyIdx),
            Z.lor KS_OP_ERASE KS_CTL_START_Msk, true)
  | Op_EraseOTPKey i32KeyIdx =>
      Some (Z.lor (shl32 KS_OTP KS_METADATA_DST_Pos) (KS_TOMETAKEY i32KeyIdx),
            Z.lor KS_OP_ERASE KS_CTL_START_Msk, false)
  | Op_LockOTPKey i32KeyIdx =>
      Some (Z.lor (shl32 KS_OTP KS_METADATA_DST_Pos) (KS_TOMETAKEY i32KeyIdx),
            Z.lor KS_OP_LOCK KS_CTL_START_Msk, false)
  | Op_EraseAll eMemType =>
      Some (shl32 eMemType KS_METADATA_DST_Pos,
            Z.lor KS_OP_ERASE_ALL KS_CTL_START_Msk, true)
  | Op_RevokeKey eMemType i32KeyIdx =>
      Some (Z.lor (shl32 eMemType KS_METADATA_DST_Pos) (KS_TOMETAKEY i32KeyIdx),
            Z.lor KS_OP_REVOKE KS_CTL_START_Msk, true)
  | _ => None
  end.

(** The accesses that start a command with command word [cmd], the control
    register holding [ctl]. *)
Definition strobe {cfg : Config} (keep : bool) (cmd ctl : Z) : list event :=
  if keep then [EvRead CTL ctl; EvWrite CTL (Z.lor cmd (ctl_keep ctl))]
  else [EvWrite CTL cmd].

(** ** Chunked writes *)

(** The writes of the key window in [d], oldest first, each with the number
    of writes of the control register made before it (counted from [k]),
    the index in the window and the value written. *)
Fixpoint window_writes (k : nat) (d : list event) : list (nat * Z * Z) :=
  match d with
  | [] => []
  | EvWrite CTL _ :: d' => window_writes (S k) d'
  | EvWrite (KEY i) v :: d' => (k, i, v) :: window_writes k d'
  | _ :: d' => window_writes k d'
  end.

(** The opcode of a write, the start bit and the mode bits lie outside of
    the continue bit. *)
Definition write_layout {cfg : Config} : Prop :=
  Z.land (Z.lor (Z.lor KS_OP_WRITE KS_CTL_START_Msk)
                (Z.lor KS_CTL_SILENT_Msk KS_CTL_SCMB_Msk))
         KS_CTL_CONT_Msk = 0.

(** An instance of the fields of the capacity counters: thirteen and
    twelve bits of remaining size, six bits of remaining key count for each
    of the two memories.  It serves to run the two functions on concrete
    inputs; no property below depends on it. *)
Definition ks_counters : Counters := {|
  KS_REMAIN_RRMNG_Msk := 8191;
  KS_REMAIN_RRMNG_Pos := 0;
  KS_REMAIN_FRMNG_Msk := 268369920;
  KS_REMAIN_FRMNG_Pos := 16;
  KS_REMKCNT_RRMKCNT_Msk := 63;
  KS_REMKCNT_RRMKCNT_Pos := 0;
  KS_REMKCNT_FRMKCNT_Msk := 4128768;
  KS_REMKCNT_FRMKCNT_Pos := 16
|}.

(** Counters to run the two functions against. *)
Definition ks_counts (r : counter) : Z :=
  match r with
  | REMAIN => 65536 * 1000 + 512
  | REMKCNT => 65536 * 20 + 7
  end.

(** ** Waits that cannot end *)







(** The copy loops write no control register, read no status register and
    return no code. *)
Definition silent {A} : outcome A -> list event -> list Z -> Prop :=
  fun r d _ => ctl_writes d = [] /\ polls d = 0%nat /\ forall c, r <> Return c.



(** ** Commands seen to complete *)

(** No prefix of [d] ends with the last of [N] commands seen to complete;
    [k] commands were started before [d], and [i] tells whether the latest
    of them was seen to complete. *)
Definition unfinished {cfg : Config} (N k : nat) (i : bool) (d : list event)
  : Prop :=
  forall d1 d2,
    d = d1 ++ d2 ->
    ~ ((k + length (ctl_writes d1))%nat = N /\ fold_left idle_track d1 i = true).

(** How a run of an operation with [N] commands ends: with an access
    outside of the key buffer; or without its last command seen to complete;
    or with a read of the status register once the last command was seen to
    complete, the code being [KS_ERR_FAIL] if that read shows the error
    flag. *)
Definition checked {cfg : Config} (N : nat)
  : outcome Z -> list event -> list Z -> Prop :=
  fun r d _ =>
    (exists e, r = Abort e) \/
    unfinished N 0 false d \/
    (exists pre s rest,
        d = pre ++ EvRead STS s :: rest /\
        length (ctl_writes pre) = N /\ seen_idle pre = true /\
        (bit_set s KS_STS_EIF_Msk = true -> to_result r = Done KS_ERR_FAIL)).

(** How the chunk loops end, [n] chunks being left. *)
Definition chunks_end {cfg : Config} (N k : nat) (i : bool) (n : nat)
  : outcome unit -> list event -> list Z -> Prop :=
  fun r d _ =>
    match r with
    | Next _ =>
        length (ctl_writes d) = n /\
        forall s, fold_left idle_track d s = true
    | Return _ => unfinished N k i d
    | Abort _ => True
    end.

(** ** Further controllers *)

(** The header of [ks_header] with a time-out of three polls, to run the
    waits that time out. *)
Definition ks_header_short : Config := {|
  KS_TIMEOUT := 3;
  KS_OK := 0;
  KS_ERR_FAIL := -1;
  KS_ERR_TIMEOUT := -2;
  KS_ERR_BUSY := -4;
  KS_ERR_PARAMETER := -5;
  KS_STS_IF_Msk := 1;
  KS_STS_EIF_Msk := 2;
  KS_STS_BUSY_Msk := 4;
  KS_STS_INITDONE_Msk := 128;
  KS_STS_RAMINV_Msk := 256;
  KS_CTL_START_Msk := 1;
  KS_CTL_CONT_Msk := 128;
  KS_CTL_INIT_Msk := 256;
  KS_CTL_SILENT_Msk := 1024;
  KS_CTL_SCMB_Msk := 2048;
  KS_OP_READ := 0;
  KS_OP_WRITE := 2;
  KS_OP_ERASE := 4;
  KS_OP_ERASE_ALL := 6;
  KS_OP_REVOKE := 8;
  KS_OP_REMAN := 10;
  KS_OP_LOCK := 14;
  KS_METADATA_DST_Pos := 30;
  KS_METADATA_SIZE_Pos := 8;
  KS_METADATA_SIZE_Msk := 7936;
  KS_META_256 := 1536;
  KS_TOMETAKEY := fun x => Z.land (Z.shiftl (u32 x) 20) 66060288;
  KS_TOKEYIDX := fun x => Z.shiftr (Z.land x 66060288) 20;
  KS_SRAM := 0;
  KS_FLASH := 1;
  KS_OTP := 2
|}.

(** Not initialised, idle and without error until the control register has
    been written [n] times; from then on the status register reads [stuck]
    for ever.  The key window holds [100 + i] at [KEY i]. *)
Definition hw_hangs (n : nat) (stuck : Z) : Hardware :=
  fun h r =>
    match r with
    | STS => if (length (ctl_writes h) <? n)%nat then 0 else stuck
    | KEY i => 100 + i
    | _ => 0
    end.

(** Since its latest write of the control register, the number of times the
    status register was read; [None] before the first write. *)
Definition polls_since_strobe (h : list event) : option nat :=
  fold_left (fun st e =>
               match e with
               | EvWrite CTL _ => Some 0%nat
               | EvRead STS _ => option_map S st
               | _ => st
               end) h None.

(** Idle and without error until a command is started.  Every command
    keeps the controller busy for two polls and then fails: the error flag
    comes up when the busy flag clears.  The key window is that of
    [hw_idle]. *)
Definition hw_failing : Hardware :=
  fun h r =>
    match r with
    | STS =>
        match polls_since_strobe h with
        | None => 128
        | Some k => if (k <? 2)%nat then 132 else 130
        end
    | KEY i => 100 + i + Z.of_nat (length h)
    | _ => 0
    end.

(** * Properties *)

(** ** Arithmetic facts *)

Lemma u32_range x : 0 <= u32 x < 2 ^ 32.
Proof. unfold u32. apply Z.mod_pos_bound. lia. Qed.

Lemma u32_small x : 0 <= x < 2 ^ 32 -> u32 x = x.
Proof. intros H. unfold u32. apply Z.mod_small. exact H. Qed.

Lemma s32_range x : - 2 ^ 31 <= s32 x < 2 ^ 31.
Proof.
  unfold s32. pose proof (u32_range x) as H.
  destruct (u32 x <? 2 ^ 31) eqn:E; [apply Z.ltb_lt in E | apply Z.ltb_ge in E]; lia.
Qed.

Lemma s32_small x : - 2 ^ 31 <= x < 2 ^ 31 -> s32 x = x.
Proof.
  intros H. unfold s32, u32.
  destruct (Z_lt_le_dec x 0) as [Hneg | Hpos].
  - replace (x mod 2 ^ 32) with (x + 2 ^ 32).
    + destruct (x + 2 ^ 32 <? 2 ^ 31) eqn:E;
        [apply Z.ltb_lt in E | apply Z.ltb_ge in E]; lia.
    + apply Z.mod_unique with (q := -1); lia.
  - rewrite Z.mod_small by lia.
    destruct (x <? 2 ^ 31) eqn:E; [reflexivity | apply Z.ltb_ge in E; lia].
Qed.

Lemma u32_pred_zero t : 0 <= t < 2 ^ 32 -> u32 (t - 1) = 0 -> t = 1.
Proof.
  intros Ht H. unfold u32 in H.
  destruct (Z.eq_dec t 0) as [-> | Hne].
  - exfalso. change ((0 - 1) mod 2 ^ 32) with (2 ^ 32 - 1) in H. lia.
  - rewrite Z.mod_small in H by lia. lia.
Qed.

Lemma u32_pred_nonzero t :
  0 <= t < 2 ^ 32 -> u32 (t - 1) <> 0 ->
  u32 (t - 1) = (if t =? 0 then 2 ^ 32 else t) - 1.
Proof.
  intros Ht H. unfold u32 in *.
  destruct (Z.eqb_spec t 0) as [-> | Hne].
  - reflexivity.
  - rewrite Z.mod_small by lia. reflexivity.
Qed.

Ltac run_op :=
  unfold call, body, KS_Open, KS_Read, KS_Write, KS_EraseKey, KS_EraseOTPKey,
    KS_LockOTPKey, KS_EraseAll, KS_RevokeKey, KS_WriteOTP, KS_ToggleSRAM;
  unfold bind; cbn.

(** ** The polling loop *)

Section Waiting.
Context {cfg : Config}.
Variable hw : Hardware.

Lemma poll_budget_pos t : 0 <= t < 2 ^ 32 -> (0 < poll_budget t)%nat.
Proof.
  intros Ht. unfold poll_budget.
  destruct (Z.eqb_spec t 0); lia.
Qed.

Lemma wait_while_spec fuel cond t h b :
  0 <= t < 2 ^ 32 -> (poll_budget t <= fuel)%nat ->
  wait_outcome hw cond (poll_budget t) h b (wait_while hw fuel cond t h b).
Proof.
  revert t h. induction fuel as [| fuel IH]; intros t h Ht Hfuel.
  - pose proof (poll_budget_pos t Ht). lia.
  - cbn [wait_while]. unfold bind at 1. cbn [rd].
    fold (sts_after hw h). set (v := sts_after hw h).
    destruct (cond v) eqn:Ec.
    + destruct (Z.eqb_spec (u32 (t - 1)) 0) as [Ez | Enz].
      * cbn. apply (wait_expired hw cond _ h b [v]).
        -- constructor; [exact Ec | constructor].
        -- apply u32_pred_zero in Ez; [| exact Ht]. subst t. reflexivity.
        -- cbn. split; [reflexivity | exact I].
      * pose proof (u32_pred_nonzero t Ht Enz) as Et.
        assert (Hb : poll_budget t = S (poll_budget (u32 (t - 1)))).
        { unfold poll_budget at 2.
          destruct (Z.eqb_spec (u32 (t - 1)) 0) as [| _]; [contradiction |].
          rewrite Et. unfold poll_budget.
          destruct (Z.eqb_spec t 0); lia. }
        specialize (IH (u32 (t - 1)) (h ++ [EvRead STS v]) (u32_range _)).
        rewrite Hb in *. specialize (IH ltac:(lia)).
        inversion IH as [vs v' Hall Hv' Hlen Hp Heq | vs Hall Hlen Hp Heq].
        -- cbn. apply (wait_cleared hw cond _ h b (v :: vs) v').
           ++ constructor; assumption.
           ++ exact Hv'.
           ++ cbn. lia.
           ++ cbn. split; [reflexivity | exact Hp].
        -- cbn. apply (wait_expired hw cond _ h b (v :: vs)).
           ++ constructor; assumption.
           ++ cbn. lia.
           ++ cbn. split; [reflexivity | exact Hp].
    + cbn. apply (wait_cleared hw cond _ h b [] v).
      * constructor.
      * exact Ec.
      * apply poll_budget_pos. exact Ht.
      * cbn. split; [reflexivity | exact I].
Qed.

Lemma wait_on_spec cond h b :
  wait_outcome hw cond (poll_budget (u32 KS_TIMEOUT)) h b (wait_on hw cond h b).
Proof.
  unfold wait_on. apply wait_while_spec.
  - apply u32_range.
  - lia.
Qed.

End Waiting.

(** ** Rules for [wp] *)

Section Rules.
Context {cfg : Config}.
Variable hw : Hardware.

Lemma wp_call (body : M Z) h b (P : Effect result -> Prop) :
  wp body h b (fun r d b' => P (mkEffect (to_result r) d b')) ->
  P (call body h b).
Proof.
  unfold wp, call. destruct (body h b) as [[c | c | e] d b']; auto.
Qed.

Lemma wp_mono {A} (m : M A) h b (Q Q' : outcome A -> list event -> list Z -> Prop) :
  wp m h b Q -> (forall r d b', Q r d b' -> Q' r d b') -> wp m h b Q'.
Proof. unfold wp. destruct (m h b). auto. Qed.

Lemma wp_bind {A B} (m : M A) (k : A -> M B) h b Q :
  wp m h b (fun r d1 b1 =>
              match r with
              | Next a =>
                  wp (k a) (h ++ d1) b1 (fun r' d2 b2 => Q r' (d1 ++ d2) b2)
              | Return c => Q (Return c) d1 b1
              | Abort e => Q (Abort e) d1 b1
              end) ->
  wp (bind m k) h b Q.
Proof.
  unfold wp, bind. destruct (m h b) as [[a | c | e] d1 b1]; auto.
  destruct (k a (h ++ d1) b1); auto.
Qed.

Lemma wp_ret {A} (a : A) h b (Q : outcome A -> list event -> list Z -> Prop) :
  Q (Next a) [] b -> wp (ret a) h b Q.
Proof. auto. Qed.

Lemma wp_return_ {A} c h b (Q : outcome A -> list event -> list Z -> Prop) :
  Q (Return c) [] b -> wp (return_ c) h b Q.
Proof. auto. Qed.

Lemma wp_rd r h b (Q : outcome Z -> list event -> list Z -> Prop) :
  Q (Next (u32 (hw h r))) [EvRead r (u32 (hw h r))] b -> wp (rd hw r) h b Q.
Proof. auto. Qed.

Lemma wp_wr r v h b (Q : outcome unit -> list event -> list Z -> Prop) :
  Q (Next tt) [EvWrite r v] b -> wp (wr r v) h b Q.
Proof. auto. Qed.

Lemma wp_return_if (c : bool) code h b
      (Q : outcome unit -> list event -> list Z -> Prop) :
  (c = true -> Q (Return code) [] b) ->
  (c = false -> Q (Next tt) [] b) ->
  wp (return_if c code) h b Q.
Proof. destruct c; unfold wp; cbn; auto. Qed.

Lemma wp_lift {A} (o : option A) h b
      (Q : outcome A -> list event -> list Z -> Prop) :
  match o with
  | Some a => Q (Next a) [] b
  | None => Q (Abort OutOfBounds) [] b
  end ->
  wp (lift o) h b Q.
Proof. destruct o; auto. Qed.

Lemma wp_load i h b (Q : outcome Z -> list event -> list Z -> Prop) :
  match array_get b i with
  | Some v => Q (Next v) [] b
  | None => Q (Abort OutOfBounds) [] b
  end ->
  wp (load i) h b Q.
Proof. unfold wp, load. destruct (array_get b i); auto. Qed.

Lemma wp_store i v h b (Q : outcome unit -> list event -> list Z -> Prop) :
  (0 <= i < Z.of_nat (length b) -> Q (Next tt) [] (<[Z.to_nat i := v]> b)) ->
  (~ 0 <= i < Z.of_nat (length b) -> Q (Abort OutOfBounds) [] b) ->
  wp (store i v) h b Q.
Proof.
  intros Hin Hout. unfold wp, store.
  destruct (Z.leb_spec 0 i); destruct (Z.ltb_spec i (Z.of_nat (length b)));
    cbn; first [apply Hin | apply Hout]; lia.
Qed.

Lemma wp_wait_on cond h b
      (Q : outcome unit -> list event -> list Z -> Prop) :
  (forall vs v,
      Forall (fun x => cond x = true) vs -> cond v = false ->
      (length vs < poll_budget (u32 KS_TIMEOUT))%nat ->
      polled hw h (vs ++ [v]) ->
      Q (Next tt) (map (EvRead STS) (vs ++ [v])) b) ->
  (forall vs,
      Forall (fun x => cond x = true) vs ->
      length vs = poll_budget (u32 KS_TIMEOUT) ->
      polled hw h vs ->
      Q (Return KS_ERR_TIMEOUT) (map (EvRead STS) vs) b) ->
  wp (wait_on hw cond) h b Q.
Proof.
  intros Hclear Hexp. unfold wp.
  destruct (wait_on_spec hw cond h b); auto.
Qed.

Lemma wp_wait_busy h b (Q : outcome unit -> list event -> list Z -> Prop) :
  (forall vs v,
      Forall (fun x => is_busy x = true) vs -> is_busy v = false ->
      (length vs < poll_budget (u32 KS_TIMEOUT))%nat ->
      polled hw h (vs ++ [v]) ->
      Q (Next tt) (map (EvRead STS) (vs ++ [v])) b) ->
  (forall vs,
      Forall (fun x => is_busy x = true) vs ->
      length vs = poll_budget (u32 KS_TIMEOUT) ->
      polled hw h vs ->
      Q (Return KS_ERR_TIMEOUT) (map (EvRead STS) vs) b) ->
  wp (wait_busy hw) h b Q.
Proof. apply wp_wait_on. Qed.

End Rules.

Arguments wp : simpl never.

(** One step of symbolic execution. *)
Ltac wp_step :=
  lazymatch goal with
  | |- wp (bind _ _) _ _ _ => apply wp_bind
  | |- wp (rd _ _) _ _ _ => apply wp_rd
  | |- wp (wr _ _) _ _ _ => apply wp_wr
  | |- wp (ret _) _ _ _ => apply wp_ret
  | |- wp (return_ _) _ _ _ => apply wp_return_
  | |- wp (lift _) _ _ _ => apply wp_lift
  | |- wp (load _) _ _ _ => apply wp_load
  end; cbn beta iota; cbn [res events keybuf to_result].

Ltac wp_steps := repeat wp_step.

Ltac unfold_op :=
  unfold body, KS_Open, KS_Read, KS_Write, KS_EraseKey, KS_EraseOTPKey,
    KS_LockOTPKey, KS_EraseAll, KS_RevokeKey, KS_WriteOTP, KS_ToggleSRAM.

(** ** Polls against a given controller *)

Section Polling.
Context {cfg : Config}.
Variable hw : Hardware.

Lemma polled_last h vs v :
  polled hw h (vs ++ [v]) -> v = sts_after hw (h ++ map (EvRead STS) vs).
Proof.
  revert h. induction vs as [| x vs IH]; intros h Hp.
  - cbn in *. rewrite app_nil_r. apply Hp.
  - cbn in Hp. destruct Hp as [_ Hp]. apply IH in Hp.
    rewrite <- app_assoc in Hp. exact Hp.
Qed.

Lemma wait_busy_spec h b :
  wait_outcome hw is_busy (poll_budget (u32 KS_TIMEOUT)) h b (wait_busy hw h b).
Proof. apply wait_on_spec. Qed.

Lemma chunk_count_pos n : 1 <= chunk_count n.
Proof.
  unfold chunk_count.
  destruct (Z.gtb_spec (s32 (n - 8)) 0) as [Hgt | Hle]; [| lia].
  assert (0 <= (s32 (n - 8) + 7) / 8) by (apply Z.div_pos; lia). lia.
Qed.

Lemma chunk_fuel n :
  Z.to_nat (chunk_count n) = S (Z.to_nat (chunk_count n - 1)).
Proof. pose proof (chunk_count_pos n). lia. Qed.

(** Copying into the key window from a buffer that is long enough. *)
Lemma for_loop_copy_in offset n i h b :
  0 <= offset -> 0 <= i ->
  offset + i + Z.of_nat n <= Z.of_nat (length b) ->
  offset + i + Z.of_nat n <= 2 ^ 31 ->
  for_loop n i (fun i => v <- load (s32 (offset + i)) ;; wr (KEY i) v) h b
    = mkEffect (Next tt)
        (key_writes i (take n (drop (Z.to_nat (offset + i)) b))) b.
Proof.
  revert i h. induction n as [| n IH]; intros i h Hoff Hi Hlen Hmax.
  - reflexivity.
  - cbn [for_loop]. unfold bind at 1. unfold bind at 1.
    unfold load, array_get. rewrite s32_small by lia.
    destruct (Z.ltb_spec (offset + i) 0) as [Hneg | _]; [lia |].
    destruct (b !! Z.to_nat (offset + i)) as [w |] eqn:Hw.
    2:{ apply lookup_ge_None in Hw. lia. }
    cbn. rewrite IH by lia. cbn.
    replace (Z.to_nat (offset + (i + 1))) with (S (Z.to_nat (offset + i)))
      by lia.
    rewrite (drop_S _ _ _ Hw). reflexivity.
Qed.

Lemma copy_in_ok offset cnt h b :
  0 <= offset -> 0 <= cnt ->
  offset + cnt <= Z.of_nat (length b) -> offset + cnt <= 2 ^ 31 ->
  copy_in offset cnt h b
    = mkEffect (Next tt)
        (key_writes 0 (take (Z.to_nat cnt) (drop (Z.to_nat offset) b))) b.
Proof.
  intros Hoff Hcnt Hlen Hmax. unfold copy_in.
  rewrite (for_loop_copy_in offset) by lia.
  rewrite Z.add_0_r. reflexivity.
Qed.

End Polling.

(** ** Time-outs *)

Ltac hist := rewrite <- ?app_assoc; cbn [app].

Section Timeout.
Context {cfg : Config}.
Variable hw : Hardware.

Lemma wp_copy_in offset cnt h b
      (Q : outcome unit -> list event -> list Z -> Prop) :
  0 <= offset -> 0 <= cnt ->
  offset + cnt <= Z.of_nat (length b) -> offset + cnt <= 2 ^ 31 ->
  Q (Next tt)
    (key_writes 0 (take (Z.to_nat cnt) (drop (Z.to_nat offset) b))) b ->
  wp (copy_in offset cnt) h b Q.
Proof.
  intros Hoff Hcnt Hlen Hmax HQ. unfold wp.
  rewrite copy_in_ok by assumption. exact HQ.
Qed.

Lemma otp_count_range i w :
  array_get au8CntTblOTP i = Some w -> 4 <= w <= 8.
Proof.
  unfold array_get, au8CntTblOTP.
  destruct (i <? 0); [discriminate |].
  generalize (Z.to_nat i) as n. intros n.
  do 7 (destruct n as [| n]; [intros [= <-]; lia |]).
  discriminate.
Qed.

End Timeout.

(** ** Bounded polling *)

Section Bound.
Context {cfg : Config}.
Variable hw : Hardware.

Lemma polls_app d1 d2 : polls (d1 ++ d2) = (polls d1 + polls d2)%nat.
Proof.
  induction d1 as [| [[| | | i] v | r v] d1 IH]; cbn; rewrite ?IH; reflexivity.
Qed.

Lemma polls_reads vs : polls (map (EvRead STS) vs) = length vs.
Proof. induction vs as [| v vs IH]; cbn; [| rewrite IH]; reflexivity. Qed.

Lemma polls_key_writes i ws : polls (key_writes i ws) = 0%nat.
Proof. revert i. induction ws as [| w ws IH]; intros i; cbn; auto. Qed.

Lemma chunk_count_step n :
  0 < s32 (n - 8) -> chunk_count n = 1 + chunk_count (s32 (n - 8)).
Proof.
  intros Hpos. unfold chunk_count at 1.
  destruct (Z.gtb_spec (s32 (n - 8)) 0) as [_ | Hle]; [| lia].
  f_equal. pose proof (s32_range (n - 8)) as Hr.
  set (m := s32 (n - 8)) in *. unfold chunk_count.
  rewrite (s32_small (m - 8)) by lia.
  destruct (Z.gtb_spec (m - 8) 0) as [Hgt | Hle].
  - replace (m + 7) with ((m - 8 + 7) + 1 * 8) by lia.
    rewrite Z.div_add by lia. lia.
  - assert (H : (m + 7) / 8 = 1); [| lia].
    symmetry. apply Z.div_unique with (r := m - 1); lia.
Qed.

Lemma chunk_count_last n : s32 (n - 8) <= 0 -> chunk_count n = 1.
Proof.
  intros Hle. unfold chunk_count.
  destruct (Z.gtb_spec (s32 (n - 8)) 0); lia.
Qed.

Lemma for_loop_quiet n i body h b :
  (forall i h b, wp (body i) h b (quiet 0)) ->
  wp (for_loop n i body) h b (quiet 0).
Proof.
  intros Hbody. revert i h b. induction n as [| n IH]; intros i h b.
  - apply wp_ret. split; [discriminate | cbn; lia].
  - cbn [for_loop]. wp_step.
    eapply wp_mono; [apply Hbody |].
    intros r d b' [Hr Hd]. destruct r as [[] | c | e].
    + eapply wp_mono; [apply IH |].
      intros r' d' b'' [Hr' Hd']. split; [exact Hr' |].
      rewrite polls_app. lia.
    + split; [discriminate | exact Hd].
    + split; [exact Hr | exact Hd].
Qed.

Lemma copy_out_quiet offset cnt h b : wp (copy_out hw offset cnt) h b (quiet 0).
Proof.
  unfold copy_out. apply for_loop_quiet. clear. intros i h b.
  wp_steps. apply wp_store; intros _; (split; [discriminate | cbn; lia]).
Qed.

Lemma copy_in_quiet offset cnt h b : wp (copy_in offset cnt) h b (quiet 0).
Proof.
  unfold copy_in. apply for_loop_quiet. clear. intros i h b.
  wp_steps. destruct (array_get b (s32 (offset + i))).
  - wp_steps. split; [discriminate | cbn; lia].
  - split; [discriminate | cbn; lia].
Qed.

Local Abbreviation budget := (poll_budget (u32 KS_TIMEOUT)).

Lemma wait_on_quiet cond h b : wp (wait_on hw cond) h b (quiet budget).
Proof.
  apply wp_wait_on.
  - intros vs v _ _ Hlen _. split; [discriminate |].
    rewrite polls_reads, length_app. cbn. lia.
  - intros vs _ Hlen _. split; [discriminate |].
    rewrite polls_reads. lia.
Qed.

Lemma read_chunk_quiet u32Cont i32Cnt offset h b :
  wp (read_chunk hw u32Cont i32Cnt offset) h b (quiet budget).
Proof.
  unfold read_chunk. wp_steps.
  eapply wp_mono; [apply wait_on_quiet |].
  intros r d b' [Hr Hd]. destruct r as [[] | c | e].
  - eapply wp_mono; [apply copy_out_quiet |].
    intros r' d' b'' [Hr' Hd']. split; [exact Hr' |].
    cbn [app polls]. rewrite polls_app. lia.
  - split; [discriminate | exact Hd].
  - split; [exact Hr | exact Hd].
Qed.

Lemma write_chunk_quiet u32Cont i32Cnt offset h b :
  wp (write_chunk hw u32Cont i32Cnt offset) h b (quiet budget).
Proof.
  unfold write_chunk. wp_step.
  eapply wp_mono; [apply copy_in_quiet |].
  intros r d b' [Hr Hd]. destruct r as [[] | c | e].
  - wp_steps. eapply wp_mono; [apply wait_on_quiet |].
    intros r' d' b'' [Hr' Hd']. split.
    + destruct r'; [discriminate | discriminate | exact Hr'].
    + rewrite !polls_app. cbn [polls]. lia.
  - split; [discriminate | lia].
  - split; [exact Hr | lia].
Qed.

Lemma read_chunks_quiet fuel :
  forall u32Cont i32Cnt offset h b,
    (Z.to_nat (chunk_count i32Cnt) <= fuel)%nat ->
    wp (read_chunks hw fuel u32Cont i32Cnt offset) h b
       (quiet (Z.to_nat (chunk_count i32Cnt) * budget)).
Proof.
  induction fuel as [| fuel IH]; intros u32Cont i32Cnt offset h b Hfuel.
  - pose proof (chunk_count_pos i32Cnt). lia.
  - cbn [read_chunks]. wp_step.
    eapply wp_mono; [apply read_chunk_quiet |].
    intros r d b' [Hr Hd].
    pose proof (chunk_count_pos i32Cnt) as Hpos.
    destruct r as [[] | c | e].
    + destruct (Z.gtb_spec (s32 (i32Cnt - 8)) 0) as [Hmore | Hlast].
      * pose proof (chunk_count_step i32Cnt Hmore) as Hstep.
        pose proof (chunk_count_pos (s32 (i32Cnt - 8))) as Hpos'.
        eapply wp_mono; [apply IH; lia |].
        intros r' d' b'' [Hr' Hd']. split; [exact Hr' |].
        rewrite polls_app, Hstep.
        replace (Z.to_nat (1 + chunk_count (s32 (i32Cnt - 8))))
          with (S (Z.to_nat (chunk_count (s32 (i32Cnt - 8))))) by lia.
        cbn [Nat.mul]. apply Nat.add_le_mono; assumption.
      * wp_steps. split; [discriminate |].
        rewrite app_nil_r, (chunk_count_last _ Hlast).
        change (Z.to_nat 1) with 1%nat. rewrite Nat.mul_1_l. exact Hd.
    + split; [discriminate |].
      replace (Z.to_nat (chunk_count i32Cnt))
        with (S (Z.to_nat (chunk_count i32Cnt - 1))) by lia.
      cbn [Nat.mul]. apply Nat.le_trans with (1 := Hd). apply Nat.le_add_r.
    + split; [exact Hr |].
      replace (Z.to_nat (chunk_count i32Cnt))
        with (S (Z.to_nat (chunk_count i32Cnt - 1))) by lia.
      cbn [Nat.mul]. apply Nat.le_trans with (1 := Hd). apply Nat.le_add_r.
Qed.

Lemma write_chunks_quiet fuel :
  forall u32Cont i32Cnt offset h b,
    (Z.to_nat (chunk_count i32Cnt) <= fuel)%nat ->
    wp (write_chunks hw fuel u32Cont i32Cnt offset) h b
       (quiet (Z.to_nat (chunk_count i32Cnt) * budget)).
Proof.
  induction fuel as [| fuel IH]; intros u32Cont i32Cnt offset h b Hfuel.
  - pose proof (chunk_count_pos i32Cnt). lia.
  - cbn [write_chunks]. wp_step.
    eapply wp_mono; [apply write_chunk_quiet |].
    intros r d b' [Hr Hd].
    pose proof (chunk_count_pos i32Cnt) as Hpos.
    destruct r as [[] | c | e].
    + destruct (Z.gtb_spec (s32 (i32Cnt - 8)) 0) as [Hmore | Hlast].
      * pose proof (chunk_count_step i32Cnt Hmore) as Hstep.
        pose proof (chunk_count_pos (s32 (i32Cnt - 8))) as Hpos'.
        eapply wp_mono; [apply IH; lia |].
        intros r' d' b'' [Hr' Hd']. split; [exact Hr' |].
        rewrite polls_app, Hstep.
        replace (Z.to_nat (1 + chunk_count (s32 (i32Cnt - 8))))
          with (S (Z.to_nat (chunk_count (s32 (i32Cnt - 8))))) by lia.
        cbn [Nat.mul]. apply Nat.add_le_mono; assumption.
      * wp_steps. split; [discriminate |].
        rewrite app_nil_r, (chunk_count_last _ Hlast).
        change (Z.to_nat 1) with 1%nat. rewrite Nat.mul_1_l. exact Hd.
    + split; [discriminate |].
      replace (Z.to_nat (chunk_count i32Cnt))
        with (S (Z.to_nat (chunk_count i32Cnt - 1))) by lia.
      cbn [Nat.mul]. apply Nat.le_trans with (1 := Hd). apply Nat.le_add_r.
    + split; [exact Hr |].
      replace (Z.to_nat (chunk_count i32Cnt))
        with (S (Z.to_nat (chunk_count i32Cnt - 1))) by lia.
      cbn [Nat.mul]. apply Nat.le_trans with (1 := Hd). apply Nat.le_add_r.
Qed.

Lemma Quiet_bind {A B} (m : M A) (k : A -> M B) n1 n2 :
  Quiet m n1 -> (forall a, Quiet (k a) n2) -> Quiet (bind m k) (n1 + n2).
Proof.
  intros Hm Hk h b. wp_step.
  eapply wp_mono; [apply Hm |].
  intros r d b' [Hr Hd]. destruct r as [a | c | e].
  - eapply wp_mono; [apply Hk |].
    intros r' d' b'' [Hr' Hd']. split; [exact Hr' |].
    rewrite polls_app. apply Nat.add_le_mono; assumption.
  - split; [discriminate |]. apply Nat.le_trans with (1 := Hd), Nat.le_add_r.
  - split; [destruct e; [discriminate | exfalso; apply Hr; reflexivity] |].
    apply Nat.le_trans with (1 := Hd), Nat.le_add_r.
Qed.

Lemma Quiet_weaken {A} (m : M A) n n' :
  Quiet m n -> (n <= n')%nat -> Quiet m n'.
Proof.
  intros Hm Hle h b. eapply wp_mono; [apply Hm |].
  intros r d b' [Hr Hd]. split; [exact Hr | lia].
Qed.

Lemma Quiet_if {A} (c : bool) (m1 m2 : M A) n1 n2 :
  Quiet m1 n1 -> Quiet m2 n2 -> Quiet (if c then m1 else m2) (n1 + n2).
Proof.
  intros H1 H2. destruct c.
  - eapply Quiet_weaken; [exact H1 | lia].
  - eapply Quiet_weaken; [exact H2 | lia].
Qed.

Lemma Quiet_rd_STS : Quiet (rd hw STS) 1.
Proof. intros h b. apply wp_rd. split; [discriminate | cbn; lia]. Qed.

Lemma Quiet_rd_CTL : Quiet (rd hw CTL) 0.
Proof. intros h b. apply wp_rd. split; [discriminate | cbn; lia]. Qed.

Lemma Quiet_rd_METADATA : Quiet (rd hw METADATA) 0.
Proof. intros h b. apply wp_rd. split; [discriminate | cbn; lia]. Qed.

Lemma Quiet_wr r v : Quiet (wr r v) 0.
Proof.
  intros h b. apply wp_wr. split; [discriminate |].
  destruct r; cbn; lia.
Qed.

Lemma Quiet_ret {A} (a : A) : Quiet (ret a) 0.
Proof. intros h b. apply wp_ret. split; [discriminate | cbn; lia]. Qed.

Lemma Quiet_return_if c code : Quiet (return_if c code) 0.
Proof.
  intros h b. apply wp_return_if; intros _; (split; [discriminate | cbn; lia]).
Qed.

Lemma Quiet_lift {A} (o : option A) : Quiet (lift o) 0.
Proof.
  intros h b. apply wp_lift. destruct o; (split; [discriminate | cbn; lia]).
Qed.

Lemma Quiet_wait_on cond : Quiet (wait_on hw cond) budget.
Proof. intros h b. apply wait_on_quiet. Qed.

Lemma Quiet_wait_busy : Quiet (wait_busy hw) budget.
Proof. apply Quiet_wait_on. Qed.

Lemma Quiet_copy_in offset cnt : Quiet (copy_in offset cnt) 0.
Proof. intros h b. apply copy_in_quiet. Qed.

Lemma Quiet_read_chunks u32Cont i32Cnt offset :
  Quiet (read_chunks hw (Z.to_nat (chunk_count i32Cnt)) u32Cont i32Cnt offset)
        (Z.to_nat (chunk_count i32Cnt) * budget).
Proof. intros h b. apply read_chunks_quiet. lia. Qed.

Lemma Quiet_write_chunks u32Cont i32Cnt offset :
  Quiet (write_chunks hw (Z.to_nat (chunk_count i32Cnt)) u32Cont i32Cnt offset)
        (Z.to_nat (chunk_count i32Cnt) * budget).
Proof. intros h b. apply write_chunks_quiet. lia. Qed.

Lemma Quiet_bind_lift {A B} (o : option A) (k : A -> M B) n :
  (forall a, o = Some a -> Quiet (k a) n) -> Quiet (bind (lift o) k) n.
Proof.
  intros Hk h b. wp_step. apply wp_lift. destruct o as [a |].
  - eapply wp_mono; [apply (Hk a eq_refl) |].
    intros r d b' [Hr Hd]. split; [exact Hr | exact Hd].
  - split; [discriminate | cbn; lia].
Qed.

Ltac quiet_step :=
  first [ apply Quiet_rd_STS | apply Quiet_rd_CTL | apply Quiet_rd_METADATA
        | apply Quiet_wr | apply Quiet_ret | apply Quiet_return_if
        | apply Quiet_lift | apply Quiet_wait_busy | apply Quiet_wait_on
        | apply Quiet_copy_in | apply Quiet_read_chunks
        | apply Quiet_write_chunks
        | eapply Quiet_if
        | eapply Quiet_bind; [| intros ? ] ].

Lemma body_quiet op h b :
  wp (body hw op) h b (quiet (3 + Z.to_nat (waits op) * budget)).
Proof.
  revert h b. change (Quiet (body hw op) (3 + Z.to_nat (waits op) * budget)).
  destruct op; unfold_op; cbn [waits].
  all: try (eapply Quiet_weaken; [repeat quiet_step | cbn; lia]).
  destruct (KS_GetKeyWordCnt u32Meta) as [w |] eqn:Hw.
  - eapply Quiet_weaken.
    + do 3 (eapply Quiet_bind; [quiet_step | intros ?]).
      apply Quiet_bind_lift. intros w' [= <-]. repeat quiet_step.
    + cbn. lia.
  - eapply Quiet_weaken.
    + do 3 (eapply Quiet_bind; [quiet_step | intros ?]).
      apply Quiet_bind_lift with (n := 0%nat). intros w' [=].
    + cbn. lia.
Qed.
End Bound.

(** ** Copying out of the key window *)

Section CopyOut.
Context {cfg : Config}.
Variable hw : Hardware.

Lemma window_length h i n : length (window hw h i n) = n.
Proof.
  revert h i. induction n as [| n IH]; intros h i; cbn; [| rewrite IH]; reflexivity.
Qed.

Lemma for_loop_copy_out offset n i h b :
  0 <= offset -> 0 <= i ->
  offset + i + Z.of_nat n <= Z.of_nat (length b) ->
  offset + i + Z.of_nat n <= 2 ^ 31 ->
  for_loop n i (fun i => v <- rd hw (KEY i) ;; store (s32 (offset + i)) v) h b
    = mkEffect (Next tt) (key_reads i (window hw h i n))
        (take (Z.to_nat (offset + i)) b ++ window hw h i n
           ++ drop (Z.to_nat (offset + i) + n) b).
Proof.
  revert i h b. induction n as [| n IH]; intros i h b Hoff Hi Hlen Hmax.
  - cbn. rewrite Nat.add_0_r, take_drop. reflexivity.
  - cbn [for_loop window key_reads]. unfold bind at 1. unfold bind at 1.
    cbn [rd]. unfold store. rewrite s32_small by lia.
    destruct (Z.leb_spec 0 (offset + i)) as [_ | Hneg]; [| lia].
    destruct (Z.ltb_spec (offset + i) (Z.of_nat (length b))) as [_ | Hge]; [| lia].
    cbn [andb app]. set (v := u32 (hw h (KEY i))).
    rewrite IH by (rewrite ?length_insert; lia).
    cbn [app]. f_equal.
    replace (Z.to_nat (offset + (i + 1))) with (S (Z.to_nat (offset + i))) by lia.
    set (k := Z.to_nat (offset + i)).
    assert (Hk : (k < length b)%nat) by lia.
    rewrite drop_insert_lt by lia.
    destruct (lookup_lt_is_Some_2 b k Hk) as [x Hx].
    rewrite (take_S_r (<[k:=v]> b) k v) by (apply list_lookup_insert_eq; exact Hk).
    rewrite take_insert_ge by lia.
    rewrite <- app_assoc. cbn [app].
    replace (S k + n)%nat with (k + S n)%nat by lia. reflexivity.
Qed.

Lemma copy_out_ok offset cnt h b :
  0 <= offset -> offset + cnt <= Z.of_nat (length b) -> offset + cnt <= 2 ^ 31 ->
  copy_out hw offset cnt h b
    = mkEffect (Next tt) (key_reads 0 (window hw h 0 (Z.to_nat cnt)))
        (take (Z.to_nat offset) b ++ window hw h 0 (Z.to_nat cnt)
           ++ drop (Z.to_nat offset + Z.to_nat cnt) b).
Proof.
  intros Hoff Hlen Hmax. unfold copy_out.
  destruct (Z_lt_le_dec cnt 0) as [Hneg | Hpos].
  - replace (Z.to_nat cnt) with 0%nat by lia. cbn.
    rewrite Nat.add_0_r, take_drop. reflexivity.
  - rewrite (for_loop_copy_out offset) by lia.
    rewrite Z.add_0_r. reflexivity.
Qed.
End CopyOut.

(** ** Completion of the commands *)

Ltac find_in :=
  first [ eassumption
        | left; reflexivity
        | right; find_in
        | apply in_or_app; first [ left; solve [find_in] | right; solve [find_in] ] ].

Section Completion.
Context {cfg : Config}.
Variable hw : Hardware.
Variable h : list event.

Hypothesis Hclear :
  forall d, (poll_budget (u32 KS_TIMEOUT) <= S (trailing_polls d))%nat ->
            is_busy (sts_after hw (h ++ d)) = false.

Lemma leading_polls_reads vs d :
  leading_polls (map (EvRead STS) vs ++ d) = (length vs + leading_polls d)%nat.
Proof. induction vs as [| v vs IH]; cbn; [| rewrite IH]; reflexivity. Qed.

Lemma trailing_polls_reads d vs :
  (length vs <= trailing_polls (d ++ map (EvRead STS) vs))%nat.
Proof.
  unfold trailing_polls. rewrite rev_app_distr, <- map_rev.
  rewrite leading_polls_reads, length_rev. lia.
Qed.

Lemma wp_wait_busy_clears d b
      (Q : outcome unit -> list event -> list Z -> Prop) :
  (forall vs v, Q (Next tt) (map (EvRead STS) (vs ++ [v])) b) ->
  wp (wait_busy hw) (h ++ d) b Q.
Proof.
  intros HQ. apply wp_wait_busy.
  - intros vs v _ _ _ _. apply HQ.
  - intros vs Hall Hlen Hp. exfalso.
    destruct vs as [| x vs] using rev_ind.
    + pose proof (poll_budget_pos (u32 KS_TIMEOUT) (u32_range _)).
      cbn in Hlen. lia.
    + clear IHvs. apply polled_last in Hp. rewrite <- app_assoc in Hp.
      apply Forall_app in Hall. destruct Hall as [_ Hx].
      apply Forall_inv in Hx.
      rewrite Hp, Hclear in Hx; [discriminate |].
      rewrite length_app in Hlen. cbn in Hlen.
      pose proof (trailing_polls_reads d vs). lia.
Qed.

End Completion.

Lemma word_count_range i w : array_get au8CntTbl i = Some w -> 0 <= w <= 128.
Proof.
  unfold array_get, au8CntTbl.
  destruct (i <? 0); [discriminate |].
  generalize (Z.to_nat i) as n. intros n.
  do 21 (destruct n as [| n]; [intros [= <-]; lia |]).
  discriminate.
Qed.

(** ** Bounds of the table lookup *)

Section SizeField.
Context {cfg : Config}.
Hypothesis Hpos : 0 <= KS_METADATA_SIZE_Pos.
Hypothesis Hmsk : KS_METADATA_SIZE_Msk = Z.shiftl 31 KS_METADATA_SIZE_Pos.

Lemma size_field_low_bits u32Meta :
  size_field u32Meta = Z.shiftr u32Meta KS_METADATA_SIZE_Pos mod 2 ^ 5.
Proof.
  unfold size_field. rewrite Hmsk, Z.shiftr_land.
  rewrite Z.shiftr_shiftl_l by lia. rewrite Z.sub_diag, Z.shiftl_0_r.
  change 31 with (Z.ones 5). apply Z.land_ones. lia.
Qed.

Lemma size_field_range u32Meta : 0 <= size_field u32Meta <= 31.
Proof.
  rewrite size_field_low_bits.
  pose proof (Z.mod_pos_bound (Z.shiftr u32Meta KS_METADATA_SIZE_Pos) (2 ^ 5)).
  lia.
Qed.

Lemma size_field_shiftl c :
  0 <= c <= 31 -> size_field (Z.shiftl c KS_METADATA_SIZE_Pos) = c.
Proof.
  intros Hc. rewrite size_field_low_bits.
  rewrite Z.shiftr_shiftl_l by lia. rewrite Z.sub_diag, Z.shiftl_0_r.
  apply Z.mod_small. lia.
Qed.

End SizeField.

Lemma array_get_Some a i :
  is_Some (array_get a i) <-> 0 <= i < Z.of_nat (length a).
Proof.
  unfold array_get. destruct (Z.ltb_spec i 0) as [Hneg | Hpos].
  - split; [intros [x Hx]; discriminate | lia].
  - rewrite lookup_lt_is_Some. lia.
Qed.

(** ** Mode bits of the control register *)

Section Modes.
Context {cfg : Config}.
Variable hw : Hardware.

Lemma ctl_keep_lor a b : ctl_keep a = 0 -> ctl_keep b = 0 -> ctl_keep (Z.lor a b) = 0.
Proof.
  unfold ctl_keep. intros Ha Hb. rewrite Z.land_lor_distr_l, Ha, Hb. reflexivity.
Qed.

Lemma ctl_keep_0 : ctl_keep 0 = 0.
Proof. unfold ctl_keep. apply Z.land_0_l. Qed.

Lemma keep_bits cmd c s m :
  Z.land cmd (Z.lor s m) = 0 ->
  Z.land (Z.lor cmd (Z.land c (Z.lor s m))) s = Z.land c s /\
  Z.land (Z.lor cmd (Z.land c (Z.lor s m))) m = Z.land c m.
Proof.
  intros Hcmd.
  assert (Hbit : forall n, Z.testbit cmd n && (Z.testbit s n || Z.testbit m n) = false).
  { intros n. rewrite <- Z.lor_spec, <- Z.land_spec, Hcmd. apply Z.bits_0. }
  split; apply Z.bits_inj'; intros n _;
    rewrite ?Z.land_spec, ?Z.lor_spec, ?Z.land_spec, ?Z.lor_spec;
    specialize (Hbit n);
    destruct (Z.testbit cmd n), (Z.testbit c n), (Z.testbit s n), (Z.testbit m n);
    cbn in *; congruence.
Qed.

Lemma same_modes_issue cmd c :
  ctl_keep cmd = 0 -> same_modes c (Z.lor cmd (ctl_keep c)).
Proof. intros Hcmd. unfold same_modes, ctl_keep in *. apply keep_bits. exact Hcmd. Qed.

Lemma modes_kept_from_weaken prev d :
  modes_kept_from None d -> modes_kept_from prev d.
Proof.
  destruct d as [| [[| | | i] v | [| | | i] v] d]; cbn; auto.
  intros [[] _].
Qed.

Lemma modes_kept_from_app prev d1 d2 :
  modes_kept_from prev d1 -> modes_kept_from None d2 ->
  modes_kept_from prev (d1 ++ d2).
Proof.
  revert prev. induction d1 as [| e d1 IH]; intros prev H1 H2.
  - cbn. apply modes_kept_from_weaken. exact H2.
  - destruct e as [[| | | i] v | [| | | i] v]; cbn in *;
      try (apply IH; assumption).
    destruct H1 as [Hv H1]. split; [exact Hv | apply IH; assumption].
Qed.

Lemma modes_kept_app d1 d2 :
  modes_kept d1 -> modes_kept d2 -> modes_kept (d1 ++ d2).
Proof. apply modes_kept_from_app. Qed.

Lemma modes_kept_reads vs : modes_kept (map (EvRead STS) vs).
Proof. unfold modes_kept. induction vs as [| v vs IH]; cbn; auto. Qed.

Lemma Kept_bind {A B} (m : M A) (k : A -> M B) :
  Kept m -> (forall a, Kept (k a)) -> Kept (bind m k).
Proof.
  intros Hm Hk h b. wp_step.
  eapply wp_mono; [apply Hm |].
  intros r d b' Hd. destruct r as [a | c | e]; try exact Hd.
  eapply wp_mono; [apply Hk |].
  intros r' d' b'' Hd'. apply modes_kept_app; assumption.
Qed.

Lemma Kept_issue {B} cmd (k : M B) :
  ctl_keep cmd = 0 -> Kept k ->
  Kept (ctl <- rd hw CTL ;; wr CTL (Z.lor cmd (ctl_keep ctl)) ;; k).
Proof.
  intros Hcmd Hk h b. wp_steps.
  eapply wp_mono; [apply Hk |].
  intros r d b' Hd. cbn [app]. unfold modes_kept. cbn.
  split; [apply same_modes_issue; exact Hcmd | exact Hd].
Qed.

Lemma Kept_rd_STS : Kept (rd hw STS).
Proof. intros h b. apply wp_rd. exact I. Qed.

Lemma Kept_rd_METADATA : Kept (rd hw METADATA).
Proof. intros h b. apply wp_rd. exact I. Qed.

Lemma Kept_rd_KEY i : Kept (rd hw (KEY i)).
Proof. intros h b. apply wp_rd. exact I. Qed.

Lemma Kept_wr_STS v : Kept (wr STS v).
Proof. intros h b. apply wp_wr. exact I. Qed.

Lemma Kept_wr_METADATA v : Kept (wr METADATA v).
Proof. intros h b. apply wp_wr. exact I. Qed.

Lemma Kept_wr_KEY i v : Kept (wr (KEY i) v).
Proof. intros h b. apply wp_wr. exact I. Qed.

Lemma Kept_ret {A} (a : A) : Kept (ret a).
Proof. intros h b. apply wp_ret. exact I. Qed.

Lemma Kept_return_if c code : Kept (return_if c code).
Proof. intros h b. apply wp_return_if; intros _; exact I. Qed.

Lemma Kept_lift {A} (o : option A) : Kept (lift o).
Proof. intros h b. apply wp_lift. destruct o; exact I. Qed.

Lemma Kept_load i : Kept (load i).
Proof. intros h b. apply wp_load. destruct (array_get b i); exact I. Qed.

Lemma Kept_store i v : Kept (store i v).
Proof. intros h b. apply wp_store; intros _; exact I. Qed.

Lemma Kept_wait_on cond : Kept (wait_on hw cond).
Proof. intros h b. apply wp_wait_on; intros; apply modes_kept_reads. Qed.

Lemma Kept_wait_busy : Kept (wait_busy hw).
Proof. apply Kept_wait_on. Qed.

Lemma Kept_for_loop n i body :
  (forall i, Kept (body i)) -> Kept (for_loop n i body).
Proof.
  intros Hbody. revert i. induction n as [| n IH]; intros i.
  - apply Kept_ret.
  - cbn [for_loop]. apply Kept_bind; [apply Hbody | intros _; apply IH].
Qed.

Lemma Kept_copy_out offset cnt : Kept (copy_out hw offset cnt).
Proof.
  apply Kept_for_loop. intros i.
  apply Kept_bind; [apply Kept_rd_KEY | intros v; apply Kept_store].
Qed.

Lemma Kept_copy_in offset cnt : Kept (copy_in offset cnt).
Proof.
  apply Kept_for_loop. intros i.
  apply Kept_bind; [apply Kept_load | intros v; apply Kept_wr_KEY].
Qed.

Hypothesis Hlayout : ctl_layout.

Lemma layout_bit x :
  In x [KS_CTL_START_Msk; KS_CTL_CONT_Msk; KS_OP_READ; KS_OP_WRITE;
        KS_OP_ERASE; KS_OP_ERASE_ALL; KS_OP_REVOKE; KS_OP_REMAN] ->
  ctl_keep x = 0.
Proof.
  intros Hin. unfold ctl_layout in Hlayout.
  rewrite List.Forall_forall in Hlayout. apply Hlayout. exact Hin.
Qed.

Ltac layout :=
  repeat first [ apply ctl_keep_lor | apply ctl_keep_0 | assumption
               | apply layout_bit; cbn; tauto ].

Ltac kept_step :=
  first [ apply Kept_issue; [layout |]
        | apply Kept_rd_STS | apply Kept_rd_METADATA
        | apply Kept_wr_STS | apply Kept_wr_METADATA
        | apply Kept_ret | apply Kept_return_if | apply Kept_lift
        | apply Kept_wait_busy | apply Kept_copy_in | apply Kept_copy_out
        | apply Kept_bind; [| intros ? ] ].

Lemma Kept_read_chunks fuel :
  forall u32Cont i32Cnt offset,
    ctl_keep u32Cont = 0 ->
    Kept (read_chunks hw fuel u32Cont i32Cnt offset).
Proof.
  induction fuel as [| fuel IH]; intros u32Cont i32Cnt offset Hcont.
  - intros h b. exact I.
  - cbn [read_chunks]. apply Kept_bind.
    + unfold read_chunk. repeat kept_step.
    + intros _. destruct (s32 (i32Cnt - 8) >? 0).
      * apply IH. layout.
      * apply Kept_ret.
Qed.

Lemma Kept_write_chunks fuel :
  forall u32Cont i32Cnt offset,
    ctl_keep u32Cont = 0 ->
    Kept (write_chunks hw fuel u32Cont i32Cnt offset).
Proof.
  induction fuel as [| fuel IH]; intros u32Cont i32Cnt offset Hcont.
  - intros h b. exact I.
  - cbn [write_chunks]. apply Kept_bind.
    + unfold write_chunk. repeat kept_step.
    + intros _. destruct (s32 (i32Cnt - 8) >? 0).
      * apply IH. layout.
      * apply Kept_ret.
Qed.

Lemma Kept_body op : preserves_modes op = true -> Kept (body hw op).
Proof.
  intros Hop. destruct op; try discriminate Hop; unfold_op.
  all: repeat first [ apply Kept_read_chunks; layout
                    | apply Kept_write_chunks; layout
                    | kept_step ].
Qed.

End Modes.

(** ** The chunks of a read *)

Section Observations.

Lemma ctl_writes_In d v : In (EvWrite CTL v) d -> ctl_writes d <> [].
Proof.
  induction d as [|e d IH]; [intros [] |].
  intros [-> | Hin]; [discriminate |].
  destruct e as [r w | r w]; [exact (IH Hin) |].
  destruct r; cbn [ctl_writes]; first [discriminate | exact (IH Hin)].
Qed.

Lemma ctl_writes_app d1 d2 : ctl_writes (d1 ++ d2) = ctl_writes d1 ++ ctl_writes d2.
Proof.
  induction d1 as [| [r v | [| | | i] v] d1 IH]; cbn; rewrite ?IH; reflexivity.
Qed.

Lemma ctl_writes_reads vs : ctl_writes (map (EvRead STS) vs) = [].
Proof. induction vs as [| v vs IH]; cbn; auto. Qed.

Lemma ctl_writes_key_reads i ws : ctl_writes (key_reads i ws) = [].
Proof. revert i. induction ws as [| w ws IH]; intros i; cbn; auto. Qed.

Lemma window_reads_app k d1 d2 :
  window_reads k (d1 ++ d2)
    = window_reads k d1 ++ window_reads (k + length (ctl_writes d1)) d2.
Proof.
  revert k. induction d1 as [| [[| | | i] v | [| | | i] v] d1 IH]; intros k;
    cbn [app window_reads ctl_writes length]; rewrite ?IH;
    rewrite ?Nat.add_0_r, ?Nat.add_succ_r; reflexivity.
Qed.

Lemma window_reads_polls k vs : window_reads k (map (EvRead STS) vs) = [].
Proof. induction vs as [| v vs IH]; cbn; auto. Qed.

Lemma window_reads_key_reads k i ws :
  window_reads k (key_reads i ws) = tagged k i ws.
Proof.
  revert i. induction ws as [| w ws IH]; intros i; cbn; rewrite ?IH; reflexivity.
Qed.

Lemma tagged_values k i ws : map snd (tagged k i ws) = ws.
Proof.
  revert i. induction ws as [| w ws IH]; intros i; cbn; rewrite ?IH; reflexivity.
Qed.

Lemma tagged_tags k i ws :
  map fst (tagged k i ws)
    = map (fun j => (k, j)) (seqZ i (Z.of_nat (length ws))).
Proof.
  revert i. induction ws as [| w ws IH]; intros i.
  - reflexivity.
  - cbn [tagged map length]. rewrite seqZ_cons by lia. cbn [map].
    rewrite IH. do 3 f_equal; lia.
Qed.

(** Splitting the expected tags at the first chunk. *)
Lemma chunk_tags_last k n :
  0 <= n <= 8 ->
  map (fun j => ((S k + Z.to_nat (j / 8))%nat, j mod 8)) (seqZ 0 n)
    = map (fun j => (S k, j)) (seqZ 0 n).
Proof.
  intros Hn. apply map_ext_in. intros j Hj.
  apply list_elem_of_In, elem_of_seqZ in Hj.
  rewrite Z.div_small, Z.mod_small by lia. f_equal. cbn. lia.
Qed.

Lemma chunk_tags_step k n :
  8 < n ->
  map (fun j => ((S k + Z.to_nat (j / 8))%nat, j mod 8)) (seqZ 0 n)
    = map (fun j => (S k, j)) (seqZ 0 8)
      ++ map (fun j => ((S (S k) + Z.to_nat (j / 8))%nat, j mod 8)) (seqZ 0 (n - 8)).
Proof.
  intros Hn. replace n with (8 + (n - 8)) at 1 by lia.
  rewrite seqZ_app by lia. rewrite map_app. f_equal.
  - apply chunk_tags_last. lia.
  - change (0 + 8) with (8 + 0). rewrite <- fmap_add_seqZ.
    change (Z.add 8 <$> seqZ 0 (n - 8)) with (map (Z.add 8) (seqZ 0 (n - 8))).
    rewrite map_map. apply map_ext_in. intros j Hj.
    apply list_elem_of_In, elem_of_seqZ in Hj.
    replace (8 + j) with (j + 1 * 8) by lia.
    rewrite Z.div_add, Z.mod_add by lia.
    f_equal. rewrite Z2Nat.inj_add by (try apply Z.div_pos; lia). cbn. lia.
Qed.

End Observations.

Ltac observe :=
  repeat first [ rewrite ctl_writes_app | rewrite ctl_writes_reads
               | rewrite ctl_writes_key_reads | rewrite window_reads_app
               | rewrite window_reads_polls | rewrite window_reads_key_reads ];
  cbn [app length]; rewrite ?Nat.add_0_r.

Section ReadTrace.
Context {cfg : Config}.
Variable hw : Hardware.
Variable h : list event.

Hypothesis Hclear :
  forall d, (poll_budget (u32 KS_TIMEOUT) <= S (trailing_polls d))%nat ->
            is_busy (sts_after hw (h ++ d)) = false.
Hypothesis Hlayout : read_layout.

Lemma read_strobe_cont u32Cont c :
  Z.land (Z.lor (Z.lor (Z.lor u32Cont KS_OP_READ) KS_CTL_START_Msk) (ctl_keep c))
         KS_CTL_CONT_Msk
    = Z.land u32Cont KS_CTL_CONT_Msk.
Proof.
  unfold read_layout in Hlayout. unfold ctl_keep.
  assert (Hbit : forall n,
             (Z.testbit KS_OP_READ n || Z.testbit KS_CTL_START_Msk n
              || (Z.testbit KS_CTL_SILENT_Msk n || Z.testbit KS_CTL_SCMB_Msk n))
             && Z.testbit KS_CTL_CONT_Msk n = false).
  { intros n. rewrite <- !Z.lor_spec, <- Z.land_spec, Hlayout. apply Z.bits_0. }
  apply Z.bits_inj'. intros n _. specialize (Hbit n).
  rewrite !Z.land_spec, !Z.lor_spec, Z.land_spec, Z.lor_spec.
  destruct (Z.testbit u32Cont n), (Z.testbit KS_OP_READ n),
    (Z.testbit KS_CTL_START_Msk n), (Z.testbit c n),
    (Z.testbit KS_CTL_SILENT_Msk n), (Z.testbit KS_CTL_SCMB_Msk n),
    (Z.testbit KS_CTL_CONT_Msk n); cbn in *; congruence.
Qed.

Lemma wp_copy_out_exact offset cnt d b
      (Q : outcome unit -> list event -> list Z -> Prop) :
  0 <= offset -> offset + cnt <= Z.of_nat (length b) ->
  offset + cnt <= 2 ^ 31 ->
  Q (Next tt) (key_reads 0 (window hw d 0 (Z.to_nat cnt)))
    (take (Z.to_nat offset) b ++ window hw d 0 (Z.to_nat cnt)
       ++ drop (Z.to_nat offset + Z.to_nat cnt) b) ->
  wp (copy_out hw offset cnt) d b Q.
Proof.
  intros Hoff Hlen Hmax HQ. unfold wp.
  rewrite copy_out_ok by assumption. exact HQ.
Qed.

Lemma read_chunks_run fuel :
  forall u32Cont i32Cnt offset d b k,
    (Z.to_nat (chunk_count i32Cnt) <= fuel)%nat ->
    0 < i32Cnt -> 0 <= offset ->
    offset + i32Cnt <= Z.of_nat (length b) -> offset + i32Cnt < 2 ^ 31 ->
    wp (read_chunks hw fuel u32Cont i32Cnt offset) (h ++ d) b
       (read_run k u32Cont i32Cnt offset b).
Proof.
  induction fuel as [| fuel IH];
    intros u32Cont i32Cnt offset d b k Hfuel Hcnt Hoff Hlen Hmax.
  - pose proof (chunk_count_pos i32Cnt). lia.
  - cbn [read_chunks]. wp_step. unfold read_chunk. wp_steps. hist.
    apply wp_wait_busy_clears; [exact Hclear |]. intros vs v. cbn beta iota.
    apply wp_copy_out_exact; try (destruct (Z.gtb_spec i32Cnt 8); lia).
    cbn beta iota.
    set (W := window hw _ 0 _).
    set (c := u32 (hw _ CTL)).
    rewrite (s32_small (i32Cnt - 8)) by lia.
    destruct (Z.gtb_spec (i32Cnt - 8) 0) as [Hmore | Hlast].
    + destruct (Z.gtb_spec i32Cnt 8) as [_ | ?]; [| lia].
      change (Z.to_nat 8) with 8%nat in *.
      assert (HW : length W = 8%nat) by apply window_length.
      rewrite s32_small by lia. hist.
      eapply wp_mono.
      { apply (IH KS_CTL_CONT_Msk (i32Cnt - 8) (offset + 8) _ _ (S k)); try lia.
        - pose proof (chunk_count_step i32Cnt) as Hstep.
          rewrite s32_small in Hstep by lia. specialize (Hstep Hmore). lia.
        - rewrite !length_app, length_take, length_drop, HW. lia.  }
      intros r d2 b2 (Hr & Hn & (first & rest & Hctl & Hfirst & Hrest) & Htags & Hbuf).
      unfold read_run.
      cbn [ctl_writes window_reads]. observe.
      split; [exact Hr |]. split; [| split; [| split]].
      * cbn [length]. rewrite Hn.
        pose proof (chunk_count_step i32Cnt) as Hstep.
        rewrite s32_small in Hstep by lia. specialize (Hstep Hmore).
        pose proof (chunk_count_pos (i32Cnt - 8)). lia.
      * eexists _, _. split; [reflexivity |]. split.
        -- apply read_strobe_cont.
        -- rewrite Hctl. constructor; [| exact Hrest].
           rewrite Hfirst. apply Z.land_diag.
      * rewrite map_app, tagged_tags, HW, Htags.
        change (Z.of_nat 8) with 8. symmetry. apply chunk_tags_step. lia.
      * rewrite Hbuf, map_app, tagged_values.
        replace (Z.to_nat (offset + 8)) with (Z.to_nat offset + 8)%nat by lia.
        replace (Z.to_nat (offset + 8 + (i32Cnt - 8)))
          with ((Z.to_nat offset + 8) + Z.to_nat (i32Cnt - 8))%nat by lia.
        set (X := drop (Z.to_nat offset + 8) b).
        rewrite (app_assoc (take (Z.to_nat offset) b) W X).
        rewrite (take_app_length' (take (Z.to_nat offset) b ++ W))
          by (rewrite length_app, length_take, HW; lia).
        rewrite (drop_app_add' (take (Z.to_nat offset) b ++ W))
          by (rewrite length_app, length_take, HW; lia).
        subst X. rewrite drop_drop, <- !app_assoc.
        do 3 f_equal. f_equal. lia.
    + destruct (Z.gtb_spec i32Cnt 8) as [? | _]; [lia |].
      wp_steps. unfold read_run.
      assert (HW : length W = Z.to_nat i32Cnt) by apply window_length.
      rewrite !app_nil_r.
      cbn [ctl_writes window_reads]. observe.
      split; [reflexivity |]. split; [| split; [| split]].
      * rewrite chunk_count_last by (rewrite s32_small; lia). reflexivity.
      * eexists _, _. split; [reflexivity |]. split.
        -- apply read_strobe_cont.
        -- constructor.
      * rewrite tagged_tags, HW, Z2Nat.id by lia.
        symmetry. apply chunk_tags_last. lia.
      * rewrite tagged_values. do 3 f_equal. lia.
Qed.

End ReadTrace.

Lemma chunk_count_ceil n : 0 < n < 2 ^ 31 -> chunk_count n = (n + 7) / 8.
Proof.
  intros Hn. unfold chunk_count. rewrite s32_small by lia.
  destruct (Z.gtb_spec (n - 8) 0) as [Hgt | Hle].
  - replace (n + 7) with ((n - 8 + 7) + 1 * 8) by lia.
    rewrite Z.div_add by lia. lia.
  - apply Z.div_unique with (r := n - 1); lia.
Qed.

(** * Further reasoning about runs *)

(** ** The caller's buffer *)

Section Buffer.
Context {cfg : Config}.
Variable hw : Hardware.

Lemma Frame_bind {A B} (m : M A) (k : A -> M B) :
  Frame m -> (forall a, Frame (k a)) -> Frame (bind m k).
Proof.
  intros Hm Hk h b. wp_step.
  eapply wp_mono; [apply Hm |].
  intros r d b' ->. destruct r as [a | c | e]; try reflexivity.
  apply Hk.
Qed.

Lemma Frame_rd r : Frame (rd hw r).
Proof. intros h b. reflexivity. Qed.

Lemma Frame_wr r v : Frame (wr r v).
Proof. intros h b. reflexivity. Qed.

Lemma Frame_ret {A} (a : A) : Frame (ret a).
Proof. intros h b. reflexivity. Qed.

Lemma Frame_return_if c code : Frame (return_if c code).
Proof. intros h b. apply wp_return_if; reflexivity. Qed.

Lemma Frame_lift {A} (o : option A) : Frame (lift o).
Proof. intros h b. apply wp_lift. destruct o; reflexivity. Qed.

Lemma Frame_load i : Frame (load i).
Proof. intros h b. apply wp_load. destruct (array_get b i); reflexivity. Qed.

Lemma Frame_wait_on cond : Frame (wait_on hw cond).
Proof. intros h b. apply wp_wait_on; reflexivity. Qed.

Lemma Frame_for_loop n i body :
  (forall i, Frame (body i)) -> Frame (for_loop n i body).
Proof.
  intros Hbody. revert i. induction n as [| n IH]; intros i.
  - apply Frame_ret.
  - cbn [for_loop]. apply Frame_bind; [apply Hbody | intros _; apply IH].
Qed.

Lemma Frame_copy_in offset cnt : Frame (copy_in offset cnt).
Proof.
  apply Frame_for_loop. intros i.
  apply Frame_bind; [apply Frame_load | intros v; apply Frame_wr].
Qed.

Ltac frame_step :=
  lazymatch goal with
  | |- Frame (bind _ _) => apply Frame_bind; [| intros ? ]
  | |- Frame (if ?c then _ else _) => destruct c
  | |- Frame (rd _ _) => apply Frame_rd
  | |- Frame (wr _ _) => apply Frame_wr
  | |- Frame (ret _) => apply Frame_ret
  | |- Frame (return_if _ _) => apply Frame_return_if
  | |- Frame (lift _) => apply Frame_lift
  | |- Frame (wait_on _ _) => apply Frame_wait_on
  | |- Frame (copy_in _ _) => apply Frame_copy_in
  end.

Lemma Frame_write_chunks fuel :
  forall u32Cont i32Cnt offset,
    Frame (write_chunks hw fuel u32Cont i32Cnt offset).
Proof.
  induction fuel as [| fuel IH]; intros u32Cont i32Cnt offset.
  - intros h b. reflexivity.
  - cbn [write_chunks]. apply Frame_bind.
    + unfold write_chunk, wait_busy. repeat frame_step.
    + intros _. destruct (s32 (i32Cnt - 8) >? 0); [apply IH | apply Frame_ret].
Qed.

Lemma Frame_body op : keeps_buffer op = true -> Frame (body hw op).
Proof.
  intros Hop. destruct op; try discriminate Hop; unfold_op; unfold wait_busy.
  all: repeat first [ apply Frame_write_chunks | frame_step ].
Qed.

End Buffer.

(** ** Return codes *)

Section Codes.
Context {cfg : Config}.
Variable hw : Hardware.

Lemma Yields_bind {A} (P : Z -> Prop) (m : M A) (k : A -> M Z) :
  Early P m -> (forall a, Yields P (k a)) -> Yields P (bind m k).
Proof.
  intros Hm Hk h b. wp_step.
  eapply wp_mono; [apply Hm |].
  intros r d b' Hr. destruct r as [a | c | e]; try exact Hr.
  eapply wp_mono; [apply Hk |]. intros r' d' b'' Hr'. exact Hr'.
Qed.

Lemma Early_bind {A B} (P : Z -> Prop) (m : M A) (k : A -> M B) :
  Early P m -> (forall a, Early P (k a)) -> Early P (bind m k).
Proof.
  intros Hm Hk h b. wp_step.
  eapply wp_mono; [apply Hm |].
  intros r d b' Hr. destruct r as [a | c | e]; try exact Hr.
  eapply wp_mono; [apply Hk |]. intros r' d' b'' Hr'. exact Hr'.
Qed.

Lemma Early_rd P r : Early P (rd hw r).
Proof. intros h b. exact I. Qed.

Lemma Early_wr P r v : Early P (wr r v).
Proof. intros h b. exact I. Qed.

Lemma Early_ret {A} P (a : A) : Early P (ret a).
Proof. intros h b. exact I. Qed.

Lemma Early_return_if (P : Z -> Prop) c code :
  P code -> Early P (return_if c code).
Proof. intros Hc h b. apply wp_return_if; intros _; [exact Hc | exact I]. Qed.

Lemma Early_lift {A} P (o : option A) : Early P (lift o).
Proof. intros h b. apply wp_lift. destruct o; exact I. Qed.

Lemma Early_load P i : Early P (load i).
Proof. intros h b. apply wp_load. destruct (array_get b i); exact I. Qed.

Lemma Early_store P i v : Early P (store i v).
Proof. intros h b. apply wp_store; intros _; exact I. Qed.

Lemma Early_wait_on (P : Z -> Prop) cond :
  P KS_ERR_TIMEOUT -> Early P (wait_on hw cond).
Proof. intros Ht h b. apply wp_wait_on; intros; [exact I | exact Ht]. Qed.

Lemma Early_for_loop P n i body :
  (forall i, Early P (body i)) -> Early P (for_loop n i body).
Proof.
  intros Hbody. revert i. induction n as [| n IH]; intros i.
  - apply Early_ret.
  - cbn [for_loop]. apply Early_bind; [apply Hbody | intros _; apply IH].
Qed.

Lemma Early_copy_out P offset cnt : Early P (copy_out hw offset cnt).
Proof.
  apply Early_for_loop. intros i.
  apply Early_bind; [apply Early_rd | intros v; apply Early_store].
Qed.

Lemma Early_copy_in P offset cnt : Early P (copy_in offset cnt).
Proof.
  apply Early_for_loop. intros i.
  apply Early_bind; [apply Early_load | intros v; apply Early_wr].
Qed.

Lemma Yields_ret (P : Z -> Prop) c : P c -> Yields P (ret c).
Proof. intros Hc h b. exact Hc. Qed.

Ltac code := cbn [In]; tauto.

Ltac early_step :=
  lazymatch goal with
  | |- Early _ (bind _ _) => apply Early_bind; [| intros ? ]
  | |- Early _ (if ?c then _ else _) => destruct c
  | |- Early _ (rd _ _) => apply Early_rd
  | |- Early _ (wr _ _) => apply Early_wr
  | |- Early _ (ret _) => apply Early_ret
  | |- Early _ (return_if _ _) => apply Early_return_if; code
  | |- Early _ (lift _) => apply Early_lift
  | |- Early _ (wait_on _ _) => apply Early_wait_on; code
  | |- Early _ (copy_in _ _) => apply Early_copy_in
  | |- Early _ (copy_out _ _ _) => apply Early_copy_out
  end.

Lemma Early_read_chunks (P : Z -> Prop) fuel :
  P KS_ERR_TIMEOUT ->
  forall u32Cont i32Cnt offset,
    Early P (read_chunks hw fuel u32Cont i32Cnt offset).
Proof.
  intros Ht. induction fuel as [| fuel IH]; intros u32Cont i32Cnt offset.
  - intros h b. exact I.
  - cbn [read_chunks]. apply Early_bind.
    + unfold read_chunk, wait_busy.
      repeat first [ apply Early_wait_on; exact Ht | early_step ].
    + intros _. destruct (s32 (i32Cnt - 8) >? 0); [apply IH | apply Early_ret].
Qed.

Lemma Early_write_chunks (P : Z -> Prop) fuel :
  P KS_ERR_TIMEOUT ->
  forall u32Cont i32Cnt offset,
    Early P (write_chunks hw fuel u32Cont i32Cnt offset).
Proof.
  intros Ht. induction fuel as [| fuel IH]; intros u32Cont i32Cnt offset.
  - intros h b. exact I.
  - cbn [write_chunks]. apply Early_bind.
    + unfold write_chunk, wait_busy.
      repeat first [ apply Early_wait_on; exact Ht | early_step ].
    + intros _. destruct (s32 (i32Cnt - 8) >? 0); [apply IH | apply Early_ret].
Qed.

Ltac yields_step :=
  lazymatch goal with
  | |- Yields _ (bind _ _) => apply Yields_bind; [| intros ? ]
  | |- Yields _ (ret _) => apply Yields_ret
  | |- Early _ (read_chunks _ _ _ _ _) => apply Early_read_chunks; code
  | |- Early _ (write_chunks _ _ _ _ _) => apply Early_write_chunks; code
  | |- Early _ _ => early_step
  end.

Lemma Yields_body op : Yields (may_return op) (body hw op).
Proof.
  destruct op; unfold_op; unfold wait_busy, may_return.
  all: repeat yields_step.
  all: try code.
  - right. eexists. reflexivity.
  - match goal with |- context [if ?c then _ else _] => destruct c end; code.
Qed.

End Codes.

(** ** Disciplines *)

Section Disciplines.
Context {cfg : Config} {S : Type}.
Variable D : discipline S.
Variable hw : Hardware.

Lemma run_app s d1 d2 : run D s (d1 ++ d2) = run D (run D s d1) d2.
Proof. apply fold_left_app. Qed.

Lemma obeys_app s d1 d2 :
  obeys D s (d1 ++ d2) <-> obeys D s d1 /\ obeys D (run D s d1) d2.
Proof.
  revert s. induction d1 as [| e d1 IH]; intros s; cbn.
  - tauto.
  - rewrite IH. tauto.
Qed.

(** What a trace that obeys [D] means for each of its accesses. *)
Lemma obeys_split s d d1 e d2 :
  obeys D s d -> d = d1 ++ e :: d2 -> allow D (run D s d1) e.
Proof.
  intros Hd ->. apply obeys_app in Hd. destruct Hd as [_ [He _]]. exact He.
Qed.

Lemma wpo_mono {A} (m : M A) h b s (Q Q' : outcome A -> S -> Prop) :
  wpo D m h b s Q -> (forall r s', Q r s' -> Q' r s') -> wpo D m h b s Q'.
Proof.
  intros Hm HQ. eapply wp_mono; [exact Hm |].
  intros r d b' [Hd Hr]. split; [exact Hd | apply HQ; exact Hr].
Qed.

Lemma wpo_bind {A B} (m : M A) (k : A -> M B) h b s Q :
  wpo D m h b s
      (fun r s1 =>
         match r with
         | Next a => forall h' b', wpo D (k a) h' b' s1 Q
         | Return c => Q (Return c) s1
         | Abort e => Q (Abort e) s1
         end) ->
  wpo D (bind m k) h b s Q.
Proof.
  intros Hm. unfold wpo. wp_step.
  eapply wp_mono; [exact Hm |].
  intros r d1 b1 [Hd1 Hr]. destruct r as [a | c | e]; try (split; assumption).
  eapply wp_mono; [apply Hr |].
  intros r' d2 b2 [Hd2 Hr']. rewrite run_app. split; [| exact Hr'].
  apply obeys_app. split; assumption.
Qed.

Lemma wpo_ret {A} (a : A) h b s (Q : outcome A -> S -> Prop) :
  Q (Next a) s -> wpo D (ret a) h b s Q.
Proof. intros HQ. split; [exact I | exact HQ]. Qed.

Lemma wpo_rd r h b s (Q : outcome Z -> S -> Prop) :
  (forall v, allow D s (EvRead r v) /\ Q (Next v) (track D s (EvRead r v))) ->
  wpo D (rd hw r) h b s Q.
Proof.
  intros HQ. destruct (HQ (u32 (hw h r))) as [Ha Hr].
  split; [split; [exact Ha | exact I] | exact Hr].
Qed.

Lemma wpo_wr r v h b s (Q : outcome unit -> S -> Prop) :
  allow D s (EvWrite r v) -> Q (Next tt) (track D s (EvWrite r v)) ->
  wpo D (wr r v) h b s Q.
Proof. intros Ha Hr. split; [split; [exact Ha | exact I] | exact Hr]. Qed.

Lemma wpo_return_if (c : bool) code h b s (Q : outcome unit -> S -> Prop) :
  (c = true -> Q (Return code) s) -> (c = false -> Q (Next tt) s) ->
  wpo D (return_if c code) h b s Q.
Proof.
  intros Ht Hf. apply wp_return_if; intros Hc; (split; [exact I |]); auto.
Qed.

Lemma wpo_lift {A} (o : option A) h b s (Q : outcome A -> S -> Prop) :
  (forall r, Q r s) -> wpo D (lift o) h b s Q.
Proof. intros HQ. apply wp_lift. destruct o; (split; [exact I | apply HQ]). Qed.

Lemma wpo_load i h b s (Q : outcome Z -> S -> Prop) :
  (forall r, Q r s) -> wpo D (load i) h b s Q.
Proof.
  intros HQ. apply wp_load.
  destruct (array_get b i); (split; [exact I | apply HQ]).
Qed.

Lemma wpo_store i v h b s (Q : outcome unit -> S -> Prop) :
  (forall r, Q r s) -> wpo D (store i v) h b s Q.
Proof. intros HQ. apply wp_store; intros _; (split; [exact I | apply HQ]). Qed.

(** A polling loop, for a discipline that accepts every read of the status
    register. *)
Lemma obeys_polls s vs :
  (forall s' v, allow D s' (EvRead STS v)) -> obeys D s (map (EvRead STS) vs).
Proof.
  intros Hpoll. revert s. induction vs as [| v vs IH]; intros s; cbn; auto.
Qed.

Lemma wpo_wait_on cond h b s (Q : outcome unit -> S -> Prop) :
  (forall s' v, allow D s' (EvRead STS v)) ->
  (forall vs v, cond v = false ->
                Q (Next tt) (track D (run D s (map (EvRead STS) vs))
                                   (EvRead STS v))) ->
  (forall vs, Q (Return KS_ERR_TIMEOUT) (run D s (map (EvRead STS) vs))) ->
  wpo D (wait_on hw cond) h b s Q.
Proof.
  intros Hpoll Hclear Hexp. apply wp_wait_on.
  - intros vs v _ Hv _ _. split; [apply obeys_polls; exact Hpoll |].
    rewrite map_app, run_app. apply Hclear. exact Hv.
  - intros vs _ _ _. split; [apply obeys_polls; exact Hpoll | apply Hexp].
Qed.

(** A loop whose body keeps the state [s]. *)
Lemma wpo_for_loop n i body h b s (Q : outcome unit -> S -> Prop) :
  (forall i h b Q', (forall r, Q' r s) -> wpo D (body i) h b s Q') ->
  (forall r, Q r s) ->
  wpo D (for_loop n i body) h b s Q.
Proof.
  intros Hbody HQ. revert i h b.
  induction n as [| n IH]; intros i h b.
  - apply wpo_ret. apply HQ.
  - cbn [for_loop]. apply wpo_bind. apply Hbody.
    intros [[] | c | e]; [| apply HQ | apply HQ].
    intros h' b'. apply IH.
Qed.

End Disciplines.

Arguments wpo : simpl never.

(** One step of symbolic execution along a discipline. *)
Ltac wpo_step :=
  lazymatch goal with
  | |- forall _ _, wpo _ _ _ _ _ _ => intros ? ?
  | |- wpo _ (bind _ _) _ _ _ _ => apply wpo_bind
  | |- wpo _ (rd _ _) _ _ _ _ => apply wpo_rd; intros ?; split
  | |- wpo _ (wr _ _) _ _ _ _ => apply wpo_wr
  | |- wpo _ (ret _) _ _ _ _ => apply wpo_ret
  | |- wpo _ (lift ?o) _ _ _ _ => apply wpo_lift; intros [? | ? | ?]
  | |- wpo _ (return_if _ _) _ _ _ _ => apply wpo_return_if; intros ?
  | |- wpo _ (if ?c then _ else _) _ _ _ _ => destruct c eqn:?
  | |- wpo _ (wait_busy _) _ _ _ _ =>
      apply wpo_wait_on; [intros ? ?; exact I | intros ? ? ? | intros ?]
  | |- wpo _ (wait_on _ _) _ _ _ _ =>
      apply wpo_wait_on; [intros ? ?; exact I | intros ? ? ? | intros ?]
  end;
  cbn beta iota;
  cbn [track allow idle_discipline idle_track idle_allow
       clear_discipline clear_track clear_allow
       address_discipline address_track address_allow].

Ltac wpo_steps := repeat wpo_step.

Ltac settle :=
  cbn beta iota; try exact I;
  repeat match goal with
         | H : is_busy _ = false |- _ => rewrite H
         end;
  cbn [negb]; try reflexivity.

Section Idle.
Context {cfg : Config}.
Variable hw : Hardware.

Lemma copy_out_idle offset cnt h b s (Q : outcome unit -> bool -> Prop) :
  (forall r, Q r s) -> wpo idle_discipline (copy_out hw offset cnt) h b s Q.
Proof.
  intros HQ. apply wpo_for_loop; [| exact HQ].
  intros i h' b' Q' HQ'. wpo_steps; [exact I |].
  apply wpo_store. exact HQ'.
Qed.

Lemma copy_in_idle offset cnt h b s (Q : outcome unit -> bool -> Prop) :
  (forall r, Q r s) -> wpo idle_discipline (copy_in offset cnt) h b s Q.
Proof.
  intros HQ. apply wpo_for_loop; [| exact HQ].
  intros i h' b' Q' HQ'. wpo_step. apply wpo_load.
  intros [v | c | e]; [| apply HQ' | apply HQ'].
  wpo_steps; [exact I | apply HQ'].
Qed.

Lemma read_chunks_idle fuel :
  forall u32Cont i32Cnt offset h b (Q : outcome unit -> bool -> Prop),
    Q (Next tt) true -> (forall c s, Q (Return c) s) ->
    (forall e s, Q (Abort e) s) ->
    wpo idle_discipline (read_chunks hw fuel u32Cont i32Cnt offset) h b true Q.
Proof.
  induction fuel as [| fuel IH];
    intros u32Cont i32Cnt offset h b Q Hnext Hret Habort.
  - split; [exact I | apply Habort].
  - cbn [read_chunks]. wpo_step. unfold read_chunk. wpo_steps; settle; auto.
    apply copy_out_idle. intros [[] | c | e]; settle; auto.
    wpo_steps; auto.
Qed.

Lemma write_chunks_idle fuel :
  forall u32Cont i32Cnt offset h b (Q : outcome unit -> bool -> Prop),
    Q (Next tt) true -> (forall c s, Q (Return c) s) ->
    (forall e s, Q (Abort e) s) ->
    wpo idle_discipline (write_chunks hw fuel u32Cont i32Cnt offset) h b true Q.
Proof.
  induction fuel as [| fuel IH];
    intros u32Cont i32Cnt offset h b Q Hnext Hret Habort.
  - split; [exact I | apply Habort].
  - cbn [write_chunks]. wpo_step. unfold write_chunk. wpo_step.
    apply copy_in_idle. intros [[] | c | e]; settle; auto.
    wpo_steps; settle; auto.
Qed.

Lemma body_idle op h b :
  wpo idle_discipline (body hw op) h b false (fun _ _ => True).
Proof.
  destruct op; unfold_op.
  all: repeat (first [ wpo_step
                     | apply read_chunks_idle;
                       [| intros; exact I | intros; exact I]
                     | apply write_chunks_idle;
                       [| intros; exact I | intros; exact I]
                     | apply copy_in_idle; intros [[] | ? | ?] ];
               settle).
Qed.

End Idle.

Section Clearing.
Context {cfg : Config}.
Variable hw : Hardware.

Lemma copy_out_clear offset cnt h b (Q : outcome unit -> bool -> Prop) :
  (forall r, Q r false) ->
  wpo clear_discipline (copy_out hw offset cnt) h b false Q.
Proof.
  intros HQ. apply wpo_for_loop; [| exact HQ].
  intros i h' b' Q' HQ'. wpo_steps; [exact I |].
  apply wpo_store. exact HQ'.
Qed.

Lemma copy_in_clear offset cnt h b (Q : outcome unit -> bool -> Prop) :
  (forall r, Q r false) ->
  wpo clear_discipline (copy_in offset cnt) h b false Q.
Proof.
  intros HQ. apply wpo_for_loop; [| exact HQ].
  intros i h' b' Q' HQ'. wpo_step. apply wpo_load.
  intros [v | c | e]; [| apply HQ' | apply HQ'].
  wpo_steps; [exact I | apply HQ'].
Qed.

Lemma read_chunks_clear fuel :
  forall u32Cont i32Cnt offset h b (Q : outcome unit -> bool -> Prop),
    Q (Next tt) false -> (forall c s, Q (Return c) s) ->
    (forall e s, Q (Abort e) s) ->
    wpo clear_discipline (read_chunks hw fuel u32Cont i32Cnt offset) h b
        false Q.
Proof.
  induction fuel as [| fuel IH];
    intros u32Cont i32Cnt offset h b Q Hnext Hret Habort.
  - split; [exact I | apply Habort].
  - cbn [read_chunks]. wpo_step. unfold read_chunk. wpo_steps; settle; auto.
    apply copy_out_clear. intros [[] | c | e]; settle; auto.
    wpo_steps; auto.
Qed.

Lemma write_chunks_clear fuel :
  forall u32Cont i32Cnt offset h b (Q : outcome unit -> bool -> Prop),
    Q (Next tt) false -> (forall c s, Q (Return c) s) ->
    (forall e s, Q (Abort e) s) ->
    wpo clear_discipline (write_chunks hw fuel u32Cont i32Cnt offset) h b
        false Q.
Proof.
  induction fuel as [| fuel IH];
    intros u32Cont i32Cnt offset h b Q Hnext Hret Habort.
  - split; [exact I | apply Habort].
  - cbn [write_chunks]. wpo_step. unfold write_chunk. wpo_step.
    apply copy_in_clear. intros [[] | c | e]; settle; auto.
    wpo_steps; settle; auto.
Qed.

Lemma body_clear op h b :
  checks_busy op = true ->
  wpo clear_discipline (body hw op) h b false (fun _ _ => True).
Proof.
  intros Hop. destruct op; try discriminate Hop; unfold_op.
  all: repeat (first [ wpo_step
                     | apply read_chunks_clear;
                       [| intros; exact I | intros; exact I]
                     | apply write_chunks_clear;
                       [| intros; exact I | intros; exact I]
                     | apply copy_in_clear; intros [[] | ? | ?] ];
               settle).
Qed.

End Clearing.

Section Addressing.
Context {cfg : Config}.
Variable hw : Hardware.

Lemma address_polls s vs :
  run address_discipline s (map (EvRead STS) vs) = s.
Proof.
  revert s. induction vs as [| v vs IH]; intros s; [reflexivity |].
  change (run address_discipline (address_track s (EvRead STS v))
              (map (EvRead STS) vs) = s).
  apply IH.
Qed.

Lemma copy_out_address offset cnt h b (Q : outcome unit -> bool -> Prop) :
  (forall r, Q r true) ->
  wpo address_discipline (copy_out hw offset cnt) h b true Q.
Proof.
  intros HQ. apply wpo_for_loop; [| exact HQ].
  intros i h' b' Q' HQ'. wpo_steps; [exact I |].
  apply wpo_store. exact HQ'.
Qed.

Lemma copy_in_address offset cnt h b (Q : outcome unit -> bool -> Prop) :
  (forall r, Q r true) ->
  wpo address_discipline (copy_in offset cnt) h b true Q.
Proof.
  intros HQ. apply wpo_for_loop; [| exact HQ].
  intros i h' b' Q' HQ'. wpo_step. apply wpo_load.
  intros [v | c | e]; [| apply HQ' | apply HQ'].
  wpo_steps; [reflexivity | apply HQ'].
Qed.

Ltac settled := settle; rewrite ?address_polls; auto.

Lemma read_chunks_address fuel :
  forall u32Cont i32Cnt offset h b (Q : outcome unit -> bool -> Prop),
    Q (Next tt) true -> (forall c s, Q (Return c) s) ->
    (forall e s, Q (Abort e) s) ->
    wpo address_discipline (read_chunks hw fuel u32Cont i32Cnt offset) h b
        true Q.
Proof.
  induction fuel as [| fuel IH];
    intros u32Cont i32Cnt offset h b Q Hnext Hret Habort.
  - split; [exact I | apply Habort].
  - cbn [read_chunks]. wpo_step. unfold read_chunk. wpo_steps; settled.
    apply copy_out_address. intros [[] | c | e]; settled.
    wpo_steps; auto.
Qed.

Lemma write_chunks_address fuel :
  forall u32Cont i32Cnt offset h b (Q : outcome unit -> bool -> Prop),
    Q (Next tt) true -> (forall c s, Q (Return c) s) ->
    (forall e s, Q (Abort e) s) ->
    wpo address_discipline (write_chunks hw fuel u32Cont i32Cnt offset) h b
        true Q.
Proof.
  induction fuel as [| fuel IH];
    intros u32Cont i32Cnt offset h b Q Hnext Hret Habort.
  - split; [exact I | apply Habort].
  - cbn [write_chunks]. wpo_step. unfold write_chunk. wpo_step.
    apply copy_in_address. intros [[] | c | e]; settled.
    wpo_steps; settled.
Qed.

Lemma body_address op h b :
  checks_busy op = true ->
  wpo address_discipline (body hw op) h b false (fun _ _ => True).
Proof.
  intros Hop. destruct op; try discriminate Hop; unfold_op.
  all: repeat (first [ wpo_step
                     | apply read_chunks_address;
                       [| intros; exact I | intros; exact I]
                     | apply write_chunks_address;
                       [| intros; exact I | intros; exact I]
                     | apply copy_in_address; intros [[] | ? | ?] ];
               settled).
Qed.

End Addressing.

(** ** Reads that end early *)

Section PartialRead.
Context {cfg : Config}.
Variable hw : Hardware.

(** Storing [rest] after the words [W] that were stored from [offset]
    on. *)
Lemma stored_chunk (b W rest : list Z) (offset n : nat) :
  length W = n -> (offset + n <= length b)%nat ->
  take (offset + n) (take offset b ++ W ++ drop (offset + n) b) ++ rest
    ++ drop (offset + n + length rest)
         (take offset b ++ W ++ drop (offset + n) b)
  = take offset b ++ (W ++ rest) ++ drop (offset + (n + length rest)) b.
Proof.
  intros HW Hlen.
  rewrite (app_assoc (take offset b) W).
  rewrite (take_app_length' (take offset b ++ W))
    by (rewrite length_app, length_take; lia).
  rewrite (drop_app_add' (take offset b ++ W))
    by (rewrite length_app, length_take; lia).
  rewrite drop_drop, <- !app_assoc, Nat.add_assoc. reflexivity.
Qed.

Lemma read_chunks_partial fuel :
  forall u32Cont i32Cnt offset h b k,
    (Z.to_nat (chunk_count i32Cnt) <= fuel)%nat ->
    - 2 ^ 31 + 8 <= i32Cnt -> 0 <= offset ->
    offset + i32Cnt <= Z.of_nat (length b) -> offset + i32Cnt < 2 ^ 31 ->
    wp (read_chunks hw fuel u32Cont i32Cnt offset) h b
       (fun r d b' =>
          (forall e, r <> Abort e) /\
          (r = Next tt /\
           Z.of_nat (length (window_reads k d)) = Z.max 0 i32Cnt \/
           r = Return KS_ERR_TIMEOUT /\
           exists j, 0 <= j /\ Z.of_nat (length (window_reads k d)) = 8 * j /\
                     8 * j < Z.max 1 i32Cnt) /\
          b' = take (Z.to_nat offset) b ++ map snd (window_reads k d)
                 ++ drop (Z.to_nat offset + length (window_reads k d)) b).
Proof.
  induction fuel as [| fuel IH];
    intros u32Cont i32Cnt offset h b k Hfuel Hcnt Hoff Hlen Hmax.
  - pose proof (chunk_count_pos i32Cnt). lia.
  - cbn [read_chunks]. wp_step. unfold read_chunk. wp_steps.
    apply wp_wait_busy.
    2:{ intros vs _ _ _. cbn [ctl_writes window_reads app]. observe.
        cbn [window_reads length map app].
        rewrite take_drop.
        split; [discriminate | split; [| reflexivity]].
        right. split; [reflexivity |]. exists 0. cbn. lia. }
    intros vs v _ _ _ _. cbn beta iota.
    apply wp_copy_out_exact; try (destruct (Z.gtb_spec i32Cnt 8); lia).
    cbn beta iota.
    set (W := window hw _ 0 _).
    rewrite (s32_small (i32Cnt - 8)) by lia.
    destruct (Z.gtb_spec (i32Cnt - 8) 0) as [Hmore | Hlast].
    + destruct (Z.gtb_spec i32Cnt 8) as [_ | ?]; [| lia].
      change (Z.to_nat 8) with 8%nat in *.
      assert (HW : length W = 8%nat) by apply window_length.
      rewrite s32_small by lia.
      eapply wp_mono.
      { apply (IH KS_CTL_CONT_Msk (i32Cnt - 8) (offset + 8) _ _ (S k)); try lia.
        - pose proof (chunk_count_step i32Cnt) as Hstep.
          rewrite s32_small in Hstep by lia. specialize (Hstep Hmore). lia.
        - rewrite !length_app, length_take, length_drop, HW. lia. }
      intros r d2 b2 (Hr & Hn & Hbuf).
      cbn [ctl_writes window_reads app]. observe.
      cbn [window_reads app]. observe. cbn [Nat.add].
      split; [exact Hr |].
      rewrite length_app, map_app, tagged_values.
      assert (Ht : length (tagged (S k) 0 W) = 8%nat).
      { rewrite <- (length_map snd), tagged_values. exact HW. }
      rewrite Ht. split.
      { destruct Hn as [[-> Hn] | [-> (j & Hj & Hn & Hlt)]].
        - left. split; [reflexivity | lia].
        - right. split; [reflexivity |]. exists (j + 1). lia. }
      rewrite Hbuf.
      replace (Z.to_nat (offset + 8)) with (Z.to_nat offset + 8)%nat by lia.
      rewrite <- (length_map snd (window_reads (S k) d2)).
      apply stored_chunk; [exact HW | lia].
    + destruct (Z.gtb_spec i32Cnt 8) as [? | _]; [lia |].
      wp_steps.
      assert (HW : length W = Z.to_nat i32Cnt) by apply window_length.
      rewrite !app_nil_r.
      cbn [ctl_writes window_reads app]. observe.
      cbn [window_reads app]. observe.
      split; [discriminate |].
      assert (Ht : length (tagged (S k) 0 W) = Z.to_nat i32Cnt).
      { rewrite <- (length_map snd), tagged_values. exact HW. }
      rewrite Ht, tagged_values.
      split; [left; split; [reflexivity | lia] | reflexivity].
Qed.

End PartialRead.

(** Symbolic execution through the checks and the polling loops. *)
Ltac wp_walk :=
  repeat first
    [ wp_step
    | apply wp_return_if; intros ?
    | apply wp_wait_busy; [intros ? ? ? ? ? ? | intros ? ? ? ?]
    | apply wp_wait_on; [intros ? ? ? ? ? ? | intros ? ? ? ?]
    | match goal with
      | |- wp (if ?c then _ else _) _ _ _ => destruct c eqn:?
      end ];
  cbn beta iota.

(** ** Array bounds *)

Section Bounds.
Context {cfg : Config}.
Variable hw : Hardware.

Lemma write_chunks_safe fuel :
  forall u32Cont i32Cnt offset h b,
    (Z.to_nat (chunk_count i32Cnt) <= fuel)%nat ->
    0 < i32Cnt -> 0 <= offset ->
    offset + i32Cnt <= Z.of_nat (length b) -> offset + i32Cnt < 2 ^ 31 ->
    wp (write_chunks hw fuel u32Cont i32Cnt offset) h b
       (fun r _ b' => (forall e, r <> Abort e) /\ b' = b).
Proof.
  induction fuel as [| fuel IH];
    intros u32Cont i32Cnt offset h b Hfuel Hcnt Hoff Hlen Hmax.
  - pose proof (chunk_count_pos i32Cnt). lia.
  - cbn [write_chunks]. wp_step. unfold write_chunk. wp_step.
    apply wp_copy_in; try (destruct (Z.gtb_spec i32Cnt 8); lia).
    wp_steps.
    apply wp_wait_busy;
      [intros vs v _ _ _ _ | intros vs _ _ _; split; [discriminate | reflexivity]].
    cbn beta iota.
    rewrite (s32_small (i32Cnt - 8)) by lia.
    destruct (Z.gtb_spec (i32Cnt - 8) 0) as [Hmore | Hlast].
    + rewrite s32_small by lia.
      eapply wp_mono.
      { apply (IH KS_CTL_CONT_Msk (i32Cnt - 8) (offset + 8)); try lia.
        pose proof (chunk_count_step i32Cnt) as Hstep.
        rewrite s32_small in Hstep by lia. specialize (Hstep Hmore). lia. }
      intros r d b' Hr. exact Hr.
    + wp_steps. split; [discriminate | reflexivity].
Qed.

Lemma wp_conj {A} (m : M A) h b
      (Q1 Q2 : outcome A -> list event -> list Z -> Prop) :
  wp m h b Q1 -> wp m h b Q2 -> wp m h b (fun r d b' => Q1 r d b' /\ Q2 r d b').
Proof. unfold wp. destruct (m h b). auto. Qed.

Lemma body_in_bounds op h b :
  holds_key op b ->
  wp (body hw op) h b (fun r _ _ => forall e, r <> Abort e).
Proof.
  intros Hkey. destruct op; unfold_op; cbn [holds_key] in Hkey.
  - (* KS_Open *)
    wp_walk; discriminate.
  - (* KS_Read *)
    wp_walk; [discriminate |].
    eapply wp_mono.
    { apply (read_chunks_partial hw _ 0 (s32 u32WordCnt) 0 _ _ 0%nat);
        try lia.
      pose proof (s32_range u32WordCnt). lia. }
    intros r d b' (Hr & _ & _). destruct r as [[] | c | e]; [| discriminate | destruct (Hr e eq_refl)].
    wp_walk; discriminate.
  - (* KS_Write *)
    destruct Hkey as (w & Hw & Hfit).
    wp_walk; [discriminate |]. rewrite Hw. cbn beta iota.
    wp_walk; [discriminate | discriminate |].
    pose proof (word_count_range _ _ Hw) as Hrange.
    match goal with H : (w =? 0) = false |- _ => apply Z.eqb_neq in H end.
    assert (Hlen : w <= Z.of_nat (length b)).
    { destruct Hfit as [? | [[Hotp Hlong] | ?]]; [lia | | assumption].
      match goal with H : _ && _ = false |- _ => rename H into Hc end.
      apply andb_false_iff in Hc. destruct Hc as [Hc | Hc].
      - apply Z.eqb_neq in Hc. contradiction.
      - destruct (Z.gtb_spec w 8); [discriminate | lia]. }
    eapply wp_mono.
    { apply (write_chunks_safe _ 0 w 0); lia. }
    intros r d b' [Hr ->]. destruct r as [[] | c | e]; [| discriminate | destruct (Hr e eq_refl)].
    wp_walk; discriminate.
  - wp_walk; discriminate.
  - wp_walk; discriminate.
  - wp_walk; discriminate.
  - wp_walk; discriminate.
  - wp_walk; discriminate.
  - (* KS_WriteOTP *)
    wp_walk; [discriminate | discriminate |].
    match goal with H : (_ >? _) = false |- _ => rename H into Hc end.
    destruct Hkey as [Hlong | (w & Hw & Hlen)].
    { destruct (Z.gtb_spec (s32 (size_field u32Meta))
                           (Z.shiftr KS_META_256 KS_METADATA_SIZE_Pos));
        [discriminate | lia]. }
    rewrite Hw. cbn beta iota. wp_step.
    pose proof (otp_count_range _ _ Hw) as Hrange.
    apply wp_copy_in; try lia.
    wp_walk; discriminate.
  - wp_walk; discriminate.
Qed.

End Bounds.

(** ** The chunks of a write *)

Section WriteObservations.

Lemma ctl_writes_key_writes i ws : ctl_writes (key_writes i ws) = [].
Proof. revert i. induction ws as [| w ws IH]; intros i; cbn; auto. Qed.

Lemma window_writes_app k d1 d2 :
  window_writes k (d1 ++ d2)
    = window_writes k d1 ++ window_writes (k + length (ctl_writes d1)) d2.
Proof.
  revert k. induction d1 as [| [[| | | i] v | [| | | i] v] d1 IH]; intros k;
    cbn [app window_writes ctl_writes length]; rewrite ?IH;
    rewrite ?Nat.add_0_r, ?Nat.add_succ_r; reflexivity.
Qed.

Lemma window_writes_polls k vs : window_writes k (map (EvRead STS) vs) = [].
Proof. induction vs as [| v vs IH]; cbn; auto. Qed.

Lemma window_writes_key_writes k i ws :
  window_writes k (key_writes i ws) = tagged k i ws.
Proof.
  revert i. induction ws as [| w ws IH]; intros i; cbn; rewrite ?IH; reflexivity.
Qed.

Lemma write_tags_last k n :
  0 <= n <= 8 ->
  map (fun j => ((k + Z.to_nat (j / 8))%nat, j mod 8)) (seqZ 0 n)
    = map (fun j => (k, j)) (seqZ 0 n).
Proof.
  intros Hn. apply map_ext_in. intros j Hj.
  apply list_elem_of_In, elem_of_seqZ in Hj.
  rewrite Z.div_small, Z.mod_small by lia. f_equal. cbn. lia.
Qed.

Lemma write_tags_step k n :
  8 < n ->
  map (fun j => ((k + Z.to_nat (j / 8))%nat, j mod 8)) (seqZ 0 n)
    = map (fun j => (k, j)) (seqZ 0 8)
      ++ map (fun j => ((S k + Z.to_nat (j / 8))%nat, j mod 8)) (seqZ 0 (n - 8)).
Proof.
  intros Hn. replace n with (8 + (n - 8)) at 1 by lia.
  rewrite seqZ_app by lia. rewrite map_app. f_equal.
  - apply write_tags_last. lia.
  - change (0 + 8) with (8 + 0). rewrite <- fmap_add_seqZ.
    change (Z.add 8 <$> seqZ 0 (n - 8)) with (map (Z.add 8) (seqZ 0 (n - 8))).
    rewrite map_map. apply map_ext_in. intros j Hj.
    apply list_elem_of_In, elem_of_seqZ in Hj.
    replace (8 + j) with (j + 1 * 8) by lia.
    rewrite Z.div_add, Z.mod_add by lia.
    f_equal. rewrite Z2Nat.inj_add by (try apply Z.div_pos; lia). cbn. lia.
Qed.

End WriteObservations.

Ltac observe_writes :=
  do 4 (cbn [ctl_writes window_writes app length Nat.add];
        repeat first [ rewrite ctl_writes_app | rewrite ctl_writes_reads
                     | rewrite ctl_writes_key_writes | rewrite window_writes_app
                     | rewrite window_writes_polls
                     | rewrite window_writes_key_writes ];
        rewrite ?Nat.add_0_r).

Section WriteTrace.
Context {cfg : Config}.
Variable hw : Hardware.
Variable h : list event.

Hypothesis Hclear :
  forall d, (poll_budget (u32 KS_TIMEOUT) <= S (trailing_polls d))%nat ->
            is_busy (sts_after hw (h ++ d)) = false.
Hypothesis Hlayout : write_layout.

Lemma write_strobe_cont u32Cont c :
  Z.land (Z.lor (Z.lor (Z.lor u32Cont KS_OP_WRITE) KS_CTL_START_Msk) (ctl_keep c))
         KS_CTL_CONT_Msk
    = Z.land u32Cont KS_CTL_CONT_Msk.
Proof.
  unfold write_layout in Hlayout. unfold ctl_keep.
  assert (Hbit : forall n,
             (Z.testbit KS_OP_WRITE n || Z.testbit KS_CTL_START_Msk n
              || (Z.testbit KS_CTL_SILENT_Msk n || Z.testbit KS_CTL_SCMB_Msk n))
             && Z.testbit KS_CTL_CONT_Msk n = false).
  { intros n. rewrite <- !Z.lor_spec, <- Z.land_spec, Hlayout. apply Z.bits_0. }
  apply Z.bits_inj'. intros n _. specialize (Hbit n).
  rewrite !Z.land_spec, !Z.lor_spec, Z.land_spec, Z.lor_spec.
  destruct (Z.testbit u32Cont n), (Z.testbit KS_OP_WRITE n),
    (Z.testbit KS_CTL_START_Msk n), (Z.testbit c n),
    (Z.testbit KS_CTL_SILENT_Msk n), (Z.testbit KS_CTL_SCMB_Msk n),
    (Z.testbit KS_CTL_CONT_Msk n); cbn in *; congruence.
Qed.

(** What the loop of [KS_Write] does when every wait ends in time. *)
Lemma write_chunks_run fuel :
  forall u32Cont i32Cnt offset d b k,
    (Z.to_nat (chunk_count i32Cnt) <= fuel)%nat ->
    0 < i32Cnt -> 0 <= offset ->
    offset + i32Cnt <= Z.of_nat (length b) -> offset + i32Cnt < 2 ^ 31 ->
    wp (write_chunks hw fuel u32Cont i32Cnt offset) (h ++ d) b
       (fun r d' b' =>
          r = Next tt /\ b' = b /\
          length (ctl_writes d') = Z.to_nat (chunk_count i32Cnt) /\
          (exists first rest,
              ctl_writes d' = first :: rest /\
              Z.land first KS_CTL_CONT_Msk = Z.land u32Cont KS_CTL_CONT_Msk /\
              Forall (fun v => Z.land v KS_CTL_CONT_Msk = KS_CTL_CONT_Msk) rest) /\
          map fst (window_writes k d')
            = map (fun j => ((k + Z.to_nat (j / 8))%nat, j mod 8))
                  (seqZ 0 i32Cnt) /\
          map snd (window_writes k d')
            = take (Z.to_nat i32Cnt) (drop (Z.to_nat offset) b)).
Proof.
  induction fuel as [| fuel IH];
    intros u32Cont i32Cnt offset d b k Hfuel Hcnt Hoff Hlen Hmax.
  - pose proof (chunk_count_pos i32Cnt). lia.
  - cbn [write_chunks]. wp_step. unfold write_chunk. wp_step.
    apply wp_copy_in; try (destruct (Z.gtb_spec i32Cnt 8); lia).
    wp_steps. hist.
    apply wp_wait_busy_clears; [exact Hclear |]. intros vs v. cbn beta iota.
    set (W := take _ (drop (Z.to_nat offset) b)).
    rewrite (s32_small (i32Cnt - 8)) by lia.
    destruct (Z.gtb_spec (i32Cnt - 8) 0) as [Hmore | Hlast].
    + destruct (Z.gtb_spec i32Cnt 8) as [_ | ?]; [| lia].
      change (Z.to_nat 8) with 8%nat in *.
      assert (HW : length W = 8%nat).
      { subst W. rewrite length_take, length_drop. lia. }
      rewrite s32_small by lia. hist.
      eapply wp_mono.
      { apply (IH KS_CTL_CONT_Msk (i32Cnt - 8) (offset + 8) _ b (S k)); try lia.
        pose proof (chunk_count_step i32Cnt) as Hstep.
        rewrite s32_small in Hstep by lia. specialize (Hstep Hmore). lia. }
      intros r d2 b2 (Hr & Hb & Hn & (first & rest & Hctl & Hfirst & Hrest)
                      & Htags & Hvals).
      observe_writes.
      split; [exact Hr |]. split; [exact Hb |]. split; [| split; [| split]].
      * cbn [length]. rewrite Hn.
        pose proof (chunk_count_step i32Cnt) as Hstep.
        rewrite s32_small in Hstep by lia. specialize (Hstep Hmore).
        pose proof (chunk_count_pos (i32Cnt - 8)). lia.
      * eexists _, _. split; [reflexivity |]. split.
        -- apply write_strobe_cont.
        -- rewrite Hctl. constructor; [| exact Hrest].
           rewrite Hfirst. apply Z.land_diag.
      * rewrite app_nil_r, map_app, tagged_tags, HW.
        replace (k + 1)%nat with (S k) by lia. rewrite Htags.
        change (Z.of_nat 8) with 8. symmetry. apply write_tags_step. lia.
      * rewrite app_nil_r, map_app, tagged_values.
        replace (k + 1)%nat with (S k) by lia. rewrite Hvals.
        subst W.
        replace (Z.to_nat (offset + 8)) with (Z.to_nat offset + 8)%nat by lia.
        rewrite <- drop_drop, take_take_drop. f_equal. lia.
    + destruct (Z.gtb_spec i32Cnt 8) as [? | _]; [lia |].
      wp_steps.
      assert (HW : length W = Z.to_nat i32Cnt).
      { subst W. rewrite length_take, length_drop. lia. }
      rewrite !app_nil_r.
      observe_writes.
      split; [reflexivity |]. split; [reflexivity |].
      split; [| split; [| split]].
      * rewrite chunk_count_last by (rewrite s32_small; lia). reflexivity.
      * eexists _, _. split; [reflexivity |]. split.
        -- apply write_strobe_cont.
        -- constructor.
      * rewrite ?app_nil_r.
        rewrite tagged_tags, HW, Z2Nat.id by lia.
        symmetry. apply write_tags_last. lia.
      * rewrite ?app_nil_r.
        apply tagged_values.
Qed.

End WriteTrace.

(** Bringing a trace to the form of a list of accesses. *)
Ltac flatten :=
  cbn [events res keybuf];
  do 3 (cbn [app map]; rewrite ?app_nil_r, ?map_app, <- ?app_assoc);
  cbn [app map].

(** ** Commands of a single transaction *)

(** Symbolic execution up to the wait for the busy flag. *)
Ltac wp_to_wait :=
  repeat lazymatch goal with
         | |- wp (bind (wait_busy _) _) _ _ _ => fail
         | _ => wp_step
         end.

Section SingleShot.
Context {cfg : Config}.
Variable hw : Hardware.

(** The end of every command: the wait for the busy flag and the check of
    the error flag. *)
Lemma wp_completion (ok : Z) h b
      (Q : outcome Z -> list event -> list Z -> Prop) :
  (forall d c, completion ok d c -> Q (Return c) d b) ->
  (forall d, completion ok d ok -> Q (Next ok) d b) ->
  wp (wait_busy hw ;;
      sts <- rd hw STS ;;
      return_if (bit_set sts KS_STS_EIF_Msk) KS_ERR_FAIL ;;
      ret ok) h b Q.
Proof.
  intros Hret Hnext. wp_step. apply wp_wait_busy.
  - intros vs v Hall Hv Hlen _. wp_steps.
    set (s := u32 (hw _ STS)).
    pose proof (completion_checked ok vs v s Hall Hv Hlen) as Hc.
    apply wp_return_if; intros Hs; rewrite Hs in Hc.
    + rewrite app_nil_r. apply Hret. exact Hc.
    + wp_steps. rewrite !app_nil_r. apply Hnext. exact Hc.
  - intros vs Hall Hlen _. apply Hret.
    apply completion_expired; assumption.
Qed.

End SingleShot.

(** ** Keys shorter than their size class *)

Section ShortBuffer.
Context {cfg : Config}.

Lemma for_loop_copy_in_short offset n i h b :
  0 <= offset -> 0 <= i ->
  offset + i <= Z.of_nat (length b) < offset + i + Z.of_nat n ->
  offset + i + Z.of_nat n <= 2 ^ 31 ->
  for_loop n i (fun i => v <- load (s32 (offset + i)) ;; wr (KEY i) v) h b
    = mkEffect (Abort OutOfBounds)
        (key_writes i (drop (Z.to_nat (offset + i)) b)) b.
Proof.
  revert i h. induction n as [| n IH]; intros i h Hoff Hi Hlen Hmax.
  - lia.
  - cbn [for_loop]. unfold bind at 1. unfold bind at 1.
    unfold load, array_get. rewrite s32_small by lia.
    destruct (Z.ltb_spec (offset + i) 0) as [Hneg | _]; [lia |].
    destruct (b !! Z.to_nat (offset + i)) as [w |] eqn:Hw.
    + pose proof (lookup_lt_Some _ _ _ Hw) as Hlt. cbn.
      rewrite IH by lia. cbn.
      replace (Z.to_nat (offset + (i + 1))) with (S (Z.to_nat (offset + i)))
        by lia.
      rewrite (drop_S _ _ _ Hw). reflexivity.
    + apply lookup_ge_None in Hw. cbn.
      rewrite drop_ge by lia. reflexivity.
Qed.

End ShortBuffer.

(** ** The capacity counters *)

Section CapacityFacts.
Context {cfg : Config} {cnt : Counters}.
Variable ks : counter -> Z.

Lemma field_bound r msk pos :
  0 <= msk -> 0 <= pos -> 0 <= field ks r msk pos <= msk.
Proof.
  intros Hmsk Hpos. unfold field.
  pose proof (u32_range (ks r)) as Hx.
  assert (Hland : 0 <= Z.land (u32 (ks r)) msk <= msk).
  { apply Z.ldiff_le; [exact Hmsk |].
    apply Z.bits_inj'. intros n _.
    rewrite Z.ldiff_spec, Z.land_spec, Z.bits_0.
    destruct (Z.testbit (u32 (ks r)) n), (Z.testbit msk n); reflexivity. }
  rewrite Z.shiftr_div_pow2 by exact Hpos.
  assert (H2 : 0 < 2 ^ pos) by (apply Z.pow_pos_nonneg; lia).
  split; [apply Z.div_pos; lia |].
  apply Z.le_trans with (Z.land (u32 (ks r)) msk); [| lia].
  apply Z.div_le_upper_bound; [lia |]. nia.
Qed.

End CapacityFacts.

(** ** Waits that cannot end *)

Section Stuck.
Context {cfg : Config}.
Variable hw : Hardware.



Variable R : Prop.





End Stuck.

Section NoStrobe.
Context {cfg : Config}.
Variable hw : Hardware.

Lemma for_loop_silent n i body h b :
  (forall i h b, wp (body i) h b silent) ->
  wp (for_loop n i body) h b silent.
Proof.
  intros Hbody. revert i h b. induction n as [| n IH]; intros i h b.
  - apply wp_ret. split; [reflexivity | split; [reflexivity | discriminate]].
  - cbn [for_loop]. wp_step. eapply wp_mono; [apply Hbody |].
    intros [[] | c | e] d1 b1 (Hd1 & Hp1 & Hr); cbn beta iota.
    + eapply wp_mono; [apply IH |].
      intros r d2 b2 (Hd2 & Hp2 & Hr2). split; [| split; [| exact Hr2]].
      * rewrite ctl_writes_app, Hd1, Hd2. reflexivity.
      * rewrite polls_app, Hp1, Hp2. reflexivity.
    + destruct (Hr c eq_refl).
    + split; [exact Hd1 | split; [exact Hp1 | discriminate]].
Qed.

Lemma copy_out_silent offset cnt h b : wp (copy_out hw offset cnt) h b silent.
Proof.
  apply for_loop_silent. intros i h' b'. wp_steps.
  apply wp_store; intros _;
    (split; [reflexivity | split; [reflexivity | discriminate]]).
Qed.

Lemma copy_in_silent offset cnt h b : wp (copy_in offset cnt) h b silent.
Proof.
  apply for_loop_silent. intros i h' b'. wp_step. apply wp_load.
  destruct (array_get b' (s32 (offset + i))) as [v |]; cbn beta iota.
  - wp_step. split; [reflexivity | split; [reflexivity | discriminate]].
  - split; [reflexivity | split; [reflexivity | discriminate]].
Qed.

End NoStrobe.

Section Watching.
Context {cfg : Config}.
Variable hw : Hardware.



















End Watching.

Section OpenTrace.



End OpenTrace.

(** ** Commands seen to complete *)

Section Seen.
Context {cfg : Config}.

Lemma idle_after_app d1 d2 s :
  fold_left idle_track (d1 ++ d2) s = fold_left idle_track d2 (fold_left idle_track d1 s).
Proof. apply fold_left_app. Qed.

Lemma idle_after_polls vs v s :
  fold_left idle_track (map (EvRead STS) (vs ++ [v])) s = negb (is_busy v).
Proof. rewrite map_app, fold_left_app. reflexivity. Qed.

Lemma idle_after_key_reads i ws s :
  fold_left idle_track (key_reads i ws) s = s.
Proof.
  revert i s. induction ws as [| w ws IH]; intros i s; [reflexivity |].
  cbn [key_reads fold_left idle_track]. apply IH.
Qed.

Lemma idle_after_key_writes i ws s :
  fold_left idle_track (key_writes i ws) s = s.
Proof.
  revert i s. induction ws as [| w ws IH]; intros i s; [reflexivity |].
  cbn [key_writes fold_left idle_track]. apply IH.
Qed.

End Seen.

Ltac seen :=
  cbn [ctl_writes app length fold_left idle_track];
  repeat first [ rewrite ctl_writes_app | rewrite ctl_writes_reads
               | rewrite ctl_writes_key_reads | rewrite ctl_writes_key_writes
               | rewrite idle_after_app | rewrite idle_after_polls
               | rewrite idle_after_key_reads | rewrite idle_after_key_writes
               | progress cbn [ctl_writes app length fold_left idle_track] ].

Section Unfinished.
Context {cfg : Config}.
Variable N : nat.

Lemma unfinished_nil k i : ~ (k = N /\ i = true) -> unfinished N k i [].
Proof.
  intros H d1 d2 E. symmetry in E. apply app_eq_nil in E.
  destruct E as [-> _]. cbn. rewrite Nat.add_0_r. exact H.
Qed.

Lemma unfinished_cons k i e d :
  ~ (k = N /\ i = true) ->
  unfinished N (k + length (ctl_writes [e])) (idle_track i e) d ->
  unfinished N k i (e :: d).
Proof.
  intros H0 Hd d1 d2 E. destruct d1 as [| e' d1].
  - cbn. rewrite Nat.add_0_r. exact H0.
  - cbn [app] in E. injection E as <- E.
    specialize (Hd d1 d2 E).
    change (e :: d1) with ([e] ++ d1).
    rewrite ctl_writes_app, length_app, Nat.add_assoc. exact Hd.
Qed.

Lemma unfinished_tail k i e d :
  unfinished N k i (e :: d) ->
  unfinished N (k + length (ctl_writes [e])) (idle_track i e) d.
Proof.
  intros Hd d1 d2 E. specialize (Hd (e :: d1) d2).
  change (e :: d1) with ([e] ++ d1) in Hd.
  rewrite ctl_writes_app, length_app, Nat.add_assoc in Hd.
  apply Hd. rewrite E. reflexivity.
Qed.

Lemma unfinished_app k i da db :
  unfinished N k i da ->
  unfinished N (k + length (ctl_writes da)) (fold_left idle_track da i) db ->
  unfinished N k i (da ++ db).
Proof.
  revert k i. induction da as [| e da IH]; intros k i Ha Hb.
  - cbn in Hb. rewrite Nat.add_0_r in Hb. exact Hb.
  - cbn [app]. apply unfinished_cons.
    + specialize (Ha [] (e :: da) eq_refl). cbn in Ha.
      rewrite Nat.add_0_r in Ha. exact Ha.
    + apply IH; [apply unfinished_tail; exact Ha |].
      change (e :: da) with ([e] ++ da) in Hb.
      rewrite ctl_writes_app, length_app, Nat.add_assoc in Hb. exact Hb.
Qed.

(** Not all the commands have been started by the end of [d]. *)
Lemma unfinished_below k i d :
  (k + length (ctl_writes d) < N)%nat -> unfinished N k i d.
Proof.
  intros Hlt d1 d2 -> [E _].
  rewrite ctl_writes_app, length_app in Hlt. lia.
Qed.

Lemma unfinished_polls k i vs :
  ~ (k = N /\ i = true) -> Forall (fun x => is_busy x = true) vs ->
  unfinished N k i (map (EvRead STS) vs).
Proof.
  intros H0 Hvs. revert i H0.
  induction Hvs as [| v vs Hv Hvs IH]; intros i H0.
  - apply unfinished_nil. exact H0.
  - cbn [map]. apply unfinished_cons; [exact H0 |].
    cbn. rewrite Nat.add_0_r, Hv. apply IH. intros [_ E]. discriminate E.
Qed.

Lemma unfinished_silent k i d :
  ~ (k = N /\ i = true) -> ctl_writes d = [] -> polls d = 0%nat ->
  unfinished N k i d.
Proof.
  intros H0. induction d as [| e d IH]; intros Hc Hp.
  - apply unfinished_nil. exact H0.
  - apply unfinished_cons; [exact H0 |].
    destruct e as [[| | | j] v | [| | | j] v]; cbn in Hc, Hp |- *;
      try discriminate; rewrite Nat.add_0_r; apply IH; assumption.
Qed.

End Unfinished.

Lemma wp_any {A} (m : M A) h b (Q : outcome A -> list event -> list Z -> Prop) :
  (forall r d b', Q r d b') -> wp m h b Q.
Proof. intros HQ. unfold wp. destruct (m h b). apply HQ. Qed.

Lemma idle_after_silent {cfg : Config} d s :
  ctl_writes d = [] -> polls d = 0%nat -> fold_left idle_track d s = s.
Proof.
  revert s. induction d as [| x d IH]; intros s Hc Hp; [reflexivity |].
  destruct x as [[| | | j] w | [| | | j] w]; cbn in Hc, Hp |- *;
    try discriminate; apply IH; assumption.
Qed.

Section Ends.
Context {cfg : Config}.
Variable hw : Hardware.
Variable N : nat.

Lemma read_chunks_ends fuel :
  forall u32Cont i32Cnt offset h b k i,
    (k + Z.to_nat (chunk_count i32Cnt))%nat = N ->
    wp (read_chunks hw fuel u32Cont i32Cnt offset) h b
       (chunks_end N k i (Z.to_nat (chunk_count i32Cnt))).
Proof.
  induction fuel as [| fuel IH]; intros u32Cont i32Cnt offset h b k i HN.
  - exact I.
  - pose proof (chunk_count_pos i32Cnt) as Hpos.
    pose proof (chunk_count_step i32Cnt) as Hstep.
    pose proof (chunk_count_last i32Cnt) as Hlast.
    pose proof (chunk_count_pos (s32 (i32Cnt - 8))) as Hrest.
    assert (H0 : ~ (k = N /\ i = true)) by lia.
    cbn [read_chunks]. wp_step. unfold read_chunk. wp_steps.
    apply wp_wait_busy.
    + intros vs v Hvs Hv _ _.
      eapply wp_mono; [apply copy_out_silent |].
      intros r dc b' (Hc & Hp & Hr). destruct r as [[] | c | e];
        [| destruct (Hr c eq_refl) | exact I].
      cbn beta iota.
      destruct (Z.gtb_spec (s32 (i32Cnt - 8)) 0) as [Hmore | Hdone].
      * specialize (Hstep Hmore).
        eapply wp_mono; [apply (IH _ _ _ _ _ (S k) true); lia |].
        intros r d' b'' Hd'. unfold chunks_end in *.
        destruct r as [[] | c | e]; [| | exact I].
        -- destruct Hd' as [Hn Hi]. split.
           ++ seen. rewrite Hc. cbn [app]. rewrite Hn. lia.
           ++ intros s. seen. apply Hi.
        -- apply unfinished_app.
           ++ apply unfinished_below. seen. rewrite Hc. cbn. lia.
           ++ seen. rewrite Hc, Hv, (idle_after_silent dc _ Hc Hp).
              cbn [length negb app].
              replace (k + 1)%nat with (S k) by lia. exact Hd'.
      * specialize (Hlast Hdone). wp_steps. split.
        -- seen. rewrite Hc, Hlast. reflexivity.
        -- intros s. seen.
           rewrite (idle_after_silent dc _ Hc Hp), Hv. reflexivity.
    + intros vs Hvs _ _. unfold chunks_end. cbn [app].
      apply unfinished_cons; [exact H0 |].
      apply unfinished_cons; [cbn; rewrite Nat.add_0_r; exact H0 |].
      apply unfinished_cons; [cbn; rewrite !Nat.add_0_r; exact H0 |].
      apply unfinished_polls; [| exact Hvs].
      cbn. intros [_ E]. discriminate E.
Qed.

Lemma write_chunks_ends fuel :
  forall u32Cont i32Cnt offset h b k i,
    (k + Z.to_nat (chunk_count i32Cnt))%nat = N ->
    wp (write_chunks hw fuel u32Cont i32Cnt offset) h b
       (chunks_end N k i (Z.to_nat (chunk_count i32Cnt))).
Proof.
  induction fuel as [| fuel IH]; intros u32Cont i32Cnt offset h b k i HN.
  - exact I.
  - pose proof (chunk_count_pos i32Cnt) as Hpos.
    pose proof (chunk_count_step i32Cnt) as Hstep.
    pose proof (chunk_count_last i32Cnt) as Hlast.
    pose proof (chunk_count_pos (s32 (i32Cnt - 8))) as Hrest.
    assert (H0 : ~ (k = N /\ i = true)) by lia.
    cbn [write_chunks]. wp_step. unfold write_chunk. wp_step.
    eapply wp_mono; [apply copy_in_silent |].
    intros r dc b' (Hc & Hp & Hr). destruct r as [[] | c | e];
      [| destruct (Hr c eq_refl) | exact I].
    cbn beta iota. wp_steps.
    apply wp_wait_busy.
    + intros vs v Hvs Hv _ _. cbn beta iota.
      destruct (Z.gtb_spec (s32 (i32Cnt - 8)) 0) as [Hmore | Hdone].
      * specialize (Hstep Hmore).
        eapply wp_mono; [apply (IH _ _ _ _ _ (S k) true); lia |].
        intros r d' b'' Hd'. unfold chunks_end in *.
        destruct r as [[] | c | e]; [| | exact I].
        -- destruct Hd' as [Hn Hi]. split.
           ++ seen. rewrite Hc. cbn [app length]. rewrite Hn. lia.
           ++ intros s. seen. apply Hi.
        -- apply unfinished_app.
           ++ apply unfinished_below. seen. rewrite Hc. cbn. lia.
           ++ seen. rewrite Hc, Hv.
              cbn [length negb app].
              replace (k + 1)%nat with (S k) by lia. exact Hd'.
      * specialize (Hlast Hdone). wp_steps. split.
        -- seen. rewrite Hc, Hlast. reflexivity.
        -- intros s. seen. rewrite Hv. reflexivity.
    + intros vs Hvs _ _. unfold chunks_end.
      apply unfinished_app.
      * apply unfinished_silent; assumption.
      * rewrite Hc, (idle_after_silent dc _ Hc Hp). cbn [length app].
        rewrite Nat.add_0_r.
        apply unfinished_cons; [exact H0 |].
        apply unfinished_cons; [cbn; rewrite Nat.add_0_r; exact H0 |].
        apply unfinished_cons; [cbn; rewrite !Nat.add_0_r; exact H0 |].
        apply unfinished_polls; [| exact Hvs].
        cbn. intros [_ E]. discriminate E.
Qed.

End Ends.

Section Checked.
Context {cfg : Config}.
Variable hw : Hardware.

(** The check of the error flag that ends a command, [pre] being the
    accesses made so far. *)
Lemma wp_check N h pre b (k : M Z) :
  length (ctl_writes pre) = N -> seen_idle pre = true ->
  wp (sts <- rd hw STS ;;
      return_if (bit_set sts KS_STS_EIF_Msk) KS_ERR_FAIL ;; k) (h ++ pre) b
     (fun r d b' => checked N r (pre ++ d) b').
Proof.
  intros Hpre Hidle. wp_steps.
  apply wp_return_if; intros Hs.
  - right. right. exists pre, (u32 (hw (h ++ pre) STS)), [].
    split; [reflexivity |]. split; [exact Hpre |]. split; [exact Hidle |].
    reflexivity.
  - cbn beta iota. apply wp_any. intros r d b'.
    right. right. exists pre, (u32 (hw (h ++ pre) STS)), d.
    split; [reflexivity |]. split; [exact Hpre |]. split; [exact Hidle |].
    rewrite Hs. discriminate.
Qed.

End Checked.

(** Bringing the trace of a goal to that of a fact. *)
Ltac same_trace Hr :=
  lazymatch type of Hr with
  | checked _ _ ?L1 _ =>
      lazymatch goal with
      | |- checked _ _ ?L2 _ =>
          replace L2 with L1;
          [ exact Hr
          | rewrite <- ?app_assoc; cbn [app]; rewrite <- ?app_assoc;
            reflexivity ]
      end
  end.

Ltac undone :=
  cbn [length ctl_writes idle_track Nat.add app];
  repeat match goal with
         | H : is_busy _ = _ |- _ => rewrite H
         end;
  let E := fresh in intros [? E]; first [discriminate E | lia].

(** The run ended before the last command was seen to complete. *)
Ltac ended_early :=
  right; left;
  repeat (apply unfinished_cons; [undone |]);
  first [ apply unfinished_nil; undone
        | apply unfinished_polls; [undone | assumption] ].

(** The end of a command of a single transaction. *)
Ltac completes hw N :=
  apply wp_wait_busy;
  [ let Hr := fresh "Hr" in
    intros ? ? ? ? _ _; cbn beta iota; hist;
    eapply wp_mono;
    [ apply (wp_check hw N);
      [ seen; reflexivity
      | unfold seen_idle; seen;
        match goal with H : is_busy _ = false |- _ => rewrite H end;
        reflexivity ]
    | intros ? ? ? Hr; cbn beta in Hr; same_trace Hr ]
  | intros ? ? _ _; ended_early ].

Section Commands.
Context {cfg : Config}.
Variable hw : Hardware.

Lemma body_checked op h b :
  checks_busy op = true ->
  wp (body hw op) h b (checked (Z.to_nat (waits op))).
Proof.
  intros Hop. destruct op; try discriminate Hop; unfold_op; cbn [waits].
  - (* KS_Read *)
    pose proof (chunk_count_pos (s32 u32WordCnt)) as Hpos.
    wp_steps. apply wp_return_if; intros Hb; [ended_early |].
    wp_steps. hist.
    eapply wp_mono.
    { apply (read_chunks_ends hw (Z.to_nat (chunk_count (s32 u32WordCnt))))
        with (k := 0%nat) (i := true).
      reflexivity. }
    intros r d b' Hd. destruct r as [[] | c | e]; cbn beta iota.
    + destruct Hd as [Hn Hi]. hist.
      eapply wp_mono.
      * apply (wp_check hw (Z.to_nat (chunk_count (s32 u32WordCnt)))).
        -- seen. exact Hn.
        -- unfold seen_idle. seen. apply Hi.
      * intros r d' b'' Hr. cbn beta in Hr. same_trace Hr.
    + right. left. cbn [app].
      apply unfinished_cons; [undone |].
      apply unfinished_cons; [undone |].
      cbn. rewrite Hb. exact Hd.
    + left. exists e. reflexivity.
  - (* KS_Write *)
    wp_steps. apply wp_return_if; intros Hb; [ended_early |].
    wp_steps. destruct (KS_GetKeyWordCnt u32Meta) as [w |] eqn:Hw;
      [| left; exists OutOfBounds; reflexivity].
    pose proof (chunk_count_pos w) as Hpos.
    wp_steps. apply wp_return_if; intros Hzero; [ended_early |].
    wp_steps. apply wp_return_if; intros Hotp; [ended_early |].
    wp_steps. hist.
    eapply wp_mono.
    { apply (write_chunks_ends hw (Z.to_nat (chunk_count w)))
        with (k := 0%nat) (i := true).
      reflexivity. }
    intros r d b' Hd. destruct r as [[] | c | e]; cbn beta iota.
    + destruct Hd as [Hn Hi]. hist.
      eapply wp_mono.
      * apply (wp_check hw (Z.to_nat (chunk_count w))).
        -- seen. exact Hn.
        -- unfold seen_idle. seen. apply Hi.
      * intros r d' b'' Hr. cbn beta in Hr. same_trace Hr.
    + right. left. cbn [app].
      apply unfinished_cons; [undone |].
      apply unfinished_cons; [undone |].
      cbn. rewrite Hb. exact Hd.
    + left. exists e. reflexivity.
  - (* KS_EraseKey *)
    wp_steps. apply wp_return_if; intros Hb; [ended_early |].
    wp_steps. hist. completes hw 1%nat.
  - (* KS_EraseOTPKey *)
    wp_steps. apply wp_return_if; intros Hb; [ended_early |].
    wp_steps. hist. completes hw 1%nat.
  - (* KS_LockOTPKey *)
    wp_steps. apply wp_return_if; intros Hb; [ended_early |].
    wp_steps. hist. completes hw 1%nat.
  - (* KS_EraseAll *)
    wp_steps. apply wp_return_if; intros Hb; [ended_early |].
    wp_steps. hist. completes hw 1%nat.
  - (* KS_RevokeKey *)
    wp_steps. apply wp_return_if; intros Hb; [ended_early |].
    wp_steps. hist. completes hw 1%nat.
  - (* KS_WriteOTP *)
    wp_steps. apply wp_return_if; intros Hb; [ended_early |].
    wp_steps. apply wp_return_if; intros Hlong; [ended_early |].
    wp_steps.
    destruct (array_get au8CntTblOTP (s32 (size_field u32Meta))) as [w |];
      [| left; exists OutOfBounds; reflexivity].
    wp_steps.
    eapply wp_mono; [apply copy_in_silent |].
    intros r dc b' (Hc & Hp & Hr). destruct r as [[] | c | e];
      [| destruct (Hr c eq_refl) | left; exists e; reflexivity].
    cbn beta iota. wp_steps. hist.
    apply wp_wait_busy.
    + intros vs v Hvs Hv _ _. cbn beta iota. hist.
      eapply wp_mono.
      * apply (wp_check hw 1%nat).
        -- seen. rewrite Hc. reflexivity.
        -- unfold seen_idle. seen. rewrite Hv. reflexivity.
      * intros r d' b'' Hr'. cbn beta in Hr'. same_trace Hr'.
    + intros vs Hvs _ _. right. left. cbn [app].
      apply unfinished_cons; [undone |].
      apply unfinished_cons; [undone |].
      apply unfinished_app.
      * apply unfinished_silent; [undone | exact Hc | exact Hp].
      * rewrite Hc, (idle_after_silent dc _ Hc Hp).
        repeat (apply unfinished_cons; [undone |]).
        apply unfinished_polls; [undone | exact Hvs].
  - (* KS_ToggleSRAM *)
    wp_steps. apply wp_return_if; intros Hb; [ended_early |].
    wp_steps. hist. completes hw 1%nat.
Qed.

End Commands.

(** * The properties of the specification *)

(** ** The busy check at entry *)

(** C1 (as the code has it): each operation other than [KS_Open] that finds
    the busy flag set in its first read of the status register returns
    [KS_ERR_BUSY] at once: that read is its only register access, nothing is
    written, and the key buffer is unchanged. *)
Theorem busy_at_entry_returns_busy {cfg : Config} (hw : Hardware) op h b :
  checks_busy op = true ->
  is_busy (sts_after hw h) = true ->
  call (body hw op) h b
    = mkEffect (Done KS_ERR_BUSY) [EvRead STS (sts_after hw h)] b.
Proof.
  intros Hop Hbusy. unfold sts_after in *.
  apply (wp_call (body hw op) h b
           (fun e => e = mkEffect (Done KS_ERR_BUSY)
                           [EvRead STS (u32 (hw h STS))] b)).
  destruct op; try discriminate Hop; unfold_op; wp_steps; rewrite Hbusy;
    (apply wp_return_if; [reflexivity | discriminate]).
Qed.

Lemma busy_at_entry_returns_busy_witness :
  call (@body ks_header hw_busy_then_idle (Op_Read 0 3 20)) [] [7; 7]
    = mkEffect (Done (-4)) [EvRead STS 132] [7; 7].
Proof.
  apply (@busy_at_entry_returns_busy ks_header hw_busy_then_idle
           (Op_Read 0 3 20) [] [7; 7]); reflexivity.
Defined.

(** C1 fails as stated for [KS_Open]: with the busy flag set at entry it
    keeps polling, here until the flag clears at the fourth read, and
    returns [KS_OK]. *)
Lemma KS_Open_waits_when_busy :
  @is_busy ks_header (sts_after hw_busy_then_idle []) = true /\
  call (@KS_Open ks_header hw_busy_then_idle) [] []
    = mkEffect (Done 0)
        [EvRead STS 132; EvRead STS 132; EvRead STS 132; EvRead STS 128] [] /\
  @KS_OK ks_header <> @KS_ERR_BUSY ks_header.
Proof.
  split; [reflexivity | split; [reflexivity | discriminate]].
Qed.

(** ** Chunked reads *)

(** C2 (as the code has it): let [KS_Read] be called for [N] words,
    [8 < N <= 2^31 - 1], with a buffer of at least [N] words, on a
    controller whose busy flag is clear at entry and clears within the
    time-out of every wait.  Then the read completes; it writes the control
    register exactly [ceil (N / 8)] times, the first time with the continue
    bit clear and every other time with the continue bit set; the [j]-th
    word it reads, [0 <= j < N], comes from index [j mod 8] of the key window
    during transaction [j / 8 + 1]; and that word ends up at index [j] of
    the buffer, whose words from [N] on are unchanged. *)
Theorem KS_Read_chunked {cfg : Config} (hw : Hardware) h b
        eMemType i32KeyIdx u32WordCnt :
  8 < u32WordCnt < 2 ^ 31 ->
  u32WordCnt <= Z.of_nat (length b) ->
  1 <= KS_TIMEOUT < 2 ^ 32 ->
  read_layout ->
  is_busy (sts_after hw h) = false ->
  (forall d, KS_TIMEOUT <= 1 + Z.of_nat (trailing_polls d) ->
             is_busy (sts_after hw (h ++ d)) = false) ->
  let e := call (KS_Read hw eMemType i32KeyIdx u32WordCnt) h b in
  let reads := window_reads 0 (events e) in
  (res e = Done KS_OK \/ res e = Done KS_ERR_FAIL) /\
  length (ctl_writes (events e)) = Z.to_nat ((u32WordCnt + 7) / 8) /\
  (exists first rest,
      ctl_writes (events e) = first :: rest /\
      Z.land first KS_CTL_CONT_Msk = 0 /\
      Forall (fun v => Z.land v KS_CTL_CONT_Msk = KS_CTL_CONT_Msk) rest) /\
  map fst reads
    = map (fun j => (S (Z.to_nat (j / 8)), j mod 8)) (seqZ 0 u32WordCnt) /\
  keybuf e = map snd reads ++ drop (Z.to_nat u32WordCnt) b.
Proof.
  intros Hn Hlen Ht Hlayout Hidle Hclear0.
  assert (Hclear : forall d,
             (poll_budget (u32 KS_TIMEOUT) <= S (trailing_polls d))%nat ->
             is_busy (sts_after hw (h ++ d)) = false).
  { intros d Hd. apply Hclear0. revert Hd.
    rewrite u32_small by lia. unfold poll_budget.
    destruct (Z.eqb_spec KS_TIMEOUT 0); lia. }
  clear Hclear0. unfold sts_after in Hidle.
  cbv zeta.
  apply (wp_call (KS_Read hw eMemType i32KeyIdx u32WordCnt) h b
           (fun e =>
              (res e = Done KS_OK \/ res e = Done KS_ERR_FAIL) /\
              length (ctl_writes (events e)) = Z.to_nat ((u32WordCnt + 7) / 8) /\
              (exists first rest,
                  ctl_writes (events e) = first :: rest /\
                  Z.land first KS_CTL_CONT_Msk = 0 /\
                  Forall (fun v => Z.land v KS_CTL_CONT_Msk = KS_CTL_CONT_Msk)
                         rest) /\
              map fst (window_reads 0 (events e))
                = map (fun j => (S (Z.to_nat (j / 8)), j mod 8))
                      (seqZ 0 u32WordCnt) /\
              keybuf e = map snd (window_reads 0 (events e))
                           ++ drop (Z.to_nat u32WordCnt) b)).
  unfold KS_Read. wp_steps. rewrite Hidle.
  apply wp_return_if; [discriminate | intros _].
  wp_steps. rewrite s32_small by lia. hist.
  eapply wp_mono.
  { apply (read_chunks_run hw h Hclear Hlayout _ 0 u32WordCnt 0 _ b 0%nat);
      lia. }
  intros r d2 b2 (-> & Hcount & (first & rest & Hctl & Hfirst & Hrest)
                  & Htags & Hbuf).
  wp_steps.
  assert (Hobs : forall tail,
             ctl_writes tail = [] -> window_reads (length (ctl_writes d2)) tail = [] ->
             length (ctl_writes
                       ([EvRead STS (u32 (hw h STS))] ++ [] ++
                        [EvWrite METADATA
                           (Z.lor (shl32 eMemType KS_METADATA_DST_Pos)
                                  (KS_TOMETAKEY i32KeyIdx))] ++ d2 ++ tail))
               = Z.to_nat ((u32WordCnt + 7) / 8) /\
             (exists first rest,
                 ctl_writes
                   ([EvRead STS (u32 (hw h STS))] ++ [] ++
                    [EvWrite METADATA
                       (Z.lor (shl32 eMemType KS_METADATA_DST_Pos)
                              (KS_TOMETAKEY i32KeyIdx))] ++ d2 ++ tail)
                   = first :: rest /\
                 Z.land first KS_CTL_CONT_Msk = 0 /\
                 Forall (fun v => Z.land v KS_CTL_CONT_Msk = KS_CTL_CONT_Msk)
                        rest) /\
             map fst (window_reads 0
                        ([EvRead STS (u32 (hw h STS))] ++ [] ++
                         [EvWrite METADATA
                            (Z.lor (shl32 eMemType KS_METADATA_DST_Pos)
                                   (KS_TOMETAKEY i32KeyIdx))] ++ d2 ++ tail))
               = map (fun j => (S (Z.to_nat (j / 8)), j mod 8))
                     (seqZ 0 u32WordCnt) /\
             b2 = map snd (window_reads 0
                             ([EvRead STS (u32 (hw h STS))] ++ [] ++
                              [EvWrite METADATA
                                 (Z.lor (shl32 eMemType KS_METADATA_DST_Pos)
                                        (KS_TOMETAKEY i32KeyIdx))] ++ d2 ++ tail))
                    ++ drop (Z.to_nat u32WordCnt) b).
  { intros tail Htail Hwin. cbn [app ctl_writes window_reads].
    rewrite ctl_writes_app, window_reads_app. cbn [Nat.add].
    rewrite Htail, Hwin, !app_nil_r.
    split; [rewrite Hcount, chunk_count_ceil by lia; reflexivity |].
    split.
    { exists first, rest. split; [exact Hctl |]. split; [| exact Hrest].
      rewrite Hfirst. apply Z.land_0_l. }
    split; [exact Htags |].
    rewrite Hbuf. cbn [Z.to_nat take app]. rewrite Z.add_0_l. reflexivity. }
  apply wp_return_if; intros _; wp_steps.
  - split; [right; reflexivity |]. apply (Hobs [EvRead STS _]); reflexivity.
  - split; [left; reflexivity |].
    apply (Hobs ([EvRead STS _] ++ [] ++ [])); reflexivity.
Qed.

Lemma KS_Read_chunked_witness :
  Z.of_nat (length (ctl_writes
                      (events (call (@KS_Read ks_header hw_idle 0 3 20) []
                                    (repeat 0 24%nat))))) = 3.
Proof.
  destruct (@KS_Read_chunked ks_header hw_idle [] (repeat 0 24%nat) 0 3 20)
    as (_ & Hcount & _).
  - lia.
  - cbn. lia.
  - cbn. split; [discriminate | reflexivity].
  - reflexivity.
  - reflexivity.
  - intros d _. reflexivity.
  - rewrite Hcount. reflexivity.
Defined.

(** What the witness looks like: 20 words come in three chunks, the window
    of [hw_idle] holding [100 + i] plus the number of accesses so far. *)
Example KS_Read_20_words :
  keybuf (call (@KS_Read ks_header hw_idle 0 3 20) [] (repeat 0 24%nat))
    = [106; 108; 110; 112; 114; 116; 118; 120;
       118; 120; 122; 124; 126; 128; 130; 132;
       130; 132; 134; 136; 0; 0; 0; 0] /\
  ctl_writes (events (call (@KS_Read ks_header hw_idle 0 3 20) []
                           (repeat 0 24%nat))) = [1; 129; 129].
Proof. split; reflexivity. Qed.

(** C2 fails as stated for word counts from [2^31] on, which are negative
    once converted to [int32_t]: for [N = 2^32 - 1] a single transaction is
    issued, where [ceil (N / 8)] is 536870912, and nothing is copied. *)
Lemma KS_Read_large_count_single_chunk :
  call (@KS_Read ks_header hw_idle 0 3 4294967295) [] []
    = mkEffect (Done 0)
        [EvRead STS 128; EvWrite METADATA 3145728; EvWrite STS 3;
         EvRead CTL 0; EvWrite CTL 1; EvRead STS 128; EvRead STS 128] [] /\
  ctl_writes (events (call (@KS_Read ks_header hw_idle 0 3 4294967295) [] []))
    = [1] /\
  (4294967295 + 7) / 8 = 536870912.
Proof. split; [reflexivity | split; reflexivity]. Qed.

(** ** Reserved size classes *)

(** C3 (as the code has it): on a controller that is not busy at entry,
    [KS_Write] with a metadata word whose size class maps to a word count of
    0 returns [KS_ERR_PARAMETER] without writing the control register, so no
    command is started; by then it has read the status register once and
    written the metadata register. *)
Theorem KS_Write_rejects_zero_count {cfg : Config} (hw : Hardware) h b
        eMemType u32Meta :
  is_busy (sts_after hw h) = false ->
  KS_GetKeyWordCnt u32Meta = Some 0 ->
  call (KS_Write hw eMemType u32Meta) h b
    = mkEffect (Done KS_ERR_PARAMETER)
        [EvRead STS (sts_after hw h);
         EvWrite METADATA (Z.lor (shl32 eMemType KS_METADATA_DST_Pos) u32Meta)]
        b /\
  ctl_writes (events (call (KS_Write hw eMemType u32Meta) h b)) = [].
Proof.
  intros Hidle Hzero. unfold sts_after in *.
  assert (Hrun : call (KS_Write hw eMemType u32Meta) h b
    = mkEffect (Done KS_ERR_PARAMETER)
        [EvRead STS (u32 (hw h STS));
         EvWrite METADATA (Z.lor (shl32 eMemType KS_METADATA_DST_Pos) u32Meta)]
        b).
  { run_op. rewrite Hidle. cbn. rewrite Hzero. reflexivity. }
  split; [exact Hrun | rewrite Hrun; reflexivity].
Qed.

Lemma KS_Write_rejects_zero_count_witness :
  res (call (@KS_Write ks_header hw_idle 0 3328) [] []) = Done (-5) /\
  ctl_writes (events (call (@KS_Write ks_header hw_idle 0 3328) [] [])) = [].
Proof.
  destruct (@KS_Write_rejects_zero_count ks_header hw_idle [] [] 0 3328
              eq_refl eq_refl) as [Hrun Hctl].
  split; [rewrite Hrun; reflexivity | exact Hctl].
Defined.

(** C3 fails as stated: with the reserved size class 13, [KS_Write] has
    written the metadata register by the time it returns
    [KS_ERR_PARAMETER]. *)
Lemma KS_Write_zero_count_touches_metadata :
  @KS_GetKeyWordCnt ks_header 3328 = Some 0 /\
  call (@KS_Write ks_header hw_idle 0 3328) [] []
    = mkEffect (Done (-5)) [EvRead STS 128; EvWrite METADATA 3328] [] /\
  ~ (events (call (@KS_Write ks_header hw_idle 0 3328) [] []) = []).
Proof.
  split; [reflexivity | split; [reflexivity | discriminate]].
Qed.

(** ** Word counts of the size classes *)

(** C4: let the size field of the metadata word be the five bits from
    [KS_METADATA_SIZE_Pos] on.  For every size-class code [c] from 0 to 20,
    [KS_GetKeyWordCnt] returns the documented word count of [c] on every
    metadata word whose size field holds [c], whatever its other bits are;
    the count returned is 0 exactly when [c] is one of the reserved codes 13,
    14 and 15; the lookup performs no register access and leaves the key
    buffer alone; and every code occurs: the word made of [c] shifted to the
    position of the size field, as the header builds the size classes, and
    of any bits [rest] outside of that field is such a word. *)
Theorem KS_GetKeyWordCnt_documented {cfg : Config} (c : Z) :
  0 <= KS_METADATA_SIZE_Pos ->
  KS_METADATA_SIZE_Msk = Z.shiftl 31 KS_METADATA_SIZE_Pos ->
  0 <= c <= 20 ->
  (forall u32Meta,
      Z.land u32Meta KS_METADATA_SIZE_Msk = Z.shiftl c KS_METADATA_SIZE_Pos ->
      KS_GetKeyWordCnt u32Meta = Some (documented_word_count c) /\
      (KS_GetKeyWordCnt u32Meta = Some 0 <-> 13 <= c <= 15) /\
      (forall h b,
          lift (KS_GetKeyWordCnt u32Meta) h b
            = mkEffect (Next (documented_word_count c)) [] b)) /\
  (forall rest,
      Z.land rest KS_METADATA_SIZE_Msk = 0 ->
      Z.land (Z.lor (Z.shiftl c KS_METADATA_SIZE_Pos) rest) KS_METADATA_SIZE_Msk
        = Z.shiftl c KS_METADATA_SIZE_Pos /\
      KS_GetKeyWordCnt (Z.lor (Z.shiftl c KS_METADATA_SIZE_Pos) rest)
        = Some (documented_word_count c)).
Proof.
  intros Hpos Hmsk Hc.
  assert (Hfield : forall u32Meta,
             Z.land u32Meta KS_METADATA_SIZE_Msk
               = Z.shiftl c KS_METADATA_SIZE_Pos ->
             size_field u32Meta = c).
  { intros u32Meta Hm. unfold size_field. rewrite Hm.
    rewrite Z.shiftr_shiftl_l by lia.
    rewrite Z.sub_diag. apply Z.shiftl_0_r. }
  assert (Hcases : c = 0 \/ c = 1 \/ c = 2 \/ c = 3 \/ c = 4 \/ c = 5 \/ c = 6
                   \/ c = 7 \/ c = 8 \/ c = 9 \/ c = 10 \/ c = 11 \/ c = 12
                   \/ c = 13 \/ c = 14 \/ c = 15 \/ c = 16 \/ c = 17
                   \/ c = 18 \/ c = 19 \/ c = 20) by lia.
  assert (Htable : array_get au8CntTbl c = Some (documented_word_count c) /\
                   (documented_word_count c = 0 <-> 13 <= c <= 15)).
  { clear Hfield.
    repeat (destruct Hcases as [-> | Hcases]); try subst c;
      (split; [reflexivity | cbn; lia]). }
  destruct Htable as [Hget Hzero].
  assert (Hword : forall u32Meta,
             Z.land u32Meta KS_METADATA_SIZE_Msk
               = Z.shiftl c KS_METADATA_SIZE_Pos ->
             KS_GetKeyWordCnt u32Meta = Some (documented_word_count c)).
  { intros u32Meta Hm. unfold KS_GetKeyWordCnt.
    rewrite (Hfield u32Meta Hm). exact Hget. }
  split.
  - intros u32Meta Hm. rewrite (Hword u32Meta Hm).
    split; [reflexivity |]. split; [| intros h b; reflexivity].
    rewrite <- Hzero. split.
    + intros E. injection E as E. exact E.
    + intros E. rewrite E. reflexivity.
  - intros rest Hrest.
    assert (Hm : Z.land (Z.lor (Z.shiftl c KS_METADATA_SIZE_Pos) rest)
                        KS_METADATA_SIZE_Msk
                 = Z.shiftl c KS_METADATA_SIZE_Pos).
    { rewrite Z.land_lor_distr_l, Hrest, Z.lor_0_r, Hmsk.
      rewrite <- Z.shiftl_land. f_equal.
      change 31 with (Z.ones 5). rewrite Z.land_ones by lia.
      apply Z.mod_small. lia. }
    split; [exact Hm | exact (Hword _ Hm)].
Qed.

Lemma KS_GetKeyWordCnt_documented_witness :
  @KS_GetKeyWordCnt ks_header 1536 = Some 8 /\
  @KS_GetKeyWordCnt ks_header 3328 = Some 0 /\
  (@KS_GetKeyWordCnt ks_header 3328 = Some 0 <-> 13 <= 13 <= 15) /\
  @KS_GetKeyWordCnt ks_header (Z.lor (Z.shiftl 20 8) 2147483651) = Some 128.
Proof.
  assert (Hpos : 0 <= @KS_METADATA_SIZE_Pos ks_header)
    by (vm_compute; discriminate).
  assert (Hmsk : @KS_METADATA_SIZE_Msk ks_header
                 = Z.shiftl 31 (@KS_METADATA_SIZE_Pos ks_header))
    by reflexivity.
  split; [| split; [| split]].
  - destruct (@KS_GetKeyWordCnt_documented ks_header 6 Hpos Hmsk) as [Hany _];
      [lia |].
    destruct (Hany 1536 eq_refl) as (Hcount & _ & _). exact Hcount.
  - destruct (@KS_GetKeyWordCnt_documented ks_header 13 Hpos Hmsk) as [Hany _];
      [lia |].
    destruct (Hany 3328 eq_refl) as (Hcount & _ & _). exact Hcount.
  - destruct (@KS_GetKeyWordCnt_documented ks_header 13 Hpos Hmsk) as [Hany _];
      [lia |].
    destruct (Hany 3328 eq_refl) as (_ & Hzero & _). exact Hzero.
  - destruct (@KS_GetKeyWordCnt_documented ks_header 20 Hpos Hmsk) as [_ Hbuilt];
      [lia |].
    destruct (Hbuilt 2147483651 eq_refl) as [_ Hcount]. exact Hcount.
Defined.

(** ** Long keys and the one-time-programmable memory *)

(** C5 (as the code has it): called while the controller is not busy,
    [KS_Write] to the one-time-programmable memory returns
    [KS_ERR_PARAMETER] whenever the size class of the metadata needs more
    than 8 words, and [KS_WriteOTP] returns [KS_ERR_PARAMETER] whenever the
    size-class code is greater than the code of [KS_META_256], the last entry
    of its table. *)
Theorem otp_write_rejects_long_keys {cfg : Config} (hw : Hardware) h b :
  is_busy (sts_after hw h) = false ->
  (forall u32Meta w,
      KS_GetKeyWordCnt u32Meta = Some w -> 8 < w ->
      res (call (KS_Write hw KS_OTP u32Meta) h b) = Done KS_ERR_PARAMETER) /\
  (forall i32KeyIdx u32Meta,
      Z.shiftr KS_META_256 KS_METADATA_SIZE_Pos < s32 (size_field u32Meta) ->
      res (call (KS_WriteOTP hw i32KeyIdx u32Meta) h b)
        = Done KS_ERR_PARAMETER).
Proof.
  intros Hidle. unfold sts_after in Hidle. split.
  - intros u32Meta w Hw Hlong. run_op. rewrite Hidle. cbn.
    rewrite Hw. cbn.
    destruct (Z.eqb_spec w 0) as [-> | _]; [lia |]. cbn.
    rewrite Z.eqb_refl.
    destruct (Z.gtb_spec w 8) as [_ | Hle]; [| lia]. reflexivity.
  - intros i32KeyIdx u32Meta Hbeyond. run_op. rewrite Hidle. cbn.
    destruct (Z.gtb_spec (s32 (size_field u32Meta))
                         (Z.shiftr KS_META_256 KS_METADATA_SIZE_Pos))
      as [_ | Hle]; [| lia].
    reflexivity.
Qed.

Lemma otp_write_rejects_long_keys_witness :
  res (call (@KS_Write ks_header hw_idle 2 1792) [] [1; 2; 3]) = Done (-5) /\
  res (call (@KS_WriteOTP ks_header hw_idle 0 1792) [] [1; 2; 3]) = Done (-5).
Proof.
  destruct (@otp_write_rejects_long_keys ks_header hw_idle [] [1; 2; 3] eq_refl)
    as [Hwrite Hotp].
  split.
  - apply (Hwrite 1792 9); [reflexivity | lia].
  - apply (Hotp 0 1792). vm_compute. reflexivity.
Defined.

(** C5 fails as stated: both functions test the busy flag before they look
    at the size class.  On a busy controller, [KS_Write] to the
    one-time-programmable memory with the size class of 9 words and
    [KS_WriteOTP] with the same size class, which lies beyond the 7-entry
    table, return [KS_ERR_BUSY] after one read of the status register, and
    not [KS_ERR_PARAMETER]. *)
Lemma otp_write_busy_comes_first :
  @KS_GetKeyWordCnt ks_header 1792 = Some 9 /\
  Z.shiftr (@KS_META_256 ks_header) (@KS_METADATA_SIZE_Pos ks_header)
    < s32 (@size_field ks_header 1792) /\
  call (@KS_Write ks_header hw_busy_then_idle 2 1792) []
       [1; 2; 3; 4; 5; 6; 7; 8; 9]
    = mkEffect (Done (-4)) [EvRead STS 132] [1; 2; 3; 4; 5; 6; 7; 8; 9] /\
  call (@KS_WriteOTP ks_header hw_busy_then_idle 0 1792) []
       [1; 2; 3; 4; 5; 6; 7; 8; 9]
    = mkEffect (Done (-4)) [EvRead STS 132] [1; 2; 3; 4; 5; 6; 7; 8; 9] /\
  res (call (@KS_Write ks_header hw_busy_then_idle 2 1792) []
            [1; 2; 3; 4; 5; 6; 7; 8; 9])
    <> Done (@KS_ERR_PARAMETER ks_header) /\
  res (call (@KS_WriteOTP ks_header hw_busy_then_idle 0 1792) []
            [1; 2; 3; 4; 5; 6; 7; 8; 9])
    <> Done (@KS_ERR_PARAMETER ks_header).
Proof.
  split; [reflexivity |]. split; [reflexivity |].
  split; [reflexivity |]. split; [reflexivity |].
  split; discriminate.
Qed.

(** ** Mode bits in the command strobe *)

(** C6 (as the code has it): in [KS_Read], [KS_Write], [KS_WriteOTP],
    [KS_EraseKey], [KS_EraseAll], [KS_RevokeKey] and [KS_ToggleSRAM], every
    write of the control register comes right after a read of it and has the
    silent and scramble bits of the value read, the opcodes and the start
    and continue bits lying outside of these two bits. *)
Theorem mode_bits_preserved {cfg : Config} (hw : Hardware) op h b :
  ctl_layout ->
  preserves_modes op = true ->
  modes_kept (events (call (body hw op) h b)).
Proof.
  intros Hlayout Hop.
  apply (wp_call (body hw op) h b (fun e => modes_kept (events e))).
  apply Kept_body; assumption.
Qed.

Lemma mode_bits_preserved_witness :
  @modes_kept ks_header
    (events (call (@body ks_header hw_modes (Op_Read 0 3 12)) []
                  (repeat 0 12%nat))).
Proof.
  apply (@mode_bits_preserved ks_header hw_modes (Op_Read 0 3 12) []
           (repeat 0 12%nat)).
  - unfold ctl_layout. repeat constructor.
  - reflexivity.
Defined.

(** What the witness looks like: both strobes of a 12-word read carry the
    mode bits read back from the control register. *)
Example KS_Read_strobes :
  ctl_writes (events (call (@KS_Read ks_header hw_modes 0 3 12) []
                           (repeat 0 12%nat)))
    = [3073; 3201].
Proof. reflexivity. Qed.

(** C6 fails as stated: with both mode bits set in the control register,
    the strobes of [KS_Open], [KS_EraseOTPKey] and [KS_LockOTPKey] have them
    clear. *)
Lemma command_strobe_drops_modes :
  (forall h, u32 (hw_modes h CTL) = 3072) /\
  ctl_writes (events (call (@KS_Open ks_header hw_modes) [] [])) = [257] /\
  ctl_writes (events (call (@KS_EraseOTPKey ks_header hw_modes 0) [] []))
    = [5] /\
  ctl_writes (events (call (@KS_LockOTPKey ks_header hw_modes 0) [] []))
    = [15] /\
  ~ @same_modes ks_header 3072 257 /\
  ~ @same_modes ks_header 3072 5 /\
  ~ @same_modes ks_header 3072 15 /\
  ~ @modes_kept ks_header
      (events (call (@KS_Open ks_header hw_modes) [] [])).
Proof.
  split; [intros h; reflexivity |].
  split; [reflexivity |].
  split; [reflexivity |].
  split; [reflexivity |].
  split; [intros [H _]; discriminate H |].
  split; [intros [H _]; discriminate H |].
  split; [intros [H _]; discriminate H |].
  intros H.
  change (events (call (@KS_Open ks_header hw_modes) [] []))
    with [EvRead STS 0; EvRead STS 0; EvWrite CTL 257; EvRead STS 128;
          EvRead STS 128] in H.
  destruct H as [[] _].
Qed.

(** ** Time-out against failure *)



(** What the first part of the witness looks like: the first chunk is
    read, the command of the second chunk never completes, and the three
    polls of the time-out show the busy flag and the error flag.  The other
    two parts run [KS_Open] into the time-out of its final wait and into
    that of its wait for the initialisation. *)
Example KS_Read_later_chunk_times_out :
  call (@KS_Read ks_header_short (hw_hangs 2 134) 0 3 12) [] (repeat 0 12%nat)
    = mkEffect (Done (-2))
        [EvRead STS 0; EvWrite METADATA 3145728;
         EvWrite STS 3; EvRead CTL 0; EvWrite CTL 1; EvRead STS 0;
         EvRead (KEY 0) 100; EvRead (KEY 1) 101; EvRead (KEY 2) 102;
         EvRead (KEY 3) 103; EvRead (KEY 4) 104; EvRead (KEY 5) 105;
         EvRead (KEY 6) 106; EvRead (KEY 7) 107;
         EvWrite STS 3; EvRead CTL 0; EvWrite CTL 129;
         EvRead STS 134; EvRead STS 134; EvRead STS 134]
        [100; 101; 102; 103; 104; 105; 106; 107; 0; 0; 0; 0].
Proof. reflexivity. Qed.

(** ** The latched error flag *)

(** C8 (as the code has it): take an operation other than [KS_Open] whose
    run makes no access outside of an array, and let its final wait
    complete: the accesses [d1] of the run start the last of the [waits op]
    commands of the operation and end with the busy flag seen clear.  If the
    reads of the status register that the run makes from then on show the
    error flag, the operation returns [KS_ERR_FAIL].  Nothing is asked of
    the error flag before the final wait has completed, and nothing else of
    the controller. *)
Theorem latched_error_fails {cfg : Config} (hw : Hardware) op h b d1 d2 :
  checks_busy op = true ->
  (forall e, res (call (body hw op) h b) <> Crashed e) ->
  events (call (body hw op) h b) = d1 ++ d2 ->
  length (ctl_writes d1) = Z.to_nat (waits op) ->
  seen_idle d1 = true ->
  (forall d1' s d2',
      events (call (body hw op) h b) = d1' ++ EvRead STS s :: d2' ->
      length (ctl_writes d1') = Z.to_nat (waits op) ->
      seen_idle d1' = true ->
      bit_set s KS_STS_EIF_Msk = true) ->
  res (call (body hw op) h b) = Done KS_ERR_FAIL.
Proof.
  intros Hop. revert d1 d2.
  apply (wp_call (body hw op) h b
           (fun e =>
              forall d1 d2,
                (forall x, res e <> Crashed x) ->
                events e = d1 ++ d2 ->
                length (ctl_writes d1) = Z.to_nat (waits op) ->
                seen_idle d1 = true ->
                (forall d1' s d2',
                    events e = d1' ++ EvRead STS s :: d2' ->
                    length (ctl_writes d1') = Z.to_nat (waits op) ->
                    seen_idle d1' = true ->
                    bit_set s KS_STS_EIF_Msk = true) ->
                res e = Done KS_ERR_FAIL)).
  eapply wp_mono; [apply (body_checked hw op h b Hop) |].
  cbn [res events].
  intros r d b' [[e ->] | [Hnever | (pre & s & rest & -> & Hn & Hi & Hfail)]]
         d1 d2 Hsafe Hrun Hctl Hseen Herr.
  - destruct (Hsafe e eq_refl).
  - destruct (Hnever d1 d2 Hrun). split; [exact Hctl | exact Hseen].
  - apply Hfail. apply (Herr pre s rest eq_refl Hn Hi).
Qed.

Lemma latched_error_fails_witness :
  res (call (@body ks_header hw_failing (Op_Read 0 3 9)) [] (repeat 0 9%nat))
    = Done (-1).
Proof.
  assert (Hrun :
            call (@body ks_header hw_failing (Op_Read 0 3 9)) []
                 (repeat 0 9%nat)
            = mkEffect (Done (-1))
                ([EvRead STS 128; EvWrite METADATA 3145728;
                  EvWrite STS 3; EvRead CTL 0; EvWrite CTL 1;
                  EvRead STS 132; EvRead STS 132; EvRead STS 130;
                  EvRead (KEY 0) 108; EvRead (KEY 1) 110;
                  EvRead (KEY 2) 112; EvRead (KEY 3) 114;
                  EvRead (KEY 4) 116; EvRead (KEY 5) 118;
                  EvRead (KEY 6) 120; EvRead (KEY 7) 122;
                  EvWrite STS 3; EvRead CTL 0; EvWrite CTL 129;
                  EvRead STS 132; EvRead STS 132; EvRead STS 130]
                   ++ [EvRead (KEY 0) 122; EvRead STS 130])
                [108; 110; 112; 114; 116; 118; 120; 122; 122])
    by reflexivity.
  apply (@latched_error_fails ks_header hw_failing (Op_Read 0 3 9) []
           (repeat 0 9%nat)
           [EvRead STS 128; EvWrite METADATA 3145728;
            EvWrite STS 3; EvRead CTL 0; EvWrite CTL 1;
            EvRead STS 132; EvRead STS 132; EvRead STS 130;
            EvRead (KEY 0) 108; EvRead (KEY 1) 110;
            EvRead (KEY 2) 112; EvRead (KEY 3) 114;
            EvRead (KEY 4) 116; EvRead (KEY 5) 118;
            EvRead (KEY 6) 120; EvRead (KEY 7) 122;
            EvWrite STS 3; EvRead CTL 0; EvWrite CTL 129;
            EvRead STS 132; EvRead STS 132; EvRead STS 130]
           [EvRead (KEY 0) 122; EvRead STS 130]).
  - reflexivity.
  - intros e. rewrite Hrun. discriminate.
  - rewrite Hrun. reflexivity.
  - reflexivity.
  - reflexivity.
  - intros d1 s d2 E Hc Hi. rewrite Hrun in E. cbn [events app] in E.
    change (Z.to_nat (@waits ks_header (Op_Read 0 3 9))) with 2%nat in Hc.
    repeat (destruct d1 as [| ? d1];
            [ cbn [app] in E;
              first [ discriminate E
                    | injection E as <- _; first [ reflexivity
                                                 | discriminate Hc
                                                 | discriminate Hi ] ]
            | injection E as <- E ]).
    destruct d1; discriminate E.
Defined.

(** What the witness looks like: each command keeps the controller busy for
    two polls and the error flag comes up when the busy flag clears;
    [KS_Read] transfers both chunks and looks at the error flag once, after
    the last one. *)
Example KS_Read_latched_error :
  call (@KS_Read ks_header hw_failing 0 3 9) [] (repeat 0 9%nat)
    = mkEffect (Done (-1))
        [EvRead STS 128; EvWrite METADATA 3145728;
         EvWrite STS 3; EvRead CTL 0; EvWrite CTL 1;
         EvRead STS 132; EvRead STS 132; EvRead STS 130;
         EvRead (KEY 0) 108; EvRead (KEY 1) 110;
         EvRead (KEY 2) 112; EvRead (KEY 3) 114;
         EvRead (KEY 4) 116; EvRead (KEY 5) 118;
         EvRead (KEY 6) 120; EvRead (KEY 7) 122;
         EvWrite STS 3; EvRead CTL 0; EvWrite CTL 129;
         EvRead STS 132; EvRead STS 132; EvRead STS 130;
         EvRead (KEY 0) 122; EvRead STS 130]
        [108; 110; 112; 114; 116; 118; 120; 122; 122].
Proof. reflexivity. Qed.

(** C8 fails as stated for [KS_Open], which never looks at the error flag:
    with the flag set and the controller initialised and idle, it returns
    [KS_OK]. *)
Lemma KS_Open_ignores_error_flag :
  call (@KS_Open ks_header hw_error) [] []
    = mkEffect (Done 0) [EvRead STS 130; EvRead STS 130] [] /\
  @bit_set 130 (@KS_STS_EIF_Msk ks_header) = true /\
  @is_busy ks_header 130 = false /\
  @KS_OK ks_header <> @KS_ERR_FAIL ks_header.
Proof.
  split; [reflexivity | split; [reflexivity | split; [reflexivity | discriminate]]].
Qed.

(** ** Bounds of the word-count table *)

(** C9: the table of [KS_GetKeyWordCnt] has exactly 21 entries and the
    function indexes it with the size field unchecked.  With a five-bit size
    field the index takes every value from 0 to 31; the lookup is within
    bounds exactly when the size-class code is at most 20, and for every
    code of 21 or more it reads outside of the table. *)
Theorem KS_GetKeyWordCnt_bounds {cfg : Config} :
  0 <= KS_METADATA_SIZE_Pos ->
  KS_METADATA_SIZE_Msk = Z.shiftl 31 KS_METADATA_SIZE_Pos ->
  length au8CntTbl = 21%nat /\
  (forall u32Meta, 0 <= size_field u32Meta <= 31) /\
  (forall c, 0 <= c <= 31 ->
             size_field (Z.shiftl c KS_METADATA_SIZE_Pos) = c) /\
  (forall u32Meta,
      is_Some (KS_GetKeyWordCnt u32Meta) <-> size_field u32Meta <= 20) /\
  (forall u32Meta h b,
      21 <= size_field u32Meta ->
      lift (KS_GetKeyWordCnt u32Meta) h b = mkEffect (Abort OutOfBounds) [] b).
Proof.
  intros Hpos Hmsk.
  split; [reflexivity |].
  split; [apply size_field_range; assumption |].
  split; [apply size_field_shiftl; assumption |].
  split.
  - intros u32Meta. unfold KS_GetKeyWordCnt. rewrite array_get_Some.
    pose proof (size_field_range Hpos Hmsk u32Meta).
    change (Z.of_nat (length au8CntTbl)) with 21. lia.
  - intros u32Meta h b Hbig. unfold KS_GetKeyWordCnt.
    destruct (array_get au8CntTbl (size_field u32Meta)) as [w |] eqn:E.
    + assert (Hs : is_Some (array_get au8CntTbl (size_field u32Meta)))
        by (rewrite E; eauto).
      apply array_get_Some in Hs.
      change (Z.of_nat (length au8CntTbl)) with 21 in Hs. lia.
    + reflexivity.
Qed.

Lemma KS_GetKeyWordCnt_bounds_witness :
  @size_field ks_header (Z.shiftl 21 8) = 21 /\
  @KS_GetKeyWordCnt ks_header (Z.shiftl 21 8) = None.
Proof.
  destruct (@KS_GetKeyWordCnt_bounds ks_header ltac:(cbn; lia) eq_refl)
    as (_ & _ & Hfield & Hsome & _).
  assert (Hf : @size_field ks_header (Z.shiftl 21 8) = 21)
    by (apply (Hfield 21); lia).
  split; [exact Hf |].
  destruct (@KS_GetKeyWordCnt ks_header (Z.shiftl 21 8)) as [w |] eqn:E;
    [| reflexivity].
  assert (Hs : is_Some (@KS_GetKeyWordCnt ks_header (Z.shiftl 21 8)))
    by (rewrite E; eauto).
  apply Hsome in Hs. rewrite Hf in Hs. lia.
Defined.

(** ** Termination *)

(** C10: with [KS_TIMEOUT] a positive 32-bit value, every polling loop of
    the driver ends after at most [KS_TIMEOUT] reads of the status register,
    returning [KS_ERR_TIMEOUT] when the last of them still shows the awaited
    condition unmet; and every operation ends, however the controller
    behaves: none exhausts a loop bound, and an operation that runs at most
    [waits op] polling loops reads the status register at most
    [3 + waits op * KS_TIMEOUT] times. *)
Theorem polling_is_bounded {cfg : Config} (hw : Hardware) :
  1 <= KS_TIMEOUT < 2 ^ 32 ->
  (forall cond h b,
      wait_outcome hw cond (Z.to_nat KS_TIMEOUT) h b (wait_on hw cond h b)) /\
  (forall op h b,
      res (call (body hw op) h b) <> Crashed OutOfFuel /\
      Z.of_nat (polls (events (call (body hw op) h b)))
        <= 3 + waits op * KS_TIMEOUT).
Proof.
  intros Ht.
  assert (Hbudget : poll_budget (u32 KS_TIMEOUT) = Z.to_nat KS_TIMEOUT).
  { rewrite u32_small by lia. unfold poll_budget.
    destruct (Z.eqb_spec KS_TIMEOUT 0); [lia | reflexivity]. }
  split.
  - intros cond h b. rewrite <- Hbudget. apply wait_on_spec.
  - intros op h b.
    apply (wp_call (body hw op) h b
             (fun e => res e <> Crashed OutOfFuel /\
                       Z.of_nat (polls (events e)) <= 3 + waits op * KS_TIMEOUT)).
    eapply wp_mono; [apply body_quiet |].
    intros r d b' [Hr Hd]. cbn [res events]. split.
    + destruct r as [c | c | e]; cbn; try discriminate.
      intros E. apply Hr. injection E as ->. reflexivity.
    + rewrite Hbudget in Hd.
      assert (Hw : 0 <= waits op).
      { destruct op; cbn; try lia.
        - pose proof (chunk_count_pos (s32 u32WordCnt)). lia.
        - destruct (KS_GetKeyWordCnt u32Meta) as [w |]; [| lia].
          pose proof (chunk_count_pos w). lia. }
      apply Nat2Z.inj_le in Hd.
      rewrite Nat2Z.inj_add, Nat2Z.inj_mul, !Z2Nat.id in Hd by lia.
      exact Hd.
Qed.

Lemma polling_is_bounded_witness :
  res (call (@body ks_header hw_stuck (Op_Read 0 3 20)) [] []) <> Crashed OutOfFuel /\
  Z.of_nat (polls (events (call (@body ks_header hw_stuck (Op_Read 0 3 20)) [] [])))
    <= 3 + 3 * 220000000.
Proof.
  assert (Ht : 1 <= @KS_TIMEOUT ks_header < 2 ^ 32)
    by (cbn; split; [discriminate | reflexivity]).
  destruct (@polling_is_bounded ks_header hw_stuck Ht) as [_ Hops].
  apply (Hops (Op_Read 0 3 20) [] []).
Defined.

(** * Further properties of the operations *)

(** ** The caller's buffer *)

(** X1: every operation other than [KS_Read] leaves the caller's key buffer
    as it found it, whatever the controller does and whatever the operation
    returns. *)
Theorem only_read_changes_buffer {cfg : Config} (hw : Hardware) op h b :
  keeps_buffer op = true -> keybuf (call (body hw op) h b) = b.
Proof.
  intros Hop.
  apply (wp_call (body hw op) h b (fun e => keybuf e = b)).
  apply Frame_body. exact Hop.
Qed.

Lemma only_read_changes_buffer_witness :
  keybuf (call (@body ks_header hw_faulty (Op_Write 0 1536)) []
               [1; 2; 3; 4; 5; 6; 7; 8])
    = [1; 2; 3; 4; 5; 6; 7; 8].
Proof.
  apply (@only_read_changes_buffer ks_header hw_faulty (Op_Write 0 1536)).
  reflexivity.
Defined.

(** X2: let [KS_Read] be called with a buffer of at least [u32WordCnt]
    words, the word count being one for which the loop counter does not
    overflow (as an [int32_t] it is at least [- 2^31 + 8]).  Whatever the
    controller does and however the read ends (busy, time-out, failure or
    success), no access falls outside of the buffer, and the buffer that
    [KS_Read] leaves holds the words read from the key window so far, in the
    order they were read, followed by the rest of the caller's buffer
    untouched.  Either all [u32WordCnt] words were read, or the read ended
    on [KS_ERR_TIMEOUT] or [KS_ERR_BUSY] after a whole number of chunks of
    eight words, fewer than [u32WordCnt] words in all. *)
Theorem KS_Read_buffer {cfg : Config} (hw : Hardware) h b
        eMemType i32KeyIdx u32WordCnt :
  - 2 ^ 31 + 8 <= s32 u32WordCnt <= Z.of_nat (length b) ->
  let e := call (KS_Read hw eMemType i32KeyIdx u32WordCnt) h b in
  let ws := map snd (window_reads 0 (events e)) in
  (forall x, res e <> Crashed x) /\
  (Z.of_nat (length ws) = Z.max 0 (s32 u32WordCnt) \/
   (res e = Done KS_ERR_TIMEOUT \/ res e = Done KS_ERR_BUSY) /\
   exists j, 0 <= j /\ Z.of_nat (length ws) = 8 * j /\
             8 * j < Z.max 1 (s32 u32WordCnt)) /\
  keybuf e = ws ++ drop (length ws) b.
Proof.
  intros Hcnt.
  apply (wp_call (KS_Read hw eMemType i32KeyIdx u32WordCnt) h b
           (fun e =>
              (forall x, res e <> Crashed x) /\
              (Z.of_nat (length (map snd (window_reads 0 (events e))))
                 = Z.max 0 (s32 u32WordCnt) \/
               (res e = Done KS_ERR_TIMEOUT \/ res e = Done KS_ERR_BUSY) /\
               exists j,
                 0 <= j /\
                 Z.of_nat (length (map snd (window_reads 0 (events e))))
                   = 8 * j /\
                 8 * j < Z.max 1 (s32 u32WordCnt)) /\
              keybuf e = map snd (window_reads 0 (events e))
                           ++ drop (length (map snd (window_reads 0 (events e)))) b)).
  unfold KS_Read. wp_walk.
  { cbn. split; [discriminate | split; [| reflexivity]].
    right. split; [right; reflexivity |]. exists 0. lia. }
  eapply wp_mono.
  { apply (read_chunks_partial hw _ 0 (s32 u32WordCnt) 0 _ _ 0%nat); try lia.
    pose proof (s32_range u32WordCnt). lia. }
  intros r d b' (Hr & Hn & Hbuf). cbn [Z.to_nat take app Nat.add] in Hbuf.
  destruct r as [[] | c | e]; [| | destruct (Hr e eq_refl)].
  - destruct Hn as [[_ Hn] | [[=] _]].
    wp_walk; cbn [res events keybuf to_result app window_reads];
      observe; cbn [window_reads]; rewrite app_nil_r, length_map;
      (split; [discriminate | split; [left; exact Hn | exact Hbuf]]).
  - destruct Hn as [[[=] _] | [[= ->] Hn]].
    cbn [res events keybuf to_result app window_reads].
    rewrite length_map.
    split; [discriminate | split; [| exact Hbuf]].
    right. split; [left; reflexivity | exact Hn].
Qed.

Lemma KS_Read_buffer_witness :
  keybuf (call (@KS_Read ks_header hw_idle 0 3 9) [] [1; 2; 3; 4; 5; 6; 7; 8; 9; 10])
    = map snd (window_reads 0
                 (events (call (@KS_Read ks_header hw_idle 0 3 9) []
                               [1; 2; 3; 4; 5; 6; 7; 8; 9; 10])))
        ++ [10].
Proof.
  destruct (@KS_Read_buffer ks_header hw_idle [] [1; 2; 3; 4; 5; 6; 7; 8; 9; 10]
                            0 3 9) as (_ & _ & Hbuf).
  - vm_compute. split; discriminate.
  - rewrite Hbuf. reflexivity.
Defined.

(** ** Array bounds and loop bounds *)

(** X3: when the key buffer holds the words that the operation moves, no
    operation reads or writes outside of the buffer or of its word-count
    table, and none runs a loop beyond its bound, whatever the controller
    does. *)
Theorem no_access_out_of_bounds {cfg : Config} (hw : Hardware) op h b :
  holds_key op b -> forall e, res (call (body hw op) h b) <> Crashed e.
Proof.
  intros Hkey.
  apply (wp_call (body hw op) h b (fun e => forall x, res e <> Crashed x)).
  eapply wp_mono; [apply body_in_bounds; exact Hkey |].
  intros r d b' Hr x. cbn [res]. destruct r as [c | c | e]; cbn; try discriminate.
  intros [= <-]. exact (Hr e eq_refl).
Qed.

Lemma no_access_out_of_bounds_witness :
  res (call (@body ks_header hw_faulty (Op_Write 0 2560)) [] (repeat 7 16%nat))
    <> Crashed OutOfBounds.
Proof.
  apply (@no_access_out_of_bounds ks_header hw_faulty (Op_Write 0 2560) []
           (repeat 7 16%nat)).
  exists 16. split; [reflexivity | right; right; cbn; lia].
Defined.

(** ** Return codes *)

(** X4: the codes that each operation can return.  [KS_Open] returns
    [KS_OK] or [KS_ERR_TIMEOUT] only; the commands without a parameter check
    never return [KS_ERR_PARAMETER]; [KS_ToggleSRAM] returns 0 or 1 when it
    succeeds, [KS_WriteOTP] the index it was given and [KS_Write] the index
    field of a metadata word. *)
Theorem return_codes {cfg : Config} (hw : Hardware) op h b c :
  res (call (body hw op) h b) = Done c -> may_return op c.
Proof.
  apply (wp_call (body hw op) h b (fun e => res e = Done c -> may_return op c)).
  eapply wp_mono; [apply Yields_body |].
  intros r d b' Hr. cbn [res].
  destruct r as [c' | c' | e]; cbn; [intros [= <-]; exact Hr ..| discriminate].
Qed.

Lemma return_codes_witness :
  @may_return ks_header (Op_WriteOTP 5 1536) 5.
Proof.
  apply (@return_codes ks_header hw_idle (Op_WriteOTP 5 1536) []
           [1; 2; 3; 4; 5; 6; 7; 8]).
  reflexivity.
Defined.

(** ** The order of the register accesses *)

(** X5: in every operation, whatever the controller does, the control
    register is written only when the driver has seen the controller idle:
    the status register was read since the last write of the control
    register (or since the operation began), and the latest of these reads
    showed the busy flag clear. *)
Theorem strobe_only_when_idle {cfg : Config} (hw : Hardware) op h b d1 v d2 :
  events (call (body hw op) h b) = d1 ++ EvWrite CTL v :: d2 ->
  seen_idle d1 = true.
Proof.
  intros Hsplit.
  assert (Hobeys : obeys idle_discipline false (events (call (body hw op) h b))).
  { apply (wp_call (body hw op) h b
             (fun e => obeys idle_discipline false (events e))).
    eapply wp_mono; [apply body_idle |]. intros r d b' [Hd _]. exact Hd. }
  exact (obeys_split idle_discipline false _ d1 _ d2 Hobeys Hsplit).
Qed.

Lemma strobe_only_when_idle_witness :
  @seen_idle ks_header [EvRead STS 0; EvRead STS 0] = true.
Proof.
  apply (@strobe_only_when_idle ks_header hw_modes Op_Open [] []
           [EvRead STS 0; EvRead STS 0] 257
           [EvRead STS 128; EvRead STS 128]).
  reflexivity.
Defined.

(** X6: in every operation but [KS_Open], whatever the controller does, the
    status register is written with the error and completion flags only
    (which clears them), and every write of the control register comes right
    after such a write, with nothing but a read of the control register in
    between. *)
Theorem flags_cleared_before_strobe {cfg : Config} (hw : Hardware) op h b :
  checks_busy op = true ->
  let d := events (call (body hw op) h b) in
  (forall d1 v d2, d = d1 ++ EvWrite STS v :: d2 ->
                   v = Z.lor KS_STS_EIF_Msk KS_STS_IF_Msk) /\
  (forall d1 v d2, d = d1 ++ EvWrite CTL v :: d2 -> just_cleared d1 = true).
Proof.
  intros Hop d.
  assert (Hobeys : obeys clear_discipline false d).
  { apply (wp_call (body hw op) h b
             (fun e => obeys clear_discipline false (events e))).
    eapply wp_mono; [apply body_clear; exact Hop |].
    intros r d' b' [Hd _]. exact Hd. }
  split; intros d1 v d2 Hsplit.
  - exact (obeys_split clear_discipline false _ d1 _ d2 Hobeys Hsplit).
  - exact (obeys_split clear_discipline false _ d1 _ d2 Hobeys Hsplit).
Qed.

Lemma flags_cleared_before_strobe_witness :
  just_cleared [EvRead STS 128; EvWrite METADATA 3145728; EvWrite STS 3;
                EvRead CTL 0] = true.
Proof.
  destruct (@flags_cleared_before_strobe ks_header hw_idle (Op_Read 0 3 4) []
              [0; 0; 0; 0] eq_refl) as [_ Hstrobe].
  apply (Hstrobe _ 1
           [EvRead STS 128; EvRead (KEY 0) 106; EvRead (KEY 1) 108;
            EvRead (KEY 2) 110; EvRead (KEY 3) 112; EvRead STS 128]).
  reflexivity.
Defined.

(** X7: in every operation but [KS_Open], whatever the controller does, the
    metadata register is the first register that is written, and it is
    written once: a write is that of the metadata register exactly when no
    register was written before it. *)
Theorem metadata_written_first {cfg : Config} (hw : Hardware) op h b d1 r v d2 :
  checks_busy op = true ->
  events (call (body hw op) h b) = d1 ++ EvWrite r v :: d2 ->
  (r = METADATA <-> written d1 = false).
Proof.
  intros Hop Hsplit.
  assert (Hobeys : obeys address_discipline false
                         (events (call (body hw op) h b))).
  { apply (wp_call (body hw op) h b
             (fun e => obeys address_discipline false (events e))).
    eapply wp_mono; [apply body_address; exact Hop |].
    intros r' d' b' [Hd _]. exact Hd. }
  pose proof (obeys_split address_discipline false _ d1 _ d2 Hobeys Hsplit)
    as Hallow.
  cbn [allow address_discipline address_allow] in Hallow.
  change (run address_discipline false d1) with (written d1) in Hallow.
  destruct r; try (split; [discriminate | rewrite Hallow; discriminate]).
  split; [intros _; exact Hallow | reflexivity].
Qed.

Lemma metadata_written_first_witness :
  METADATA = METADATA <-> written [EvRead STS 128] = false.
Proof.
  apply (@metadata_written_first ks_header hw_idle (Op_EraseKey 3) [] []
           [EvRead STS 128] METADATA 3145728
           [EvWrite STS 3; EvRead CTL 0; EvWrite CTL 5; EvRead STS 128;
            EvRead STS 128]).
  - reflexivity.
  - reflexivity.
Defined.

(** ** Initialisation *)

(** X8: [KS_Open] reads nothing but the status register and writes at most
    once: when the first read of the status register shows the
    initialisation done, its trace consists of reads of the status register;
    otherwise it may write the init and start bits to the control register,
    once, right after a read of the status register that shows the busy flag
    clear.  It returns [KS_OK] or [KS_ERR_TIMEOUT]. *)
Theorem KS_Open_trace {cfg : Config} (hw : Hardware) h b :
  let e := call (KS_Open hw) h b in
  let s0 := sts_after hw h in
  ((exists vs, events e = map (EvRead STS) (s0 :: vs)) \/
   (init_pending s0 = true /\
    exists vs1 v vs2,
      is_busy v = false /\
      events e = map (EvRead STS) (s0 :: vs1 ++ [v])
                   ++ EvWrite CTL (Z.lor KS_CTL_INIT_Msk KS_CTL_START_Msk)
                   :: map (EvRead STS) vs2)) /\
  (res e = Done KS_OK \/ res e = Done KS_ERR_TIMEOUT).
Proof.
  apply (wp_call (KS_Open hw) h b
           (fun e =>
              ((exists vs, events e = map (EvRead STS) (sts_after hw h :: vs)) \/
               (init_pending (sts_after hw h) = true /\
                exists vs1 v vs2,
                  is_busy v = false /\
                  events e = map (EvRead STS) (sts_after hw h :: vs1 ++ [v])
                     ++ EvWrite CTL (Z.lor KS_CTL_INIT_Msk KS_CTL_START_Msk)
                     :: map (EvRead STS) vs2)) /\
              (res e = Done KS_OK \/ res e = Done KS_ERR_TIMEOUT))).
  unfold KS_Open, init_pending. wp_steps. fold (sts_after hw h).
  destruct (Z.land (sts_after hw h) KS_STS_INITDONE_Msk =? 0) eqn:Hinit.
  - wp_steps. apply wp_wait_busy.
    2:{ intros vs _ _ _. split; [left; exists vs; reflexivity | right; reflexivity]. }
    intros vs1 v1 _ Hv1 _ _. wp_steps. apply wp_wait_on.
    2:{ intros vs _ _ _. split; [right | right; reflexivity].
        split; [reflexivity |]. exists vs1, v1, vs. split; [exact Hv1 |].
        flatten. reflexivity. }
    intros vs2 v2 _ _ _ _. wp_steps. apply wp_wait_busy.
    2:{ intros vs _ _ _. split; [right | right; reflexivity].
        split; [reflexivity |]. exists vs1, v1, ((vs2 ++ [v2]) ++ vs).
        split; [exact Hv1 |]. flatten. reflexivity. }
    intros vs3 v3 _ _ _ _. wp_steps. split; [right | left; reflexivity].
    split; [reflexivity |]. exists vs1, v1, ((vs2 ++ [v2]) ++ vs3 ++ [v3]).
    split; [exact Hv1 |]. flatten. reflexivity.
  - wp_steps. apply wp_wait_busy.
    + intros vs v _ _ _ _. wp_steps. split; [left | left; reflexivity].
      exists (vs ++ [v]). flatten. reflexivity.
    + intros vs _ _ _. split; [left | right; reflexivity].
      exists vs. reflexivity.
Qed.

(** X9: [KS_Open] returns [KS_OK] only after it has seen the controller
    initialised and idle: its last access is a read of the status register
    that shows the busy flag clear, and a read of the status register that
    shows the initialisation done is followed by no write of the control
    register. *)
Theorem KS_Open_ok {cfg : Config} (hw : Hardware) h b :
  KS_ERR_TIMEOUT <> KS_OK ->
  let e := call (KS_Open hw) h b in
  res e = Done KS_OK ->
  (exists d s, events e = d ++ [EvRead STS s] /\ is_busy s = false) /\
  (exists d1 s1 d2, events e = d1 ++ EvRead STS s1 :: d2 /\
                    init_pending s1 = false /\ ctl_writes d2 = []).
Proof.
  intros Hcodes.
  apply (wp_call (KS_Open hw) h b
           (fun e =>
              res e = Done KS_OK ->
              (exists d s, events e = d ++ [EvRead STS s] /\ is_busy s = false) /\
              (exists d1 s1 d2, events e = d1 ++ EvRead STS s1 :: d2 /\
                                init_pending s1 = false /\ ctl_writes d2 = []))).
  assert (Htimeout : forall P : Prop, Done KS_ERR_TIMEOUT = Done KS_OK -> P).
  { intros P [= Heq]. contradiction. }
  unfold KS_Open. wp_steps. fold (sts_after hw h).
  destruct (Z.land (sts_after hw h) KS_STS_INITDONE_Msk =? 0) eqn:Hinit.
  - wp_steps. apply wp_wait_busy; [| intros; eapply Htimeout; eassumption].
    intros vs1 v1 _ _ _ _. wp_steps.
    apply wp_wait_on; [| intros; eapply Htimeout; eassumption].
    intros vs2 v2 _ Hv2 _ _. wp_steps.
    apply wp_wait_busy; [| intros; eapply Htimeout; eassumption].
    intros vs3 v3 _ Hv3 _ _. wp_steps. intros _.
    set (strobe := EvWrite CTL (Z.lor KS_CTL_INIT_Msk KS_CTL_START_Msk)).
    split.
    + exists (EvRead STS (sts_after hw h)
              :: map (EvRead STS) (vs1 ++ [v1]) ++ strobe
              :: map (EvRead STS) (vs2 ++ [v2]) ++ map (EvRead STS) vs3), v3.
      split; [| exact Hv3]. flatten. reflexivity.
    + exists (EvRead STS (sts_after hw h)
              :: map (EvRead STS) (vs1 ++ [v1]) ++ strobe
              :: map (EvRead STS) vs2), v2, (map (EvRead STS) (vs3 ++ [v3])).
      split; [| split; [exact Hv2 |]].
      * flatten. reflexivity.
      * apply ctl_writes_reads.
  - wp_steps. apply wp_wait_busy; [| intros; eapply Htimeout; eassumption].
    intros vs v _ Hv _ _. wp_steps. intros _. split.
    + exists (EvRead STS (sts_after hw h) :: map (EvRead STS) vs), v.
      split; [| exact Hv]. flatten. reflexivity.
    + exists [], (sts_after hw h), (map (EvRead STS) (vs ++ [v])).
      split; [| split; [exact Hinit |]].
      * flatten. reflexivity.
      * apply ctl_writes_reads.
Qed.

Lemma KS_Open_ok_witness :
  (exists d s,
      events (call (@KS_Open ks_header hw_modes) [] []) = d ++ [EvRead STS s] /\
      @is_busy ks_header s = false) /\
  (exists d1 s1 d2,
      events (call (@KS_Open ks_header hw_modes) [] [])
        = d1 ++ EvRead STS s1 :: d2 /\
      @init_pending ks_header s1 = false /\ ctl_writes d2 = []).
Proof.
  apply (@KS_Open_ok ks_header hw_modes [] []).
  - discriminate.
  - reflexivity.
Defined.

(** X10: [KS_Open] on a controller that is initialised and idle makes two
    reads of the status register, writes nothing and returns [KS_OK]: it can
    be called again at no cost. *)
Theorem KS_Open_when_initialised {cfg : Config} (hw : Hardware) h b :
  init_pending (sts_after hw h) = false ->
  is_busy (sts_after hw (h ++ [EvRead STS (sts_after hw h)])) = false ->
  call (KS_Open hw) h b
    = mkEffect (Done KS_OK)
        [EvRead STS (sts_after hw h);
         EvRead STS (sts_after hw (h ++ [EvRead STS (sts_after hw h)]))] b.
Proof.
  intros Hinit Hidle. unfold init_pending in Hinit.
  apply (wp_call (KS_Open hw) h b
           (fun e =>
              e = mkEffect (Done KS_OK)
                    [EvRead STS (sts_after hw h);
                     EvRead STS
                       (sts_after hw (h ++ [EvRead STS (sts_after hw h)]))] b)).
  unfold KS_Open. wp_steps. fold (sts_after hw h). rewrite Hinit. wp_steps.
  rewrite app_nil_r.
  assert (Hfirst : forall vs v,
             Forall (fun x => is_busy x = true) vs ->
             polled hw (h ++ [EvRead STS (sts_after hw h)]) (vs ++ [v]) ->
             vs = [] /\ v = sts_after hw (h ++ [EvRead STS (sts_after hw h)])).
  { intros vs v Hall Hp. destruct vs as [| x vs].
    - cbn in Hp. split; [reflexivity | apply Hp].
    - cbn in Hp. destruct Hp as [Hx _]. apply Forall_inv in Hall.
      rewrite Hx, Hidle in Hall. discriminate. }
  apply wp_wait_busy.
  - intros vs v Hall _ _ Hp. destruct (Hfirst vs v Hall Hp) as [-> ->].
    wp_steps. reflexivity.
  - intros vs Hall Hlen Hp. exfalso.
    destruct vs as [| x vs].
    + pose proof (poll_budget_pos (u32 KS_TIMEOUT) (u32_range _)).
      cbn in Hlen. lia.
    + cbn in Hp. destruct Hp as [Hx _]. apply Forall_inv in Hall.
      rewrite Hx, Hidle in Hall. discriminate.
Qed.

Lemma KS_Open_when_initialised_witness :
  call (@KS_Open ks_header hw_idle) [] [7]
    = mkEffect (Done 0) [EvRead STS 128; EvRead STS 128] [7].
Proof.
  apply (@KS_Open_when_initialised ks_header hw_idle [] [7]); reflexivity.
Defined.

(** ** Commands of a single transaction *)

(** X11: the commands that move no key word ([KS_EraseKey],
    [KS_EraseOTPKey], [KS_LockOTPKey], [KS_EraseAll], [KS_RevokeKey]), called
    while the controller is not busy, perform exactly this sequence: the
    busy check, the write of the metadata word that addresses the key or the
    memory, the clearing of the flags, one write of the command word to the
    control register (after a read of that register when the mode bits are
    carried over), the polls of the busy flag, and, unless these run out of
    budget, one read of the status register for the error flag.  The return
    code is [KS_ERR_TIMEOUT] when the polls run out, [KS_ERR_FAIL] when the
    error flag is set and [KS_OK] otherwise; the key buffer is untouched. *)
Theorem single_shot_protocol {cfg : Config} (hw : Hardware) op h b
        address cmd keep :
  single_shot op = Some (address, cmd, keep) ->
  is_busy (sts_after hw h) = false ->
  exists ctl d c,
    call (body hw op) h b
      = mkEffect (Done c)
          (EvRead STS (sts_after hw h) :: EvWrite METADATA address
             :: EvWrite STS (Z.lor KS_STS_EIF_Msk KS_STS_IF_Msk)
             :: strobe keep cmd ctl ++ d) b /\
    completion KS_OK d c.
Proof.
  intros Hop Hidle. unfold sts_after in *.
  apply (wp_call (body hw op) h b
           (fun e =>
              exists ctl d c,
                e = mkEffect (Done c)
                      (EvRead STS (u32 (hw h STS)) :: EvWrite METADATA address
                         :: EvWrite STS (Z.lor KS_STS_EIF_Msk KS_STS_IF_Msk)
                         :: strobe keep cmd ctl ++ d) b /\
                completion KS_OK d c)).
  destruct op; try discriminate Hop; cbn [single_shot] in Hop;
    injection Hop as <- <- <-; unfold_op; wp_steps; rewrite Hidle;
    (apply wp_return_if; [discriminate | intros _]); wp_to_wait;
    apply wp_completion.
  all: first
         [ intros d c Hc; exists 0, d, c; split; [| exact Hc];
           cbn [to_result strobe app]; reflexivity
         | intros d Hc; exists 0, d, KS_OK; split; [| exact Hc];
           cbn [to_result strobe app]; reflexivity
         | intros d c Hc; eexists _, d, c; split; [| exact Hc];
           cbn [to_result strobe app]; reflexivity
         | intros d Hc; eexists _, d, KS_OK; split; [| exact Hc];
           cbn [to_result strobe app]; reflexivity ].
Qed.

Lemma single_shot_protocol_witness :
  exists d c,
    events (call (@body ks_header hw_faulty (Op_EraseOTPKey 2)) [] [])
      = [EvRead STS 128; EvWrite METADATA 2149580800; EvWrite STS 3;
         EvWrite CTL 5] ++ d /\
    @completion ks_header 0 d c.
Proof.
  destruct (@single_shot_protocol ks_header hw_faulty (Op_EraseOTPKey 2) [] []
              _ _ _ eq_refl eq_refl) as (ctl & d & c & Hcall & Hc).
  exists d, c. rewrite Hcall. split; [reflexivity | exact Hc].
Defined.

(** X12: [KS_ToggleSRAM], called while the controller is not busy, starts
    the anti-remanence command once, with the mode bits carried over, and
    waits for the busy flag.  When the wait ends in time and the status
    register read after it shows no error, it reads the status register
    once more and returns 1 when that last read shows the inversion flag and
    0 when it does not. *)
Theorem KS_ToggleSRAM_protocol {cfg : Config} (hw : Hardware) h b :
  is_busy (sts_after hw h) = false ->
  exists ctl d c,
    call (KS_ToggleSRAM hw) h b
      = mkEffect (Done c)
          (EvRead STS (sts_after hw h)
             :: EvWrite METADATA (shl32 KS_SRAM KS_METADATA_DST_Pos)
             :: EvWrite STS (Z.lor KS_STS_EIF_Msk KS_STS_IF_Msk)
             :: strobe true (Z.lor KS_OP_REMAN KS_CTL_START_Msk) ctl ++ d) b /\
    ((exists vs,
         Forall (fun x => is_busy x = true) vs /\
         length vs = poll_budget (u32 KS_TIMEOUT) /\
         d = map (EvRead STS) vs /\ c = KS_ERR_TIMEOUT) \/
     (exists vs v s,
         is_busy v = false /\ bit_set s KS_STS_EIF_Msk = true /\
         d = map (EvRead STS) (vs ++ [v]) ++ [EvRead STS s] /\
         c = KS_ERR_FAIL) \/
     (exists vs v s s',
         is_busy v = false /\ bit_set s KS_STS_EIF_Msk = false /\
         d = map (EvRead STS) (vs ++ [v]) ++ [EvRead STS s; EvRead STS s'] /\
         c = if Z.land s' KS_STS_RAMINV_Msk >? 0 then 1 else 0)).
Proof.
  intros Hidle. unfold sts_after in *.
  apply (wp_call (KS_ToggleSRAM hw) h b
           (fun e =>
              exists ctl d c,
                e = mkEffect (Done c)
                      (EvRead STS (u32 (hw h STS))
                         :: EvWrite METADATA (shl32 KS_SRAM KS_METADATA_DST_Pos)
                         :: EvWrite STS (Z.lor KS_STS_EIF_Msk KS_STS_IF_Msk)
                         :: strobe true (Z.lor KS_OP_REMAN KS_CTL_START_Msk) ctl
                         ++ d) b /\
                ((exists vs,
                     Forall (fun x => is_busy x = true) vs /\
                     length vs = poll_budget (u32 KS_TIMEOUT) /\
                     d = map (EvRead STS) vs /\ c = KS_ERR_TIMEOUT) \/
                 (exists vs v s,
                     is_busy v = false /\ bit_set s KS_STS_EIF_Msk = true /\
                     d = map (EvRead STS) (vs ++ [v]) ++ [EvRead STS s] /\
                     c = KS_ERR_FAIL) \/
                 (exists vs v s s',
                     is_busy v = false /\ bit_set s KS_STS_EIF_Msk = false /\
                     d = map (EvRead STS) (vs ++ [v])
                           ++ [EvRead STS s; EvRead STS s'] /\
                     c = if Z.land s' KS_STS_RAMINV_Msk >? 0 then 1 else 0)))).
  unfold KS_ToggleSRAM. wp_steps. rewrite Hidle.
  apply wp_return_if; [discriminate | intros _]. wp_steps.
  apply wp_wait_busy.
  - intros vs v _ Hv _ _. wp_steps. apply wp_return_if; intros Hs.
    + cbn [to_result strobe app].
      eexists _, _, _. split; [reflexivity |].
      right; left. eexists vs, v, _.
      split; [exact Hv | split; [exact Hs | split; reflexivity]].
    + wp_steps. cbn [to_result strobe app].
      eexists _, _, _. split; [reflexivity |].
      right; right. eexists vs, v, _, _.
      split; [exact Hv | split; [exact Hs | split; reflexivity]].
  - intros vs Hall Hlen _. cbn [to_result strobe app].
    eexists _, _, _. split; [reflexivity |].
    left. exists vs. repeat split; assumption.
Qed.

Lemma KS_ToggleSRAM_protocol_witness :
  exists ctl d c,
    events (call (@KS_ToggleSRAM ks_header hw_idle) [] [])
      = EvRead STS 128 :: EvWrite METADATA 0 :: EvWrite STS 3
          :: @strobe ks_header true 11 ctl ++ d /\
    res (call (@KS_ToggleSRAM ks_header hw_idle) [] []) = Done c.
Proof.
  destruct (@KS_ToggleSRAM_protocol ks_header hw_idle [] [] eq_refl)
    as (ctl & d & c & Hcall & _).
  exists ctl, d, c. rewrite Hcall. split; reflexivity.
Defined.

(** X13: [KS_WriteOTP], called while the controller is not busy with a size
    class of its table and a buffer that holds the words of that class,
    writes the metadata word (memory type OTP, the caller's metadata and
    key index), copies the words of the buffer to the key window in order,
    clears the flags, and starts one write command with the mode bits
    carried over and no continue bit.  It returns the key index that it was
    given, unless the polls run out ([KS_ERR_TIMEOUT]) or the error flag is
    set ([KS_ERR_FAIL]); it never reads the metadata register. *)
Theorem KS_WriteOTP_protocol {cfg : Config} (hw : Hardware) h b
        i32KeyIdx u32Meta w :
  is_busy (sts_after hw h) = false ->
  s32 (size_field u32Meta) <= Z.shiftr KS_META_256 KS_METADATA_SIZE_Pos ->
  array_get au8CntTblOTP (s32 (size_field u32Meta)) = Some w ->
  w <= Z.of_nat (length b) ->
  exists ctl d c,
    call (KS_WriteOTP hw i32KeyIdx u32Meta) h b
      = mkEffect (Done c)
          (EvRead STS (sts_after hw h)
             :: EvWrite METADATA
                  (Z.lor (Z.lor (shl32 KS_OTP KS_METADATA_DST_Pos) u32Meta)
                         (KS_TOMETAKEY i32KeyIdx))
             :: key_writes 0 (take (Z.to_nat w) b)
             ++ EvWrite STS (Z.lor KS_STS_EIF_Msk KS_STS_IF_Msk)
             :: strobe true (Z.lor KS_OP_WRITE KS_CTL_START_Msk) ctl ++ d) b /\
    completion i32KeyIdx d c.
Proof.
  intros Hidle Hclass Hw Hlen. unfold sts_after in *.
  pose proof (otp_count_range _ _ Hw) as Hrange.
  apply (wp_call (KS_WriteOTP hw i32KeyIdx u32Meta) h b
           (fun e =>
              exists ctl d c,
                e = mkEffect (Done c)
                      (EvRead STS (u32 (hw h STS))
                         :: EvWrite METADATA
                              (Z.lor (Z.lor (shl32 KS_OTP KS_METADATA_DST_Pos)
                                            u32Meta)
                                     (KS_TOMETAKEY i32KeyIdx))
                         :: key_writes 0 (take (Z.to_nat w) b)
                         ++ EvWrite STS (Z.lor KS_STS_EIF_Msk KS_STS_IF_Msk)
                         :: strobe true (Z.lor KS_OP_WRITE KS_CTL_START_Msk) ctl
                         ++ d) b /\
                completion i32KeyIdx d c)).
  unfold KS_WriteOTP. wp_steps. rewrite Hidle.
  apply wp_return_if; [discriminate | intros _]. wp_steps.
  apply wp_return_if.
  { intros Hgt. destruct (Z.gtb_spec (s32 (size_field u32Meta))
                            (Z.shiftr KS_META_256 KS_METADATA_SIZE_Pos));
      [lia | discriminate]. }
  intros _. wp_steps. rewrite Hw. cbn beta iota. wp_step.
  apply wp_copy_in; try lia. wp_to_wait.
  apply wp_completion.
  - intros d c Hc. eexists _, d, c. split; [| exact Hc].
    cbn [to_result strobe app drop Z.to_nat]. rewrite <- !app_assoc.
    reflexivity.
  - intros d Hc. eexists _, d, i32KeyIdx. split; [| exact Hc].
    cbn [to_result strobe app drop Z.to_nat]. rewrite <- !app_assoc.
    reflexivity.
Qed.

Lemma KS_WriteOTP_protocol_witness :
  exists ctl d c,
    call (@KS_WriteOTP ks_header hw_idle 5 1536) [] [1; 2; 3; 4; 5; 6; 7; 8]
      = mkEffect (Done c)
          (EvRead STS 128 :: EvWrite METADATA 2152728064
             :: key_writes 0 [1; 2; 3; 4; 5; 6; 7; 8]
             ++ EvWrite STS 3 :: @strobe ks_header true 3 ctl ++ d)
          [1; 2; 3; 4; 5; 6; 7; 8] /\
    @completion ks_header 5 d c.
Proof.
  apply (@KS_WriteOTP_protocol ks_header hw_idle [] [1; 2; 3; 4; 5; 6; 7; 8]
           5 1536 8).
  - reflexivity.
  - vm_compute. discriminate.
  - reflexivity.
  - cbn. lia.
Defined.

(** ** Short reads *)

(** X14: a read of at most eight words is a single transaction.  Called
    while the controller is not busy, with a word count [n] of at most 8
    (as an [int32_t]: 0 and the counts from [2^31 + 8] on, which are
    negative, are among them) and a buffer of [n] words, [KS_Read] starts
    one read command, without the continue bit in the command word.  When
    the polls run out it returns [KS_ERR_TIMEOUT] and leaves the buffer
    alone.  Otherwise it reads the key window from index 0 to [n - 1] into
    the first [n] words of the buffer (nothing when [n <= 0]), reads the
    status register once more and returns [KS_ERR_FAIL] or [KS_OK]. *)
Theorem KS_Read_single_transaction {cfg : Config} (hw : Hardware) h b
        eMemType i32KeyIdx u32WordCnt :
  is_busy (sts_after hw h) = false ->
  - 2 ^ 31 + 8 <= s32 u32WordCnt <= 8 ->
  s32 u32WordCnt <= Z.of_nat (length b) ->
  let n := Z.to_nat (s32 u32WordCnt) in
  exists ctl d c b',
    call (KS_Read hw eMemType i32KeyIdx u32WordCnt) h b
      = mkEffect (Done c)
          (EvRead STS (sts_after hw h)
             :: EvWrite METADATA
                  (Z.lor (shl32 eMemType KS_METADATA_DST_Pos)
                         (KS_TOMETAKEY i32KeyIdx))
             :: EvWrite STS (Z.lor KS_STS_EIF_Msk KS_STS_IF_Msk)
             :: strobe true (Z.lor KS_OP_READ KS_CTL_START_Msk) ctl ++ d) b' /\
    ((exists vs,
         Forall (fun x => is_busy x = true) vs /\
         length vs = poll_budget (u32 KS_TIMEOUT) /\
         d = map (EvRead STS) vs /\ c = KS_ERR_TIMEOUT /\ b' = b) \/
     (exists vs v ws s,
         is_busy v = false /\ length ws = n /\
         d = map (EvRead STS) (vs ++ [v]) ++ key_reads 0 ws ++ [EvRead STS s] /\
         c = (if bit_set s KS_STS_EIF_Msk then KS_ERR_FAIL else KS_OK) /\
         b' = ws ++ drop n b)).
Proof.
  intros Hidle Hcnt Hlen n. unfold sts_after in *.
  apply (wp_call (KS_Read hw eMemType i32KeyIdx u32WordCnt) h b
           (fun e =>
              exists ctl d c b',
                e = mkEffect (Done c)
                      (EvRead STS (u32 (hw h STS))
                         :: EvWrite METADATA
                              (Z.lor (shl32 eMemType KS_METADATA_DST_Pos)
                                     (KS_TOMETAKEY i32KeyIdx))
                         :: EvWrite STS (Z.lor KS_STS_EIF_Msk KS_STS_IF_Msk)
                         :: strobe true (Z.lor KS_OP_READ KS_CTL_START_Msk) ctl
                         ++ d) b' /\
                ((exists vs,
                     Forall (fun x => is_busy x = true) vs /\
                     length vs = poll_budget (u32 KS_TIMEOUT) /\
                     d = map (EvRead STS) vs /\ c = KS_ERR_TIMEOUT /\ b' = b) \/
                 (exists vs v ws s,
                     is_busy v = false /\ length ws = n /\
                     d = map (EvRead STS) (vs ++ [v]) ++ key_reads 0 ws
                           ++ [EvRead STS s] /\
                     c = (if bit_set s KS_STS_EIF_Msk then KS_ERR_FAIL
                          else KS_OK) /\
                     b' = ws ++ drop n b)))).
  unfold KS_Read. wp_steps. rewrite Hidle.
  apply wp_return_if; [discriminate | intros _]. wp_steps.
  assert (Hlast : s32 (s32 u32WordCnt - 8) <= 0) by (rewrite s32_small; lia).
  rewrite (chunk_count_last _ Hlast). change (Z.to_nat 1) with 1%nat.
  cbn [read_chunks]. unfold read_chunk. wp_steps.
  apply wp_wait_busy.
  2:{ intros vs Hall Hn _. cbn [to_result strobe app].
      eexists _, _, _, _. split; [reflexivity |].
      left. exists vs. repeat split; assumption. }
  intros vs v _ Hv _ _. cbn beta iota.
  destruct (Z.gtb_spec (s32 u32WordCnt) 8) as [? | _]; [lia |].
  apply wp_copy_out_exact; try lia. cbn beta iota.
  destruct (Z.gtb_spec (s32 (s32 u32WordCnt - 8)) 0) as [? | _]; [lia |].
  set (ws := window hw _ 0 _).
  assert (Hws : length ws = n) by apply window_length.
  wp_steps. set (s := u32 (hw _ STS)).
  apply wp_return_if; intros Hs; [| wp_steps];
    cbn [to_result strobe app take Z.to_nat Nat.add];
    rewrite ?app_nil_r;
    (eexists _, _, _, _; split; [reflexivity |]);
    right; exists vs, v, ws, s; rewrite Hs;
    (split; [exact Hv | split; [exact Hws | split; [| split; reflexivity]]]);
    rewrite <- ?app_assoc; reflexivity.
Qed.

Lemma KS_Read_single_transaction_witness :
  exists ctl d c b',
    call (@KS_Read ks_header hw_idle 0 3 0) [] []
      = mkEffect (Done c)
          (EvRead STS 128 :: EvWrite METADATA 3145728 :: EvWrite STS 3
             :: @strobe ks_header true 1 ctl ++ d) b' /\
    ((exists vs,
         Forall (fun x => @is_busy ks_header x = true) vs /\
         length vs = @poll_budget (u32 (@KS_TIMEOUT ks_header)) /\
         d = map (EvRead STS) vs /\ c = -2 /\ b' = []) \/
     (exists vs v ws s,
         @is_busy ks_header v = false /\ length ws = 0%nat /\
         d = map (EvRead STS) (vs ++ [v]) ++ key_reads 0 ws ++ [EvRead STS s] /\
         c = (if bit_set s 2 then -1 else 0) /\
         b' = ws ++ [])).
Proof.
  apply (@KS_Read_single_transaction ks_header hw_idle [] [] 0 3 0).
  - reflexivity.
  - vm_compute. split; discriminate.
  - vm_compute. discriminate.
Defined.

(** ** Chunked writes *)

(** X15: let [KS_Write] be called with a size class of [w] words, [w > 0]
    (and [w <= 8] when the memory is the OTP), and a buffer of at least [w]
    words, on a controller whose busy flag is clear at entry and clears
    within the time-out of every wait.  Then it writes the control register
    exactly [ceil (w / 8)] times, the first time with the continue bit clear
    and every other time with it set; the [j]-th word of the buffer,
    [0 <= j < w], is written to index [j mod 8] of the key window before
    transaction [j / 8 + 1] is started, the words going out in the order of
    the buffer; the buffer is unchanged; and the function returns
    [KS_ERR_FAIL] or the index field of the metadata register that it reads
    last. *)
Theorem KS_Write_chunked {cfg : Config} (hw : Hardware) h b
        eMemType u32Meta w :
  KS_GetKeyWordCnt u32Meta = Some w -> 0 < w ->
  ~ (eMemType = KS_OTP /\ 8 < w) ->
  w <= Z.of_nat (length b) ->
  1 <= KS_TIMEOUT < 2 ^ 32 ->
  write_layout ->
  is_busy (sts_after hw h) = false ->
  (forall d, KS_TIMEOUT <= 1 + Z.of_nat (trailing_polls d) ->
             is_busy (sts_after hw (h ++ d)) = false) ->
  let e := call (KS_Write hw eMemType u32Meta) h b in
  let writes := window_writes 0 (events e) in
  (res e = Done KS_ERR_FAIL \/
   exists meta, last (events e) = Some (EvRead METADATA meta) /\
                res e = Done (s32 (KS_TOKEYIDX meta))) /\
  length (ctl_writes (events e)) = Z.to_nat ((w + 7) / 8) /\
  (exists first rest,
      ctl_writes (events e) = first :: rest /\
      Z.land first KS_CTL_CONT_Msk = 0 /\
      Forall (fun v => Z.land v KS_CTL_CONT_Msk = KS_CTL_CONT_Msk) rest) /\
  map fst writes = map (fun j => (Z.to_nat (j / 8), j mod 8)) (seqZ 0 w) /\
  map snd writes = take (Z.to_nat w) b /\
  keybuf e = b.
Proof.
  intros Hw Hpos Hotp Hlen Ht Hlayout Hidle Hclear0.
  assert (Hclear : forall d,
             (poll_budget (u32 KS_TIMEOUT) <= S (trailing_polls d))%nat ->
             is_busy (sts_after hw (h ++ d)) = false).
  { intros d Hd. apply Hclear0. revert Hd.
    rewrite u32_small by lia. unfold poll_budget.
    destruct (Z.eqb_spec KS_TIMEOUT 0); lia. }
  clear Hclear0. unfold sts_after in Hidle.
  pose proof (word_count_range _ _ Hw) as Hrange.
  cbv zeta.
  apply (wp_call (KS_Write hw eMemType u32Meta) h b
           (fun e =>
              (res e = Done KS_ERR_FAIL \/
               exists meta, last (events e) = Some (EvRead METADATA meta) /\
                            res e = Done (s32 (KS_TOKEYIDX meta))) /\
              length (ctl_writes (events e)) = Z.to_nat ((w + 7) / 8) /\
              (exists first rest,
                  ctl_writes (events e) = first :: rest /\
                  Z.land first KS_CTL_CONT_Msk = 0 /\
                  Forall (fun v => Z.land v KS_CTL_CONT_Msk = KS_CTL_CONT_Msk)
                         rest) /\
              map fst (window_writes 0 (events e))
                = map (fun j => (Z.to_nat (j / 8), j mod 8)) (seqZ 0 w) /\
              map snd (window_writes 0 (events e)) = take (Z.to_nat w) b /\
              keybuf e = b)).
  unfold KS_Write. wp_steps. rewrite Hidle.
  apply wp_return_if; [discriminate | intros _].
  wp_steps. rewrite Hw. cbn beta iota. wp_step.
  apply wp_return_if.
  { intros Hz. apply Z.eqb_eq in Hz. lia. }
  intros _. wp_step. apply wp_return_if.
  { intros Hc. apply andb_true_iff in Hc. destruct Hc as [Hm Hl].
    apply Z.eqb_eq in Hm. destruct (Z.gtb_spec w 8); [| discriminate].
    exfalso. apply Hotp. split; assumption. }
  intros _. wp_step. hist.
  eapply wp_mono.
  { apply (write_chunks_run hw h Hclear Hlayout _ 0 w 0 _ b 0%nat); lia. }
  intros r d2 b2 (-> & -> & Hcount & (first & rest & Hctl & Hfirst & Hrest)
                  & Htags & Hvals).
  wp_steps.
  assert (Hobs : forall tail,
             ctl_writes tail = [] ->
             window_writes (length (ctl_writes d2)) tail = [] ->
             length (ctl_writes
                       ([EvRead STS (u32 (hw h STS))] ++ [] ++
                        [EvWrite METADATA
                           (Z.lor (shl32 eMemType KS_METADATA_DST_Pos) u32Meta)]
                        ++ [] ++ [] ++ [] ++ d2 ++ tail))
               = Z.to_nat ((w + 7) / 8) /\
             (exists first rest,
                 ctl_writes
                   ([EvRead STS (u32 (hw h STS))] ++ [] ++
                    [EvWrite METADATA
                       (Z.lor (shl32 eMemType KS_METADATA_DST_Pos) u32Meta)]
                    ++ [] ++ [] ++ [] ++ d2 ++ tail)
                   = first :: rest /\
                 Z.land first KS_CTL_CONT_Msk = 0 /\
                 Forall (fun v => Z.land v KS_CTL_CONT_Msk = KS_CTL_CONT_Msk)
                        rest) /\
             map fst (window_writes 0
                        ([EvRead STS (u32 (hw h STS))] ++ [] ++
                         [EvWrite METADATA
                            (Z.lor (shl32 eMemType KS_METADATA_DST_Pos) u32Meta)]
                         ++ [] ++ [] ++ [] ++ d2 ++ tail))
               = map (fun j => (Z.to_nat (j / 8), j mod 8)) (seqZ 0 w) /\
             map snd (window_writes 0
                        ([EvRead STS (u32 (hw h STS))] ++ [] ++
                         [EvWrite METADATA
                            (Z.lor (shl32 eMemType KS_METADATA_DST_Pos) u32Meta)]
                         ++ [] ++ [] ++ [] ++ d2 ++ tail))
               = take (Z.to_nat w) b /\
             b = b).
  { intros tail Htail Hwin. cbn [app ctl_writes window_writes].
    rewrite ctl_writes_app, window_writes_app. cbn [Nat.add].
    rewrite Htail, Hwin, !app_nil_r.
    split; [rewrite Hcount, chunk_count_ceil by lia; reflexivity |].
    split.
    { exists first, rest. split; [exact Hctl |]. split; [| exact Hrest].
      rewrite Hfirst. apply Z.land_0_l. }
    split; [exact Htags |]. split; [| reflexivity].
    rewrite Hvals. reflexivity. }
  apply wp_return_if; intros _; wp_steps.
  - split; [left; reflexivity |]. apply (Hobs [EvRead STS _]); reflexivity.
  - split.
    + right. eexists. split; [| reflexivity].
      cbn [events]. rewrite !last_cons, !last_app. reflexivity.
    + apply (Hobs ([EvRead STS _] ++ [] ++ [EvRead METADATA _] ++ []));
        reflexivity.
Qed.

Lemma KS_Write_chunked_witness :
  Z.of_nat (length (ctl_writes
                      (events (call (@KS_Write ks_header hw_idle 0 2560) []
                                    (seqZ 1 16))))) = 2 /\
  map snd (window_writes 0
             (events (call (@KS_Write ks_header hw_idle 0 2560) []
                           (seqZ 1 16))))
    = seqZ 1 16.
Proof.
  destruct (@KS_Write_chunked ks_header hw_idle [] (seqZ 1 16) 0 2560 16)
    as (_ & Hcount & _ & _ & Hvals & _).
  - reflexivity.
  - lia.
  - intros [Hotp _]. discriminate Hotp.
  - vm_compute. discriminate.
  - cbn. lia.
  - reflexivity.
  - reflexivity.
  - intros d _. reflexivity.
  - rewrite Hcount, Hvals. split; reflexivity.
Defined.

(** ** The two word-count tables *)

(** X16: the size classes that [KS_Write] accepts for the OTP, those of a
    word count between 1 and 8 in its table of 21 classes, are exactly the
    classes of the table of [KS_WriteOTP], and the two tables give them the
    same word count. *)
Theorem otp_tables_agree (code w : Z) :
  array_get au8CntTbl code = Some w ->
  (0 < w <= 8 <-> array_get au8CntTblOTP code = Some w).
Proof.
  unfold array_get, au8CntTbl, au8CntTblOTP.
  destruct (code <? 0); [discriminate |].
  generalize (Z.to_nat code) as n. intros n.
  do 21 (destruct n as [| n];
         [cbn; intros [= <-]; split; [intros ?; first [reflexivity | lia]
                                     | intros ?; first [lia | discriminate]] |]).
  discriminate.
Qed.

Lemma otp_tables_agree_witness :
  0 < 8 <= 8 <-> array_get au8CntTblOTP 6 = Some 8.
Proof. apply (otp_tables_agree 6 8). reflexivity. 
Defined.

(** X17: the check of [KS_WriteOTP] on the size class protects its table.
    With a five-bit size field of which the 256-bit class is class 6 at
    most, [KS_WriteOTP] called with a buffer of eight words reads neither
    outside of its table of seven word counts nor outside of the buffer,
    whatever the metadata word, the key index and the controller. *)
Theorem KS_WriteOTP_in_bounds {cfg : Config} (hw : Hardware) h b
        i32KeyIdx u32Meta :
  0 <= KS_METADATA_SIZE_Pos ->
  KS_METADATA_SIZE_Msk = Z.shiftl 31 KS_METADATA_SIZE_Pos ->
  Z.shiftr KS_META_256 KS_METADATA_SIZE_Pos <= 6 ->
  8 <= Z.of_nat (length b) ->
  forall e, res (call (KS_WriteOTP hw i32KeyIdx u32Meta) h b) <> Crashed e.
Proof.
  intros Hpos Hmsk H256 Hlen.
  assert (Hkey : holds_key (Op_WriteOTP i32KeyIdx u32Meta) b).
  { cbn [holds_key].
    pose proof (size_field_range Hpos Hmsk u32Meta) as Hrange.
    rewrite s32_small by lia.
    destruct (Z_lt_le_dec (Z.shiftr KS_META_256 KS_METADATA_SIZE_Pos)
                          (size_field u32Meta)) as [Hgt | Hle];
      [left; exact Hgt | right].
    destruct (array_get au8CntTblOTP (size_field u32Meta)) as [w |] eqn:Hw.
    - exists w. split; [reflexivity |].
      pose proof (otp_count_range _ _ Hw). lia.
    - exfalso. assert (Hsome : is_Some (array_get au8CntTblOTP
                                          (size_field u32Meta))).
      { apply array_get_Some. cbn. lia. }
      rewrite Hw in Hsome. destruct Hsome as [x Hx]. discriminate. }
  apply (wp_call (KS_WriteOTP hw i32KeyIdx u32Meta) h b
           (fun e => forall x, res e <> Crashed x)).
  eapply wp_mono;
    [apply (body_in_bounds hw (Op_WriteOTP i32KeyIdx u32Meta)); exact Hkey |].
  intros r d b' Hr x. cbn [res]. destruct r as [c | c | e]; cbn; try discriminate.
  intros [= <-]. exact (Hr e eq_refl).
Qed.

Lemma KS_WriteOTP_in_bounds_witness :
  res (call (@KS_WriteOTP ks_header hw_faulty 0 7936) [] (repeat 0 8%nat))
    <> Crashed OutOfBounds.
Proof.
  apply (@KS_WriteOTP_in_bounds ks_header hw_faulty [] (repeat 0 8%nat) 0 7936).
  - vm_compute. discriminate.
  - reflexivity.
  - vm_compute. discriminate.
  - vm_compute. discriminate.
Defined.

(** ** Keys shorter than their size class *)

(** X18: [KS_Write] takes the number of words to move from the size class,
    not from the caller.  Called while the controller is not busy with a
    size class that passes the parameter checks and a buffer shorter than
    the first chunk of that class, it writes the metadata register, copies
    the whole buffer to the key window and then reads past the end of the
    buffer, before any command is started. *)
Theorem KS_Write_short_buffer {cfg : Config} (hw : Hardware) h b
        eMemType u32Meta w :
  is_busy (sts_after hw h) = false ->
  KS_GetKeyWordCnt u32Meta = Some w -> 0 < w ->
  ~ (eMemType = KS_OTP /\ 8 < w) ->
  Z.of_nat (length b) < Z.min w 8 ->
  call (KS_Write hw eMemType u32Meta) h b
    = mkEffect (Crashed OutOfBounds)
        (EvRead STS (sts_after hw h)
           :: EvWrite METADATA
                (Z.lor (shl32 eMemType KS_METADATA_DST_Pos) u32Meta)
           :: key_writes 0 b) b.
Proof.
  intros Hidle Hw Hpos Hotp Hlen. unfold sts_after in *.
  apply (wp_call (KS_Write hw eMemType u32Meta) h b
           (fun e =>
              e = mkEffect (Crashed OutOfBounds)
                    (EvRead STS (u32 (hw h STS))
                       :: EvWrite METADATA
                            (Z.lor (shl32 eMemType KS_METADATA_DST_Pos) u32Meta)
                       :: key_writes 0 b) b)).
  unfold KS_Write. wp_steps. rewrite Hidle.
  apply wp_return_if; [discriminate | intros _].
  wp_steps. rewrite Hw. cbn beta iota. wp_step.
  apply wp_return_if.
  { intros Hz. apply Z.eqb_eq in Hz. lia. }
  intros _. wp_step. apply wp_return_if.
  { intros Hc. apply andb_true_iff in Hc. destruct Hc as [Hm Hl].
    apply Z.eqb_eq in Hm. destruct (Z.gtb_spec w 8); [| discriminate].
    exfalso. apply Hotp. split; assumption. }
  intros _. wp_step. rewrite chunk_fuel. cbn [write_chunks].
  wp_step. unfold write_chunk. wp_step.
  unfold wp, copy_in.
  rewrite (for_loop_copy_in_short 0)
    by (destruct (Z.gtb_spec w 8); lia).
  cbn [to_result app drop Z.to_nat Z.add]. reflexivity.
Qed.

Lemma KS_Write_short_buffer_witness :
  call (@KS_Write ks_header hw_idle 0 1536) [] [1; 2; 3]
    = mkEffect (Crashed OutOfBounds)
        [EvRead STS 128; EvWrite METADATA 1536; EvWrite (KEY 0) 1;
         EvWrite (KEY 1) 2; EvWrite (KEY 2) 3] [1; 2; 3].
Proof.
  apply (@KS_Write_short_buffer ks_header hw_idle [] [1; 2; 3] 0 1536 8).
  - reflexivity.
  - reflexivity.
  - lia.
  - intros [Hotp _]. discriminate Hotp.
  - cbn. lia.
Defined.

(** ** The capacity counters *)

(** X19: [KS_GetRemainSize] reads the counter register [REMAIN] once for
    the SRAM and the flash and returns the field of that memory, that is
    the bits of the register under the mask of the memory, shifted down to
    bit 0: the field [RRMNG] for the SRAM and the field [FRMNG] for the
    flash.  For any other memory type it reads no register and returns
    [KS_ERR_PARAMETER] converted to [uint32_t].  That value stands for the
    error only: with fields that end below it, no size read from the
    register equals it. *)
Theorem KS_GetRemainSize_error {cfg : Config} {cnt : Counters}
        (ks : counter -> Z) (eMemType : Z) :
  0 <= KS_REMAIN_RRMNG_Msk < u32 KS_ERR_PARAMETER -> 0 <= KS_REMAIN_RRMNG_Pos ->
  0 <= KS_REMAIN_FRMNG_Msk < u32 KS_ERR_PARAMETER -> 0 <= KS_REMAIN_FRMNG_Pos ->
  (eMemType = KS_SRAM ->
   KS_GetRemainSize ks eMemType
     = (Z.shiftr (Z.land (u32 (ks REMAIN)) KS_REMAIN_RRMNG_Msk)
                 KS_REMAIN_RRMNG_Pos, [REMAIN])) /\
  (eMemType <> KS_SRAM -> eMemType = KS_FLASH ->
   KS_GetRemainSize ks eMemType
     = (Z.shiftr (Z.land (u32 (ks REMAIN)) KS_REMAIN_FRMNG_Msk)
                 KS_REMAIN_FRMNG_Pos, [REMAIN])) /\
  (eMemType = KS_SRAM \/ eMemType = KS_FLASH ->
   snd (KS_GetRemainSize ks eMemType) = [REMAIN] /\
   0 <= fst (KS_GetRemainSize ks eMemType) < u32 KS_ERR_PARAMETER) /\
  (eMemType <> KS_SRAM -> eMemType <> KS_FLASH ->
   KS_GetRemainSize ks eMemType = (u32 KS_ERR_PARAMETER, [])).
Proof.
  intros Hrm Hrp Hfm Hfp. unfold KS_GetRemainSize.
  pose proof (field_bound ks REMAIN _ _ (proj1 Hrm) Hrp).
  pose proof (field_bound ks REMAIN _ _ (proj1 Hfm) Hfp).
  destruct (Z.eqb_spec eMemType KS_SRAM) as [Hs | Hs];
    [| destruct (Z.eqb_spec eMemType KS_FLASH) as [Hf | Hf]]; cbn [fst snd].
  - split; [reflexivity |]. split; [intros Hn; contradiction |].
    split; [intros _; split; [reflexivity | lia] | intros Hn; contradiction].
  - split; [intros Hn; contradiction |]. split; [reflexivity |].
    split; [intros _; split; [reflexivity | lia] | intros _ Hn; contradiction].
  - split; [intros Hn; contradiction |].
    split; [intros _ Hn; contradiction |].
    split; [intros [? | ?]; contradiction | reflexivity].
Qed.

Lemma KS_GetRemainSize_error_witness :
  @KS_GetRemainSize ks_header ks_counters ks_counts 0 = (512, [REMAIN]) /\
  @KS_GetRemainSize ks_header ks_counters ks_counts 1 = (1000, [REMAIN]) /\
  @KS_GetRemainSize ks_header ks_counters ks_counts 2 = (4294967291, []).
Proof.
  assert (Hr : 0 <= @KS_REMAIN_RRMNG_Msk ks_counters
               < u32 (@KS_ERR_PARAMETER ks_header))
    by (vm_compute; split; [discriminate | reflexivity]).
  assert (Hf : 0 <= @KS_REMAIN_FRMNG_Msk ks_counters
               < u32 (@KS_ERR_PARAMETER ks_header))
    by (vm_compute; split; [discriminate | reflexivity]).
  assert (Hrp : 0 <= @KS_REMAIN_RRMNG_Pos ks_counters)
    by (vm_compute; discriminate).
  assert (Hfp : 0 <= @KS_REMAIN_FRMNG_Pos ks_counters)
    by (vm_compute; discriminate).
  split; [| split].
  - destruct (@KS_GetRemainSize_error ks_header ks_counters ks_counts 0
                Hr Hrp Hf Hfp) as [Hsram _].
    rewrite (Hsram eq_refl). reflexivity.
  - destruct (@KS_GetRemainSize_error ks_header ks_counters ks_counts 1
                Hr Hrp Hf Hfp) as (_ & Hflash & _).
    rewrite Hflash; [reflexivity | discriminate | reflexivity].
  - destruct (@KS_GetRemainSize_error ks_header ks_counters ks_counts 2
                Hr Hrp Hf Hfp) as (_ & _ & _ & Herr).
    apply Herr; discriminate.
Defined.

(** X20: [KS_GetRemainKeyCount] reads the counter register [REMKCNT] once
    for the SRAM and the flash and returns the field of that memory, that
    is the bits of the register under the mask of the memory, shifted down
    to bit 0: the field [RRMKCNT] for the SRAM and the field [FRMKCNT] for
    the flash.  For any other memory type it reads no register and returns
    [KS_ERR_PARAMETER] converted to [uint32_t], a value that no count read
    from the register equals when the fields end below it. *)
Theorem KS_GetRemainKeyCount_error {cfg : Config} {cnt : Counters}
        (ks : counter -> Z) (eMemType : Z) :
  0 <= KS_REMKCNT_RRMKCNT_Msk < u32 KS_ERR_PARAMETER ->
  0 <= KS_REMKCNT_RRMKCNT_Pos ->
  0 <= KS_REMKCNT_FRMKCNT_Msk < u32 KS_ERR_PARAMETER ->
  0 <= KS_REMKCNT_FRMKCNT_Pos ->
  (eMemType = KS_SRAM ->
   KS_GetRemainKeyCount ks eMemType
     = (Z.shiftr (Z.land (u32 (ks REMKCNT)) KS_REMKCNT_RRMKCNT_Msk)
                 KS_REMKCNT_RRMKCNT_Pos, [REMKCNT])) /\
  (eMemType <> KS_SRAM -> eMemType = KS_FLASH ->
   KS_GetRemainKeyCount ks eMemType
     = (Z.shiftr (Z.land (u32 (ks REMKCNT)) KS_REMKCNT_FRMKCNT_Msk)
                 KS_REMKCNT_FRMKCNT_Pos, [REMKCNT])) /\
  (eMemType = KS_SRAM \/ eMemType = KS_FLASH ->
   snd (KS_GetRemainKeyCount ks eMemType) = [REMKCNT] /\
   0 <= fst (KS_GetRemainKeyCount ks eMemType) < u32 KS_ERR_PARAMETER) /\
  (eMemType <> KS_SRAM -> eMemType <> KS_FLASH ->
   KS_GetRemainKeyCount ks eMemType = (u32 KS_ERR_PARAMETER, [])).
Proof.
  intros Hrm Hrp Hfm Hfp. unfold KS_GetRemainKeyCount.
  pose proof (field_bound ks REMKCNT _ _ (proj1 Hrm) Hrp).
  pose proof (field_bound ks REMKCNT _ _ (proj1 Hfm) Hfp).
  destruct (Z.eqb_spec eMemType KS_SRAM) as [Hs | Hs];
    [| destruct (Z.eqb_spec eMemType KS_FLASH) as [Hf | Hf]]; cbn [fst snd].
  - split; [reflexivity |]. split; [intros Hn; contradiction |].
    split; [intros _; split; [reflexivity | lia] | intros Hn; contradiction].
  - split; [intros Hn; contradiction |]. split; [reflexivity |].
    split; [intros _; split; [reflexivity | lia] | intros _ Hn; contradiction].
  - split; [intros Hn; contradiction |].
    split; [intros _ Hn; contradiction |].
    split; [intros [? | ?]; contradiction | reflexivity].
Qed.

Lemma KS_GetRemainKeyCount_error_witness :
  @KS_GetRemainKeyCount ks_header ks_counters ks_counts 0 = (7, [REMKCNT]) /\
  @KS_GetRemainKeyCount ks_header ks_counters ks_counts 1 = (20, [REMKCNT]) /\
  @KS_GetRemainKeyCount ks_header ks_counters ks_counts 2 = (4294967291, []).
Proof.
  assert (Hr : 0 <= @KS_REMKCNT_RRMKCNT_Msk ks_counters
               < u32 (@KS_ERR_PARAMETER ks_header))
    by (vm_compute; split; [discriminate | reflexivity]).
  assert (Hf : 0 <= @KS_REMKCNT_FRMKCNT_Msk ks_counters
               < u32 (@KS_ERR_PARAMETER ks_header))
    by (vm_compute; split; [discriminate | reflexivity]).
  assert (Hrp : 0 <= @KS_REMKCNT_RRMKCNT_Pos ks_counters)
    by (vm_compute; discriminate).
  assert (Hfp : 0 <= @KS_REMKCNT_FRMKCNT_Pos ks_counters)
    by (vm_compute; discriminate).
  split; [| split].
  - destruct (@KS_GetRemainKeyCount_error ks_header ks_counters ks_counts 0
                Hr Hrp Hf Hfp) as [Hsram _].
    rewrite (Hsram eq_refl). reflexivity.
  - destruct (@KS_GetRemainKeyCount_error ks_header ks_counters ks_counts 1
                Hr Hrp Hf Hfp) as (_ & Hflash & _).
    rewrite Hflash; [reflexivity | discriminate | reflexivity].
  - destruct (@KS_GetRemainKeyCount_error ks_header ks_counters ks_counts 2
                Hr Hrp Hf Hfp) as (_ & _ & _ & Herr).
    apply Herr; discriminate.
Defined.
